(** * PDF service test client: model and properties

    A shallow embedding of [examples/pdf_service/test-api.py]: the health
    probe, the synchronous and asynchronous generation tests, the load test
    with its two dispatch paths, and the command-line entry point.

    The script talks to a remote service, sleeps, reads the clock, writes
    files and prints.  Each such call is a node of a program tree ([prog]);
    an [oracle] stands for the outside world and answers every call from the
    history of what has happened so far.  All properties are proved for
    every oracle.  Python's [float] is the binary64 format of [PrimFloat]. *)

From Stdlib Require Import Floats.
From Stdlib Require Import List ZArith String Ascii Bool Lia Permutation.
From Stdlib Require Import DecimalString DecimalN FinFun.
From Stdlib Require Strings.Byte.
Import ListNotations.
Open Scope Z_scope.

Set Implicit Arguments.
Set Warnings "-register-all,-inexact-float".


(** ** Values exchanged with the service *)

(** The result of [response.json()]: a Python value built from JSON.
    A [dict] is an association list in which the first binding of a key is
    the one in effect. *)
Inductive json : Type :=
| JNull
| JBool (b : bool)
| JInt (n : Z)
| JFloat (lexeme : string)
| JString (s : string)
| JArray (items : list json)
| JObject (members : list (string * json)).

(** The exceptions (all subclasses of [Exception]) the script can meet. *)
Inductive exn : Type :=
| RequestException (detail : string)
| JSONDecodeError
| KeyError (key : string)
| TypeError
| AttributeError
| NameError (name : string)
| OSError (detail : string)
| UnicodeEncodeError
| OverflowError
| ZeroDivisionError.

Inductive http_method : Type := GET | POST.

(** The paths under [API_BASE] the script requests. *)
Inductive endpoint : Type :=
| Health
| Generate
| Jobs
| Job (job_id : json)
| JobDownload (job_id : json).

Record request : Type := {
  method : http_method;
  url : endpoint;
  body : option json;
  timeout : Z
}.

(** A [requests.Response]; [json_body] is [None] when the body does not
    parse, in which case [response.json()] raises. *)
Record response : Type := {
  status_code : Z;
  text : string;
  content : list Byte.byte;
  json_body : option json
}.

(** ** Printed lines

    One constructor per [print] call of the script, holding the values of
    the holes of its f-string. *)
Inductive message : Type :=
| Blank
| InfoTestingHealth
| InfoHealthPassed (payload : json)
| ErrHealthFailedHttp (code : Z) (body_text : string)
| ErrHealthFailed (e : exn)
| InfoTestingSync (invoice_num : string)
| InfoSyncSucceeded (output_file : string) (file_size : Z)
| ErrSyncFailedHttp (code : Z) (body_text : string)
| ErrSyncFailed (e : exn)
| InfoTestingAsync (invoice_num : string)
| ErrJobCreationFailed (code : Z) (body_text : string)
| InfoJobCreated (job_id : json)
| ErrStatusCheckFailed (code : Z) (body_text : string)
| InfoJobStatus (status : json) (attempt : Z)
| ErrJobFailed (reason : json)
| ErrJobTimedOut
| InfoAsyncSucceeded (output_file : string) (file_size : Z)
| ErrDownloadFailed (code : Z) (body_text : string)
| ErrAsyncFailed (e : exn)
| InfoLoadStart (count : Z) (mode : string) (parallel : Z)
| InfoLoadCompleted
| InfoTotal (count : Z)
| InfoSuccess (success : Z)
| InfoFailed (failed : Z)
| InfoDuration (duration : float)
| InfoRate (rate : float)
| InfoConcurrency (parallel : Z)
| InfoRunningAll
| ErrServiceNotRunning
| ErrSyncGenerationFailed
| ErrAsyncGenerationFailed
| InfoAllPassed.

(** ** Programs

    A program is a tree: a leaf returns or raises, an inner node is one call
    to the outside world with a continuation for each possible answer.
    [requests] calls and file operations may raise, and so may [print]
    (see [printable] below); [time.sleep], [time.time] and
    [random.randint] do not. *)
Inductive prog (A : Type) : Type :=
| Ret (a : A)
| Raise (e : exn)
| RandInt (lo hi : Z) (k : Z -> prog A)
| Sleep (seconds : Z) (k : prog A)
| Time (k : float -> prog A)
| Print (line : message) (k : option exn -> prog A)
| Http (r : request) (k : exn + response -> prog A)
| Mkdir (k : option exn -> prog A)
| WriteBytes (file : string) (data : list Byte.byte) (k : option exn -> prog A).

Arguments Ret {A} a.
Arguments Raise {A} e.
Arguments Time {A} k.
Arguments Mkdir {A} k.

Fixpoint bind {A B : Type} (p : prog A) (f : A -> prog B) : prog B :=
  match p with
  | Ret a => f a
  | Raise e => Raise e
  | RandInt lo hi k => RandInt lo hi (fun z => bind (k z) f)
  | Sleep s k => Sleep s (bind k f)
  | Time k => Time (fun t => bind (k t) f)
  | Print m k => Print m (fun a => bind (k a) f)
  | Http r k => Http r (fun a => bind (k a) f)
  | Mkdir k => Mkdir (fun a => bind (k a) f)
  | WriteBytes file data k => WriteBytes file data (fun a => bind (k a) f)
  end.

(** [try: p  except Exception as e: handler e]. *)
Fixpoint try_except {A : Type} (p : prog A) (handler : exn -> prog A) : prog A :=
  match p with
  | Ret a => Ret a
  | Raise e => handler e
  | RandInt lo hi k => RandInt lo hi (fun z => try_except (k z) handler)
  | Sleep s k => Sleep s (try_except k handler)
  | Time k => Time (fun t => try_except (k t) handler)
  | Print m k => Print m (fun a => try_except (k a) handler)
  | Http r k => Http r (fun a => try_except (k a) handler)
  | Mkdir k => Mkdir (fun a => try_except (k a) handler)
  | WriteBytes file data k => WriteBytes file data (fun a => try_except (k a) handler)
  end.

Declare Scope prog_scope.
Delimit Scope prog_scope with prog.
Bind Scope prog_scope with prog.
Notation "x <- p ;; q" := (bind p (fun x => q))
  (at level 61, p at next level, right associativity) : prog_scope.
Notation "p ;; q" := (bind p (fun _ => q))
  (at level 61, right associativity) : prog_scope.
Open Scope prog_scope.

Definition raise_or_return {A : Type} (a : exn + A) : prog A :=
  match a with
  | inl e => Raise e
  | inr v => Ret v
  end.

Definition raise_if_failed (a : option exn) : prog unit :=
  match a with
  | Some e => Raise e
  | None => Ret tt
  end.

Definition print (line : message) : prog unit := Print line raise_if_failed.
Definition time_sleep (seconds : Z) : prog unit := Sleep seconds (Ret tt).
Definition time_time : prog float := Time (fun t => Ret t).
Definition random_randint (lo hi : Z) : prog Z := RandInt lo hi (fun z => Ret z).

Definition requests_get (target : endpoint) (secs : Z) : prog response :=
  Http {| method := GET; url := target; body := None; timeout := secs |}
       raise_or_return.

Definition requests_post (target : endpoint) (payload : json) (secs : Z)
  : prog response :=
  Http {| method := POST; url := target; body := Some payload; timeout := secs |}
       raise_or_return.

(** [OUTPUT_DIR.mkdir(parents=True, exist_ok=True)]. *)
Definition mkdir_output_dir : prog unit := Mkdir raise_if_failed.

(** [output_file.write_bytes(data)], the file named relative to [OUTPUT_DIR]. *)
Definition write_bytes (file : string) (data : list Byte.byte) : prog unit :=
  WriteBytes file data raise_if_failed.

(** ** Python operations on parsed JSON *)

Definition response_json (r : response) : prog json :=
  match json_body r with
  | Some v => Ret v
  | None => Raise JSONDecodeError
  end.

Fixpoint lookup (key : string) (members : list (string * json)) : option json :=
  match members with
  | [] => None
  | (k, v) :: rest => if String.eqb k key then Some v else lookup key rest
  end.

(** [d[key]] for a string key. *)
Definition subscript (d : json) (key : string) : prog json :=
  match d with
  | JObject members =>
      match lookup key members with
      | Some v => Ret v
      | None => Raise (KeyError key)
      end
  | _ => Raise TypeError
  end.

(** [d.get(key, default)]. *)
Definition dict_get (d : json) (key : string) (default : json) : prog json :=
  match d with
  | JObject members =>
      match lookup key members with
      | Some v => Ret v
      | None => Ret default
      end
  | _ => Raise AttributeError
  end.

(** [v == s] for a string literal [s]. *)
Definition eq_str (v : json) (s : string) : bool :=
  match v with
  | JString s' => String.eqb s' s
  | _ => false
  end.

(** [range(lo, hi)]. *)
Definition range (lo hi : Z) : list Z :=
  map (fun k => lo + Z.of_nat k) (seq 0 (Z.to_nat (hi - lo))).

Arguments range : simpl never.

Definition str_of_nonneg (n : Z) : string :=
  NilZero.string_of_uint (N.to_uint (Z.to_N n)).

Fixpoint zeros (n : nat) : string :=
  match n with
  | O => EmptyString
  | S n' => String "0" (zeros n')
  end.

Definition zero_pad (width : nat) (digits : string) : string :=
  (zeros (width - String.length digits) ++ digits)%string.

(** [f"{i:04d}"]: the sign, when there is one, counts in the width. *)
Definition format_04d (i : Z) : string :=
  if i <? 0 then ("-" ++ zero_pad 3 (str_of_nonneg (- i)))%string
  else zero_pad 4 (str_of_nonneg i).

(** [str(n)] for an integer. *)
Definition str_of_int (n : Z) : string :=
  if n <? 0 then ("-" ++ str_of_nonneg (- n))%string else str_of_nonneg n.

(** ** The script's functions *)

Definition generate_invoice_data (invoice_num : string) : prog json :=
  quantity <- random_randint 1 10 ;;
  Ret (JObject [
    ("invoice", JObject [
      ("number", JString ("INV-2025-" ++ invoice_num));
      ("company", JObject [
        ("name", JString "Petty PDF Solutions Inc.");
        ("address", JString "123 Document Lane");
        ("city", JString "San Francisco");
        ("zip", JString "94102")]);
      ("customer", JObject [
        ("name", JString ("Customer " ++ invoice_num ++ " Corp."));
        ("email", JString ("billing" ++ invoice_num ++ "@example.com"))]);
      ("items", JArray [
        JObject [
          ("description", JString "PDF Generation Service - Premium Plan");
          ("quantity", JInt 1);
          ("price", JString "299.00");
          ("total", JString "299.00")];
        JObject [
          ("description", JString "API Calls (10,000 requests)");
          ("quantity", JInt quantity);
          ("price", JString "49.00");
          ("total", JString (str_of_int (49 * quantity) ++ ".00"))]]);
      ("subtotal", JString "594.00");
      ("tax_rate", JString "8.5");
      ("tax", JString "50.49");
      ("total", JString "644.49")])])%string.

Definition len (data : list Byte.byte) : Z := Z.of_nat (List.length data).

Definition test_health : prog bool :=
  print InfoTestingHealth ;;
  try_except
    (resp <- requests_get Health 10 ;;
     if status_code resp =? 200 then
       payload <- response_json resp ;;
       print (InfoHealthPassed payload) ;;
       Ret true
     else
       print (ErrHealthFailedHttp (status_code resp) (text resp)) ;;
       Ret false)
    (fun e => print (ErrHealthFailed e) ;; Ret false).

Definition test_sync_generation (invoice_num : string) : prog bool :=
  let output_file := ("sync-invoice-" ++ invoice_num ++ ".pdf")%string in
  print (InfoTestingSync invoice_num) ;;
  data <- generate_invoice_data invoice_num ;;
  let request_body :=
    JObject [("template", JString "invoice"); ("data", data)]%string in
  try_except
    (resp <- requests_post Generate request_body 60 ;;
     if status_code resp =? 200 then
       mkdir_output_dir ;;
       write_bytes output_file (content resp) ;;
       let file_size := len (content resp) in
       print (InfoSyncSucceeded output_file file_size) ;;
       Ret true
     else
       print (ErrSyncFailedHttp (status_code resp) (text resp)) ;;
       Ret false)
    (fun e => print (ErrSyncFailed e) ;; Ret false).

(** How a loop body or a loop ends: by [return r], or by going on to the
    statement after it with the loop's variables. *)
Inductive flow (R A : Type) : Type :=
| Return (r : R)
| Next (a : A).

Arguments Return {R A} r.
Arguments Next {R A} a.

Definition max_attempts : Z := 30.

(** The polling loop [for attempt in range(1, max_attempts + 1)], over the
    attempts still to make.  [status] is the loop's variable of that name,
    unbound ([None]) until the first status is read; it is what the code
    after the loop sees. *)
Fixpoint poll (job_id : json) (attempts : list Z) (status : option json)
  : prog (flow bool (option json)) :=
  match attempts with
  | [] => Ret (Next status)
  | attempt :: rest =>
      time_sleep 1 ;;
      resp <- requests_get (Job job_id) 10 ;;
      if negb (status_code resp =? 200) then
        print (ErrStatusCheckFailed (status_code resp) (text resp)) ;;
        Ret (Return false)
      else
        status_data <- response_json resp ;;
        status <- subscript status_data "status" ;;
        print (InfoJobStatus status attempt) ;;
        if eq_str status "completed" then
          Ret (Next (Some status))
        else if eq_str status "failed" then
          err <- dict_get status_data "error" (JObject []) ;;
          reason <- dict_get err "message" (JString "Unknown error") ;;
          print (ErrJobFailed reason) ;;
          Ret (Return false)
        else
          poll job_id rest (Some status)
  end.

(** Reading a local variable that may still be unbound. *)
Definition read_local (name : string) (v : option json) : prog json :=
  match v with
  | Some x => Ret x
  | None => Raise (NameError name)
  end.

Definition download_result (invoice_num : string) (job_id : json) : prog bool :=
  let output_file := ("async-invoice-" ++ invoice_num ++ ".pdf")%string in
  resp <- requests_get (JobDownload job_id) 60 ;;
  if status_code resp =? 200 then
    mkdir_output_dir ;;
    write_bytes output_file (content resp) ;;
    let file_size := len (content resp) in
    print (InfoAsyncSucceeded output_file file_size) ;;
    Ret true
  else
    print (ErrDownloadFailed (status_code resp) (text resp)) ;;
    Ret false.

(** The code after the polling loop: nothing more when the loop returned,
    else the time-out check and the download. *)
Definition after_polling (invoice_num : string) (job_id : json)
  (polled : flow bool (option json)) : prog bool :=
  match polled with
  | Return r => Ret r
  | Next last =>
      status <- read_local "status" last ;;
      if negb (eq_str status "completed") then
        print ErrJobTimedOut ;;
        Ret false
      else
        download_result invoice_num job_id
  end.

Definition test_async_generation (invoice_num : string) : prog bool :=
  print (InfoTestingAsync invoice_num) ;;
  data <- generate_invoice_data invoice_num ;;
  let request_body :=
    JObject [("template", JString "invoice"); ("data", data)]%string in
  try_except
    (resp <- requests_post Jobs request_body 30 ;;
     if negb (status_code resp =? 202) then
       print (ErrJobCreationFailed (status_code resp) (text resp)) ;;
       Ret false
     else
       job_data <- response_json resp ;;
       job_id <- subscript job_data "job_id" ;;
       print (InfoJobCreated job_id) ;;
       polled <- poll job_id (range 1 (max_attempts + 1)) None ;;
       after_polling invoice_num job_id polled)
    (fun e => print (ErrAsyncFailed e) ;; Ret false).

(** The closure [generate_one] of [test_load]. *)
Definition generate_one (use_async : bool) (i : Z) : prog bool :=
  let invoice_num := format_04d i in
  if use_async then test_async_generation invoice_num
  else test_sync_generation invoice_num.

Definition run_all_tests : prog bool :=
  print InfoRunningAll ;;
  print Blank ;;
  healthy <- test_health ;;
  if negb healthy then
    print ErrServiceNotRunning ;;
    Ret false
  else
    print Blank ;;
    sync_ok <- test_sync_generation "sync-test" ;;
    if negb sync_ok then
      print ErrSyncGenerationFailed ;;
      Ret false
    else
      print Blank ;;
      async_ok <- test_async_generation "async-test" ;;
      if negb async_ok then
        print ErrAsyncGenerationFailed ;;
        Ret false
      else
        print Blank ;;
        print InfoAllPassed ;;
        Ret true.

(** ** The outside world *)

(** What a run leaves behind: every call with the answer it got, in order. *)
Inductive event : Type :=
| EvRandInt (lo hi answer : Z)
| EvSleep (seconds : Z)
| EvTime (now : float)
| EvPrint (line : message)
| EvHttp (r : request) (answer : exn + response)
| EvMkdir (answer : option exn)
| EvWriteBytes (file : string) (data : list Byte.byte) (answer : option exn)
| EvPrintFailed (line : message).

(** The service, the clock, the disk, the random generator and the
    encoding of standard output.  Each answer may depend on everything that
    happened before the call; what [sys.stdout] can encode is fixed for the
    run. *)
Record oracle : Type := {
  random_of : list event -> Z -> Z -> Z;
  clock_of : list event -> float;
  reply_of : list event -> request -> exn + response;
  mkdir_of : list event -> option exn;
  write_of : list event -> string -> list Byte.byte -> option exn;
  stdout_encodes : json -> bool
}.

(** ** Text on standard output

    [print(line)] encodes the line for [sys.stdout] and raises
    [UnicodeEncodeError], writing nothing, when the line holds a character
    the stream's encoding lacks (a lone surrogate in a JSON string, for
    one).  The script's own text, the numbers it formats and the messages of
    the exceptions it catches are ASCII, which every encoding of standard
    output has; only what a reply of the service put into the line can fail
    to encode. *)

Definition is_ascii_char (c : ascii) : bool :=
  match c with
  | Ascii _ _ _ _ _ _ _ high => negb high
  end.

Fixpoint is_ascii (s : string) : bool :=
  match s with
  | EmptyString => true
  | String c rest => is_ascii_char c && is_ascii rest
  end.

(** Values whose [str()] is ASCII whatever they are: numbers, [True],
    [False], [None] and strings of ASCII characters.  A list or a dict
    shows the strings inside it; for those, and for a string with other
    characters, the encoding of the stream decides ([stdout_encodes]). *)
Definition plain (v : json) : bool :=
  match v with
  | JNull | JBool _ | JInt _ | JFloat _ => true
  | JString s => is_ascii s
  | JArray _ | JObject _ => false
  end.

(** Whether [sys.stdout] can encode [str(v)]. *)
Definition encodes (env : oracle) (v : json) : bool :=
  plain v || stdout_encodes env v.

Arguments encodes : simpl never.

(** The value a reply of the service put into a line, if any. *)
Definition shown (line : message) : option json :=
  match line with
  | InfoHealthPassed payload => Some payload
  | ErrHealthFailedHttp _ body_text => Some (JString body_text)
  | ErrSyncFailedHttp _ body_text => Some (JString body_text)
  | ErrJobCreationFailed _ body_text => Some (JString body_text)
  | InfoJobCreated job_id => Some job_id
  | ErrStatusCheckFailed _ body_text => Some (JString body_text)
  | InfoJobStatus status _ => Some status
  | ErrJobFailed reason => Some reason
  | ErrDownloadFailed _ body_text => Some (JString body_text)
  | _ => None
  end.

Definition printable (env : oracle) (line : message) : bool :=
  match shown line with
  | Some v => encodes env v
  | None => true
  end.

(** What a [print] call leaves and how it ends. *)
Definition print_event (env : oracle) (line : message) : event :=
  if printable env line then EvPrint line else EvPrintFailed line.

Definition print_answer (env : oracle) (line : message) : option exn :=
  if printable env line then None else Some UnicodeEncodeError.

Inductive outcome (A : Type) : Type :=
| Returned (a : A)
| Raised (e : exn).

Arguments Returned {A} a.
Arguments Raised {A} e.

(** [random.randint(lo, hi)] answers within its bounds. *)
Definition clamp (lo hi z : Z) : Z := Z.max lo (Z.min hi z).

(** One move of a program: it is over, or it makes one call, gets the
    answer and goes on. *)
Definition step {A : Type} (env : oracle) (h : list event) (p : prog A)
  : outcome A + event * prog A :=
  match p with
  | Ret a => inl (Returned a)
  | Raise e => inl (Raised e)
  | RandInt lo hi k =>
      let z := clamp lo hi (random_of env h lo hi) in
      inr (EvRandInt lo hi z, k z)
  | Sleep s k => inr (EvSleep s, k)
  | Time k => let t := clock_of env h in inr (EvTime t, k t)
  | Print m k => inr (print_event env m, k (print_answer env m))
  | Http r k => let a := reply_of env h r in inr (EvHttp r a, k a)
  | Mkdir k => let a := mkdir_of env h in inr (EvMkdir a, k a)
  | WriteBytes file data k =>
      let a := write_of env h file data in
      inr (EvWriteBytes file data a, k a)
  end.

Definition after {A : Type} (ev : event) (r : outcome A * list event)
  : outcome A * list event :=
  (fst r, ev :: snd r).

(** Running a program to its end from history [h]: how it ends and the
    events it adds. *)
Fixpoint exec {A : Type} (env : oracle) (h : list event) (p : prog A)
  : outcome A * list event :=
  match p with
  | Ret a => (Returned a, [])
  | Raise e => (Raised e, [])
  | RandInt lo hi k =>
      let z := clamp lo hi (random_of env h lo hi) in
      after (EvRandInt lo hi z) (exec env (h ++ [EvRandInt lo hi z]) (k z))
  | Sleep s k => after (EvSleep s) (exec env (h ++ [EvSleep s]) k)
  | Time k =>
      let t := clock_of env h in
      after (EvTime t) (exec env (h ++ [EvTime t]) (k t))
  | Print m k =>
      after (print_event env m)
            (exec env (h ++ [print_event env m]) (k (print_answer env m)))
  | Http r k =>
      let a := reply_of env h r in
      after (EvHttp r a) (exec env (h ++ [EvHttp r a]) (k a))
  | Mkdir k =>
      let a := mkdir_of env h in
      after (EvMkdir a) (exec env (h ++ [EvMkdir a]) (k a))
  | WriteBytes file data k =>
      let a := write_of env h file data in
      after (EvWriteBytes file data a)
            (exec env (h ++ [EvWriteBytes file data a]) (k a))
  end.

(** ** The thread pool

    [ThreadPoolExecutor(max_workers)] with the calls submitted to it: a
    first-in first-out queue of calls not yet taken, the calls the worker
    threads are executing, and the futures that are done, in the order
    [as_completed] yields them.  A call is named by the index it was
    submitted with. *)
Record pool : Type := {
  max_workers : Z;
  queue : list (Z * prog bool);
  running : list (Z * prog bool);
  finished : list (Z * outcome bool);
  trace : list event
}.

(** Idle workers take calls from the front of the queue. *)
Definition dispatch (pl : pool) : pool :=
  let free := Z.to_nat (max_workers pl - Z.of_nat (List.length (running pl))) in
  {| max_workers := max_workers pl;
     queue := skipn free (queue pl);
     running := running pl ++ firstn free (queue pl);
     finished := finished pl;
     trace := trace pl |}.

(** [executor.submit(generate_one, i)]. *)
Definition submit (pl : pool) (call : Z * prog bool) : pool :=
  dispatch {| max_workers := max_workers pl;
           queue := queue pl ++ [call];
           running := running pl;
           finished := finished pl;
           trace := trace pl |}.

Definition new_pool (workers : Z) : pool :=
  {| max_workers := workers; queue := []; running := []; finished := [];
     trace := [] |}.

Definition submit_all (workers : Z) (calls : list (Z * prog bool)) : pool :=
  fold_left submit calls (new_pool workers).

Definition remove_nth {A : Type} (n : nat) (l : list A) : list A :=
  firstn n l ++ skipn (S n) l.

Definition replace_nth {A : Type} (n : nat) (x : A) (l : list A) : list A :=
  firstn n l ++ x :: skipn (S n) l.

(** Worker [w] moves: its call makes one call to the outside world, or is
    over, in which case its future is done and the worker takes the next
    call of the queue.  Nothing happens when there is no worker [w]. *)
Definition tick (env : oracle) (h0 : list event) (pl : pool) (w : nat) : pool :=
  match nth_error (running pl) w with
  | None => pl
  | Some (i, p) =>
      match step env (h0 ++ trace pl) p with
      | inl o =>
          dispatch {| max_workers := max_workers pl;
                   queue := queue pl;
                   running := remove_nth w (running pl);
                   finished := finished pl ++ [(i, o)];
                   trace := trace pl |}
      | inr (ev, p') =>
          {| max_workers := max_workers pl;
             queue := queue pl;
             running := replace_nth w (i, p') (running pl);
             finished := finished pl;
             trace := trace pl ++ [ev] |}
      end
  end.

(** The pool after the workers moved in the order [sched] says. *)
Definition run_ticks (env : oracle) (h0 : list event) (sched : list nat)
  (pl : pool) : pool :=
  fold_left (tick env h0) sched pl.

(** The calls of [calls] executed to their end one after the other. *)
Fixpoint run_each (env : oracle) (h0 : list event) (calls : list (Z * prog bool))
  (done : list (Z * outcome bool)) (tr : list event)
  : list (Z * outcome bool) * list event :=
  match calls with
  | [] => (done, tr)
  | (i, p) :: rest =>
      let r := exec env (h0 ++ tr) p in
      run_each env h0 rest (done ++ [(i, fst r)]) (tr ++ snd r)
  end.

(** When [sched] is used up the workers finish what is left in turn:
    the first worker's call to its end, then the next. *)
Definition drain (env : oracle) (h0 : list event) (pl : pool)
  : list (Z * outcome bool) * list event :=
  run_each env h0 (running pl ++ queue pl) (finished pl) (trace pl).

(** ** Code of the main thread

    The main thread runs programs and, in [test_load], a thread pool whose
    workers interleave as a schedule says.  A run takes the oracle, the
    schedule and the history so far, and gives how it ends and the events
    it adds. *)
Definition Run (A : Type) : Type :=
  oracle -> list nat -> list event -> outcome A * list event.

Definition run_ret {A : Type} (a : A) : Run A :=
  fun _ _ _ => (Returned a, []).

Definition run_bind {A B : Type} (m : Run A) (f : A -> Run B) : Run B :=
  fun env sched h =>
    let r := m env sched h in
    match fst r with
    | Returned a =>
        let r' := f a env sched (h ++ snd r) in
        (fst r', snd r ++ snd r')
    | Raised e => (Raised e, snd r)
    end.

Definition lift {A : Type} (p : prog A) : Run A :=
  fun env _ h => exec env h p.

Declare Scope run_scope.
Delimit Scope run_scope with run.
Notation "x <- p ;; q" := (run_bind p (fun x => q))
  (at level 61, p at next level, right associativity) : run_scope.
Notation "p ;; q" := (run_bind p (fun _ => q))
  (at level 61, right associativity) : run_scope.

(** [with ThreadPoolExecutor(max_workers) as executor:] submit every call,
    then take the futures as they complete. *)
Definition as_completed (workers : Z) (calls : list (Z * prog bool))
  : Run (list (Z * outcome bool)) :=
  fun env sched h0 =>
    let r := drain env h0 (run_ticks env h0 sched (submit_all workers calls)) in
    (Returned (fst r), snd r).

(** [future.result()]. *)
Definition future_result (o : outcome bool) : prog bool :=
  match o with
  | Returned b => Ret b
  | Raised e => Raise e
  end.

(** The body both loops of [test_load] share:
    [try: if <attempt>: success += 1 else: failed += 1
     except Exception: failed += 1]. *)
Definition count_one (attempt : prog bool) (counts : Z * Z) : prog (Z * Z) :=
  let (success, failed) := counts in
  try_except
    (ok <- attempt ;;
     if ok then Ret (success + 1, failed) else Ret (success, failed + 1))
    (fun _ => Ret (success, failed + 1)).

(** [for i in range(1, count + 1)] of the sequential path. *)
Fixpoint sequential_loop (task : Z -> prog bool) (indices : list Z)
  (counts : Z * Z) : prog (Z * Z) :=
  match indices with
  | [] => Ret counts
  | i :: rest =>
      counts' <- count_one (task i) counts ;;
      sequential_loop task rest counts'
  end.

(** [for future in as_completed(futures)] of the pooled path. *)
Fixpoint completed_loop (futures : list (Z * outcome bool)) (counts : Z * Z)
  : prog (Z * Z) :=
  match futures with
  | [] => Ret counts
  | (_, o) :: rest =>
      counts' <- count_one (future_result o) counts ;;
      completed_loop rest counts'
  end.

(** ** Numbers

    The ints that convert to a float are those that round (to nearest, ties
    to even) to a double; the largest double is [2^1024 - 2^971], so an int
    of magnitude [2^1024 - 2^970] or more does not convert. *)
Definition float_limit : Z := 2 ^ 1024 - 2 ^ 970.

Arguments float_limit : simpl never.

(** The double nearest to an int. *)
Definition round_to_float (n : Z) : float :=
  SF2Prim (binary_normalize prec emax n 0 false).

(** The conversion of an int operand of a float operation; it raises
    [OverflowError] (int too large to convert to float). *)
Definition float_of_int (n : Z) : prog float :=
  if Z.abs n <? float_limit then Ret (round_to_float n) else Raise OverflowError.

(** [n / x] for an int [n] and a float [x]: the int is converted, then
    divided; dividing by zero raises, a quotient too large is [inf]. *)
Definition true_divide (n : Z) (x : float) : prog float :=
  y <- float_of_int n ;;
  if (x =? 0)%float then Raise ZeroDivisionError else Ret (y / x)%float.

(** [count / duration if duration > 0 else 0].  The [0] of the second
    branch is an int; the format [.2f] shows it as it shows the float 0. *)
Definition rate_of (count : Z) (duration : float) : prog float :=
  if (0 <? duration)%float then true_divide count duration else Ret 0%float.

(** [test_load] over an arbitrary [generate_one]. *)
Definition test_load_with (task : Z -> prog bool) (count parallel : Z)
  (use_async : bool) : Run unit :=
  (let mode := if use_async then "async"%string else "sync"%string in
   lift (print (InfoLoadStart count mode parallel)) ;;
   start_time <- lift time_time ;;
   counts <-
     (if 1 <? parallel then
        futures <- as_completed parallel
                     (map (fun i => (i, task i)) (range 1 (count + 1))) ;;
        lift (completed_loop futures (0, 0))
      else
        lift (sequential_loop task (range 1 (count + 1)) (0, 0))) ;;
   end_time <- lift time_time ;;
   let duration := (end_time - start_time)%float in
   rate <- lift (rate_of count duration) ;;
   lift (print Blank ;;
         print InfoLoadCompleted ;;
         print (InfoTotal count) ;;
         print (InfoSuccess (fst counts)) ;;
         print (InfoFailed (snd counts)) ;;
         print (InfoDuration duration) ;;
         print (InfoRate rate) ;;
         if 1 <? parallel then print (InfoConcurrency parallel) else Ret tt)%prog)%run.

Definition test_load (count parallel : Z) (use_async : bool) : Run unit :=
  test_load_with (generate_one use_async) count parallel use_async.

(** The command line as [argparse] parsed it. *)
Record args : Type := {
  health : bool;
  sync : bool;
  async_test : bool;
  load : option Z;
  parallel : Z;
  use_async : bool
}.

(** Truth value of [args.load]: [None] and [0] are false. *)
Definition truthy (v : option Z) : bool :=
  match v with
  | Some n => negb (n =? 0)
  | None => false
  end.

(** [main], giving the status passed to [sys.exit]; every branch ends in
    one, and falling off the end would exit with 0. *)
Definition main (a : args) : Run Z :=
  (if negb (health a || sync a || async_test a || truthy (load a)) then
     success <- lift run_all_tests ;;
     run_ret (if success then 0 else 1)
   else if health a then
     success <- lift test_health ;;
     run_ret (if success then 0 else 1)
   else if sync a then
     success <- lift (test_sync_generation "001") ;;
     run_ret (if success then 0 else 1)
   else if async_test a then
     success <- lift (test_async_generation "001") ;;
     run_ret (if success then 0 else 1)
   else
     match load a with
     | Some count =>
         if negb (count =? 0) then
           test_load count (parallel a) (use_async a) ;;
           run_ret 0
         else run_ret 0
     | None => run_ret 0
     end)%run.

(** The status the process ends with: the one given to [sys.exit], or 1
    when an exception reaches the top. *)
Definition exit_status (o : outcome Z) : Z :=
  match o with
  | Returned code => code
  | Raised _ => 1
  end.

(** ** Reading a trace *)

Definition is_status_fetch (ev : event) : bool :=
  match ev with
  | EvHttp r _ => match url r with Job _ => true | _ => false end
  | _ => false
  end.

Definition is_download (ev : event) : bool :=
  match ev with
  | EvHttp r _ => match url r with JobDownload _ => true | _ => false end
  | _ => false
  end.

Definition is_request (ev : event) : bool :=
  match ev with
  | EvHttp _ _ => true
  | _ => false
  end.

Definition count (f : event -> bool) (t : list event) : nat :=
  List.length (filter f t).

(** The status an answer to a status fetch gives the poller: the value of
    [status_data["status"]] when the reply is a 200 whose body is a dict
    with that key. *)
Definition status_of (a : exn + response) : option json :=
  match a with
  | inl _ => None
  | inr resp =>
      if status_code resp =? 200 then
        match json_body resp with
        | Some (JObject members) => lookup "status" members
        | _ => None
        end
      else None
  end.

Definition fetched_status (ev : event) : option json :=
  match ev with
  | EvHttp r a => if is_status_fetch ev then status_of a else None
  | _ => None
  end.

Definition reports (word : string) (ev : event) : bool :=
  match fetched_status ev with
  | Some s => eq_str s word
  | None => false
  end.

(** A status fetch that returned [completed] or [failed]. *)
Definition is_terminal_fetch (ev : event) : bool :=
  reports "completed" ev || reports "failed" ev.

(** A status fetch that returned [queued] or [processing]. *)
Definition is_pending_fetch (ev : event) : bool :=
  reports "queued" ev || reports "processing" ev.

(** A download call answered with a status other than 200. *)
Definition is_refused_download (ev : event) : bool :=
  match ev with
  | EvHttp _ (inr resp) => is_download ev && negb (status_code resp =? 200)
  | _ => false
  end.

(** The last value of a kind found in a list. *)
Fixpoint last_some {A B : Type} (f : A -> option B) (l : list A) : option B :=
  match l with
  | [] => None
  | x :: rest =>
      match last_some f rest with
      | Some b => Some b
      | None => f x
      end
  end.

Definition success_line (ev : event) : option Z :=
  match ev with
  | EvPrint (InfoSuccess s) => Some s
  | _ => None
  end.

Definition failed_line (ev : event) : option Z :=
  match ev with
  | EvPrint (InfoFailed f) => Some f
  | _ => None
  end.

Definition rate_line (ev : event) : option float :=
  match ev with
  | EvPrint (InfoRate r) => Some r
  | _ => None
  end.

Definition time_read (ev : event) : option float :=
  match ev with
  | EvTime t => Some t
  | _ => None
  end.

(** The counts and rate a load run reports: its last such lines. *)
Definition reported_success (t : list event) : option Z := last_some success_line t.
Definition reported_failed (t : list event) : option Z := last_some failed_line t.
Definition reported_rate (t : list event) : option float := last_some rate_line t.

(** What one outcome adds to the counters [(success, failed)]. *)
Definition tally (counts : Z * Z) (o : outcome bool) : Z * Z :=
  match o with
  | Returned true => (fst counts + 1, snd counts)
  | _ => (fst counts, snd counts + 1)
  end.

Definition is_success (o : outcome bool) : bool :=
  match o with
  | Returned true => true
  | _ => false
  end.

Definition calls_of (task : Z -> prog bool) (count : Z) : list (Z * prog bool) :=
  map (fun i => (i, task i)) (range 1 (count + 1)).

(** ** The shape of an asynchronous lifecycle

    Every way the polling loop, the download and the whole of
    [test_async_generation] can go, as relations between how they end and
    the events they leave.  [poll_exec], [download_exec] and [async_exec]
    below show that the code follows them. *)

Definition status_request (job_id : json) : request :=
  {| method := GET; url := Job job_id; body := None; timeout := 10 |}.

Definition download_request (job_id : json) : request :=
  {| method := GET; url := JobDownload job_id; body := None; timeout := 60 |}.

(** The job a reply to the submission gives: [job_data["job_id"]] of a 202. *)
Definition job_of (a : exn + response) : option json :=
  match a with
  | inl _ => None
  | inr resp =>
      if status_code resp =? 202 then
        match json_body resp with
        | Some (JObject members) => lookup "job_id" members
        | _ => None
        end
      else None
  end.

Inductive poll_shape (job_id : json)
  : list Z -> option json -> outcome (flow bool (option json)) -> list event -> Prop :=
| PollExhausted status :
    poll_shape job_id [] status (Returned (Next status)) []
| PollPending attempt rest status resp s o t :
    status_of (inr resp) = Some s ->
    eq_str s "completed" = false ->
    eq_str s "failed" = false ->
    poll_shape job_id rest (Some s) o t ->
    poll_shape job_id (attempt :: rest) status o
      (EvSleep 1 :: EvHttp (status_request job_id) (inr resp)
         :: EvPrint (InfoJobStatus s attempt) :: t)
| PollCompleted attempt rest status resp s :
    status_of (inr resp) = Some s ->
    eq_str s "completed" = true ->
    poll_shape job_id (attempt :: rest) status (Returned (Next (Some s)))
      [EvSleep 1; EvHttp (status_request job_id) (inr resp);
       EvPrint (InfoJobStatus s attempt)]
| PollJobFailed attempt rest status resp s reason :
    status_of (inr resp) = Some s ->
    eq_str s "completed" = false ->
    eq_str s "failed" = true ->
    poll_shape job_id (attempt :: rest) status (Returned (Return false))
      [EvSleep 1; EvHttp (status_request job_id) (inr resp);
       EvPrint (InfoJobStatus s attempt); EvPrint (ErrJobFailed reason)]
| PollJobFailedOddly attempt rest status resp s :
    status_of (inr resp) = Some s ->
    eq_str s "completed" = false ->
    eq_str s "failed" = true ->
    poll_shape job_id (attempt :: rest) status (Raised AttributeError)
      [EvSleep 1; EvHttp (status_request job_id) (inr resp);
       EvPrint (InfoJobStatus s attempt)]
| PollRefused attempt rest status resp :
    (status_code resp =? 200) = false ->
    poll_shape job_id (attempt :: rest) status (Returned (Return false))
      [EvSleep 1; EvHttp (status_request job_id) (inr resp);
       EvPrint (ErrStatusCheckFailed (status_code resp) (text resp))]
| PollRaised attempt rest status a e :
    status_of a = None ->
    poll_shape job_id (attempt :: rest) status (Raised e)
      [EvSleep 1; EvHttp (status_request job_id) a]
| PollRefusalUnprinted attempt rest status resp :
    (status_code resp =? 200) = false ->
    plain (JString (text resp)) = false ->
    poll_shape job_id (attempt :: rest) status (Raised UnicodeEncodeError)
      [EvSleep 1; EvHttp (status_request job_id) (inr resp);
       EvPrintFailed (ErrStatusCheckFailed (status_code resp) (text resp))]
| PollStatusUnprinted attempt rest status resp s :
    status_of (inr resp) = Some s ->
    plain s = false ->
    poll_shape job_id (attempt :: rest) status (Raised UnicodeEncodeError)
      [EvSleep 1; EvHttp (status_request job_id) (inr resp);
       EvPrintFailed (InfoJobStatus s attempt)]
| PollReasonUnprinted attempt rest status resp s reason :
    status_of (inr resp) = Some s ->
    eq_str s "completed" = false ->
    eq_str s "failed" = true ->
    plain reason = false ->
    poll_shape job_id (attempt :: rest) status (Raised UnicodeEncodeError)
      [EvSleep 1; EvHttp (status_request job_id) (inr resp);
       EvPrint (InfoJobStatus s attempt); EvPrintFailed (ErrJobFailed reason)].

Inductive download_shape (job_id : json) : outcome bool -> list event -> Prop :=
| DownloadRaised e :
    download_shape job_id (Returned false)
      [EvHttp (download_request job_id) (inl e); EvPrint (ErrAsyncFailed e)]
| DownloadRefused resp :
    (status_code resp =? 200) = false ->
    download_shape job_id (Returned false)
      [EvHttp (download_request job_id) (inr resp);
       EvPrint (ErrDownloadFailed (status_code resp) (text resp))]
| DownloadNoDir resp e :
    (status_code resp =? 200) = true ->
    download_shape job_id (Returned false)
      [EvHttp (download_request job_id) (inr resp); EvMkdir (Some e);
       EvPrint (ErrAsyncFailed e)]
| DownloadNotWritten resp file e :
    (status_code resp =? 200) = true ->
    download_shape job_id (Returned false)
      [EvHttp (download_request job_id) (inr resp); EvMkdir None;
       EvWriteBytes file (content resp) (Some e); EvPrint (ErrAsyncFailed e)]
| DownloadSaved resp file :
    (status_code resp =? 200) = true ->
    download_shape job_id (Returned true)
      [EvHttp (download_request job_id) (inr resp); EvMkdir None;
       EvWriteBytes file (content resp) None;
       EvPrint (InfoAsyncSucceeded file (len (content resp)))]
| DownloadRefusalUnprinted resp :
    (status_code resp =? 200) = false ->
    plain (JString (text resp)) = false ->
    download_shape job_id (Returned false)
      [EvHttp (download_request job_id) (inr resp);
       EvPrintFailed (ErrDownloadFailed (status_code resp) (text resp));
       EvPrint (ErrAsyncFailed UnicodeEncodeError)].

(** What follows the polling loop, from how the loop ended. *)
Inductive finish_shape (job_id : json)
  : outcome (flow bool (option json)) -> outcome bool -> list event -> Prop :=
| FinishRaised e :
    finish_shape job_id (Raised e) (Returned false) [EvPrint (ErrAsyncFailed e)]
| FinishReturned r :
    finish_shape job_id (Returned (Return r)) (Returned r) []
| FinishUnbound :
    finish_shape job_id (Returned (Next None)) (Returned false)
      [EvPrint (ErrAsyncFailed (NameError "status"))]
| FinishTimedOut s :
    eq_str s "completed" = false ->
    finish_shape job_id (Returned (Next (Some s))) (Returned false)
      [EvPrint ErrJobTimedOut]
| FinishDownload s o t :
    eq_str s "completed" = true ->
    download_shape job_id o t ->
    finish_shape job_id (Returned (Next (Some s))) o t.

Inductive async_shape (invoice_num : string) : outcome bool -> list event -> Prop :=
| AsyncSubmitRaised q r a e :
    url r = Jobs ->
    job_of a = None ->
    async_shape invoice_num (Returned false)
      [EvPrint (InfoTestingAsync invoice_num); EvRandInt 1 10 q; EvHttp r a;
       EvPrint (ErrAsyncFailed e)]
| AsyncSubmitRefused q r resp :
    url r = Jobs ->
    (status_code resp =? 202) = false ->
    async_shape invoice_num (Returned false)
      [EvPrint (InfoTestingAsync invoice_num); EvRandInt 1 10 q;
       EvHttp r (inr resp);
       EvPrint (ErrJobCreationFailed (status_code resp) (text resp))]
| AsyncPolled q r resp job_id polled tp o tail :
    url r = Jobs ->
    job_of (inr resp) = Some job_id ->
    poll_shape job_id (range 1 (max_attempts + 1)) None polled tp ->
    finish_shape job_id polled o tail ->
    async_shape invoice_num o
      (EvPrint (InfoTestingAsync invoice_num) :: EvRandInt 1 10 q
         :: EvHttp r (inr resp) :: EvPrint (InfoJobCreated job_id)
         :: tp ++ tail)
| AsyncRefusalUnprinted q r resp :
    url r = Jobs ->
    (status_code resp =? 202) = false ->
    plain (JString (text resp)) = false ->
    async_shape invoice_num (Returned false)
      [EvPrint (InfoTestingAsync invoice_num); EvRandInt 1 10 q;
       EvHttp r (inr resp);
       EvPrintFailed (ErrJobCreationFailed (status_code resp) (text resp));
       EvPrint (ErrAsyncFailed UnicodeEncodeError)]
| AsyncJobUnprinted q r resp job_id :
    url r = Jobs ->
    job_of (inr resp) = Some job_id ->
    plain job_id = false ->
    async_shape invoice_num (Returned false)
      [EvPrint (InfoTestingAsync invoice_num); EvRandInt 1 10 q;
       EvHttp r (inr resp); EvPrintFailed (InfoJobCreated job_id);
       EvPrint (ErrAsyncFailed UnicodeEncodeError)].

(** The handler of [test_async_generation]:
    [except Exception as e: print(...); return False]. *)
Definition on_exception (e : exn) : prog bool :=
  print (ErrAsyncFailed e) ;; Ret false.

(** No status fetch comes after a fetch that returned a terminal status. *)
Fixpoint halts_at_terminal (t : list event) : bool :=
  match t with
  | [] => true
  | ev :: rest =>
      (if is_terminal_fetch ev then (count is_status_fetch rest =? 0)%nat else true)
      && halts_at_terminal rest
  end.

(** ** Sample worlds *)

Definition reply (code : Z) (payload : option json) (data : list Byte.byte)
  : exn + response :=
  inr {| status_code := code; text := ""; content := data; json_body := payload |}.

(** A service that accepts every job, answers every status fetch with
    [status] and every download with [download_code]. *)
Definition service (status : json) (download_code : Z)
  (h : list event) (r : request) : exn + response :=
  match url r with
  | Health => reply 200 (Some (JObject [])) []
  | Generate => reply 200 None [Byte.x25; Byte.x50; Byte.x44; Byte.x46]
  | Jobs => reply 202 (Some (JObject [("job_id", JString "job-1")]%string)) []
  | Job _ => reply 200 (Some status) []
  | JobDownload _ => reply download_code None [Byte.x25; Byte.x50; Byte.x44; Byte.x46]
  end.

(** Nothing listens: every request raises. *)
Definition no_service (h : list event) (r : request) : exn + response :=
  inl (RequestException "connection refused").

(** A world around a service: the clock advances by one second per event,
    the disk never fails, standard output encodes everything. *)
Definition world (srv : list event -> request -> exn + response) : oracle :=
  {| random_of := fun _ lo _ => lo;
     clock_of := fun h => round_to_float (Z.of_nat (List.length h));
     reply_of := srv;
     mkdir_of := fun _ => None;
     write_of := fun _ _ _ => None;
     stdout_encodes := fun _ => true |}.

Definition status_is (word : string) : json := JObject [("status", JString word)]%string.

Definition failed_status : json :=
  JObject [("status", JString "failed");
           ("error", JObject [("message", JString "template not found")])]%string.

Definition stuck_world : oracle := world (service (status_is "processing") 200).
Definition failing_world : oracle := world (service failed_status 200).
Definition working_world : oracle := world (service (status_is "completed") 200).
Definition lost_artifact_world : oracle := world (service (status_is "completed") 404).
Definition dead_world : oracle := world no_service.

(** ** Reading a load run *)

(** The lifecycles of a load run whose loop starts at history [h]: each
    index with how its lifecycle ended, in the order the loop counts them,
    and the events of all of them. *)
Definition load_results (task : Z -> prog bool) (count parallel : Z)
  (env : oracle) (sched : list nat) (h : list event)
  : list (Z * outcome bool) * list event :=
  if 1 <? parallel then
    drain env h (run_ticks env h sched (submit_all parallel (calls_of task count)))
  else
    run_each env h (calls_of task count) [] [].

(** The division of [rate_of] raises: the duration is positive and the
    count does not convert to a float. *)
Definition overflows (count : Z) (duration : float) : bool :=
  (0 <? duration)%float && (float_limit <=? Z.abs count).

(** The rate [rate_of] gives when its division does not raise. *)
Definition rate_value (count : Z) (duration : float) : float :=
  if (0 <? duration)%float then (round_to_float count / duration)%float
  else 0%float.

(** The lines [test_load] ends with. *)
Definition report_lines (count : Z) (counts : Z * Z) (duration : float)
  (parallel : Z) : list event :=
  [EvPrint Blank; EvPrint InfoLoadCompleted; EvPrint (InfoTotal count);
   EvPrint (InfoSuccess (fst counts)); EvPrint (InfoFailed (snd counts));
   EvPrint (InfoDuration duration); EvPrint (InfoRate (rate_value count duration))]
  ++ (if 1 <? parallel then [EvPrint (InfoConcurrency parallel)] else []).

Definition mode_of (use_async : bool) : string :=
  if use_async then "async"%string else "sync"%string.

(** ** Reading a pool *)

(** The number of calls being executed. *)
Definition in_flight (pl : pool) : Z := Z.of_nat (List.length (running pl)).

(** The indices of the calls a pool holds, done or not. *)
Definition pool_indices (pl : pool) : list Z :=
  map fst (finished pl) ++ map fst (running pl ++ queue pl).

(** No call is left. *)
Definition all_done (pl : pool) : Prop := running pl = [] /\ queue pl = [].

(** The workers are never more than [max_workers], and a call waits in the
    queue only while every worker is busy. *)
Definition within_limit (pl : pool) : Prop :=
  in_flight pl <= max_workers pl
  /\ (queue pl <> [] -> in_flight pl = max_workers pl).

(** The outcomes of the lifecycles of the run [test_load_with task count
    parallel use_async] started at history [h], in the order counted. *)
Definition lifecycle_outcomes (task : Z -> prog bool) (count parallel : Z)
  (use_async : bool) (env : oracle) (sched : list nat) (h : list event)
  : list (Z * outcome bool) :=
  let line := EvPrint (InfoLoadStart count (mode_of use_async) parallel) in
  let t0 := clock_of env (h ++ [line]) in
  fst (load_results task count parallel env sched (h ++ [line; EvTime t0])).


(** A lifecycle that raises instead of returning. *)
Definition broken_task (i : Z) : prog bool :=
  if Z.even i then Raise (OSError "disk full") else test_sync_generation (format_04d i).

(** The exit status a test's result leads to: [sys.exit(0 if success else 1)],
    and 1 when the test raised. *)
Definition status_of_test (o : outcome bool) : Z :=
  match o with
  | Returned true => 0
  | _ => 1
  end.

(** The line [test_load] starts with. *)
Definition start_line (count parallel : Z) (use_async : bool) : event :=
  EvPrint (InfoLoadStart count (mode_of use_async) parallel).

(** ** More readings of a trace *)

Definition is_sleep (ev : event) : bool :=
  match ev with
  | EvSleep _ => true
  | _ => false
  end.

(** The seconds slept in a trace. *)
Fixpoint slept (t : list event) : Z :=
  match t with
  | [] => 0
  | EvSleep s :: rest => s + slept rest
  | _ :: rest => slept rest
  end.

Definition is_submission (ev : event) : bool :=
  match ev with
  | EvHttp r _ => match url r with Jobs => true | _ => false end
  | _ => false
  end.

(** Every status fetch comes right after a sleep of one second; [prev] is
    the event before the trace. *)
Fixpoint fetch_follows_sleep (prev : option event) (t : list event) : bool :=
  match t with
  | [] => true
  | ev :: rest =>
      (if is_status_fetch ev then
         match prev with
         | Some (EvSleep 1) => true
         | _ => false
         end
       else true)
      && fetch_follows_sleep (Some ev) rest
  end.

(** A status fetch that delivered a status other than [completed] and
    [failed], whatever the word. *)
Definition is_unfinished_fetch (ev : event) : bool :=
  match fetched_status ev with
  | Some s => negb (eq_str s "completed") && negb (eq_str s "failed")
  | None => false
  end.

(** A status fetch that delivered no status: the call raised, the reply
    was not a 200, or its body held no status. *)
Definition is_broken_fetch (ev : event) : bool :=
  match ev with
  | EvHttp r a =>
      is_status_fetch ev && match status_of a with Some _ => false | None => true end
  | _ => false
  end.

(** The attempt numbers of the status lines printed, in order. *)
Fixpoint status_attempts (t : list event) : list Z :=
  match t with
  | [] => []
  | EvPrint (InfoJobStatus _ attempt) :: rest => attempt :: status_attempts rest
  | _ :: rest => status_attempts rest
  end.

Definition sync_file (invoice_num : string) : string :=
  ("sync-invoice-" ++ invoice_num ++ ".pdf")%string.

Definition async_file (invoice_num : string) : string :=
  ("async-invoice-" ++ invoice_num ++ ".pdf")%string.

(** [int(s)] for a string of decimal digits. *)
Definition int_of_digits (s : string) : option Z :=
  match NilZero.uint_of_string s with
  | Some d => Some (Z.of_N (N.of_uint d))
  | None => None
  end.




(** After an event that satisfies [P] no event satisfies [Q]. *)
Fixpoint nothing_after (P Q : event -> bool) (t : list event) : bool :=
  match t with
  | [] => true
  | ev :: rest =>
      (if P ev then (count Q rest =? 0)%nat else true) && nothing_after P Q rest
  end.

(** Every file a program writes is [file]. *)
Fixpoint writes_to (A : Type) (file : string) (p : prog A) : Prop :=
  match p with
  | Ret _ => True
  | Raise _ => True
  | RandInt _ _ k => forall z, writes_to file (k z)
  | Sleep _ k => writes_to file k
  | Time k => forall t, writes_to file (k t)
  | Print _ k => forall a, writes_to file (k a)
  | Http _ k => forall a, writes_to file (k a)
  | Mkdir k => forall a, writes_to file (k a)
  | WriteBytes f _ k => f = file /\ forall a, writes_to file (k a)
  end.

Definition written_file (ev : event) : option string :=
  match ev with
  | EvWriteBytes file _ _ => Some file
  | _ => None
  end.




Definition rendering_world : oracle := world (service (status_is "rendering") 200).

(** The events of the sample asynchronous runs. *)
Definition working_trace : list event :=
  snd (exec working_world [] (test_async_generation "001")).



(** The histories at which [run_all_tests] starts its three tests. *)
Definition health_start (h : list event) : list event :=
  h ++ [EvPrint InfoRunningAll; EvPrint Blank].

Definition sync_start (env : oracle) (h : list event) : list event :=
  health_start h ++ snd (exec env (health_start h) test_health) ++ [EvPrint Blank].

Definition async_start (env : oracle) (h : list event) : list event :=
  sync_start env h
    ++ snd (exec env (sync_start env h) (test_sync_generation "sync-test"))
    ++ [EvPrint Blank].

(** The command line with its load count dropped. *)
Definition without_load (a : args) : args :=
  {| health := health a; sync := sync a; async_test := async_test a;
     load := None; parallel := parallel a; use_async := use_async a |}.

(** A service whose generate endpoint answers 500. *)
Definition service_without_generate (h : list event) (r : request)
  : exn + response :=
  match url r with
  | Generate => reply 500 None []
  | _ => service (status_is "completed") 200 h r
  end.

Definition generateless_world : oracle := world service_without_generate.

(** Every request raises: the service cannot be reached. *)
Definition unreachable (env : oracle) : Prop :=
  forall h r, exists e, reply_of env h r = inl e.

(** A program that cannot return [True] when every request it makes raises. *)
Fixpoint fails_unserved (p : prog bool) : Prop :=
  match p with
  | Ret b => b = false
  | Raise _ => True
  | RandInt _ _ k => forall z, fails_unserved (k z)
  | Sleep _ k => fails_unserved k
  | Time k => forall t, fails_unserved (k t)
  | Print _ k => forall a, fails_unserved (k a)
  | Http _ k => forall e, fails_unserved (k (inl e))
  | Mkdir k => forall a, fails_unserved (k a)
  | WriteBytes _ _ k => forall a, fails_unserved (k a)
  end.

(** The calls of a pool cannot succeed and its futures did not. *)
Definition pool_fails (pl : pool) : Prop :=
  Forall (fun c => fails_unserved (snd c)) (running pl ++ queue pl)
  /\ Forall (fun f => is_success (snd f) = false) (finished pl).




(** * Properties *)

(** ** Running programs *)

Lemma exec_bind (A B : Type) (env : oracle) (p : prog A) (f : A -> prog B) :
  forall h,
    exec env h (bind p f) =
    match fst (exec env h p) with
    | Returned a =>
        (fst (exec env (h ++ snd (exec env h p)) (f a)),
         snd (exec env h p) ++ snd (exec env (h ++ snd (exec env h p)) (f a)))
    | Raised e => (Raised e, snd (exec env h p))
    end.
Proof.
  induction p as [a | e | lo hi k IH | s k IH | k IH | m k IH | r k IH | k IH
                 | file data k IH]; intro h; cbn.
  - rewrite app_nil_r. destruct (exec env h (f a)); reflexivity.
  - reflexivity.
  - rewrite IH. destruct (fst (exec env _ (k _))); cbn;
      rewrite <- ?app_assoc; reflexivity.
  - rewrite IH. destruct (fst (exec env _ k)); cbn;
      rewrite <- ?app_assoc; reflexivity.
  - rewrite IH. destruct (fst (exec env _ (k _))); cbn;
      rewrite <- ?app_assoc; reflexivity.
  - rewrite IH. destruct (fst (exec env _ (k _))); cbn;
      rewrite <- ?app_assoc; reflexivity.
  - rewrite IH. destruct (fst (exec env _ (k _))); cbn;
      rewrite <- ?app_assoc; reflexivity.
  - rewrite IH. destruct (fst (exec env _ (k _))); cbn;
      rewrite <- ?app_assoc; reflexivity.
  - rewrite IH. destruct (fst (exec env _ (k _))); cbn;
      rewrite <- ?app_assoc; reflexivity.
Qed.

Lemma exec_try_except (A : Type) (env : oracle) (p : prog A) (handler : exn -> prog A) :
  forall h,
    exec env h (try_except p handler) =
    match fst (exec env h p) with
    | Returned a => (Returned a, snd (exec env h p))
    | Raised e =>
        (fst (exec env (h ++ snd (exec env h p)) (handler e)),
         snd (exec env h p) ++ snd (exec env (h ++ snd (exec env h p)) (handler e)))
    end.
Proof.
  induction p as [a | e | lo hi k IH | s k IH | k IH | m k IH | r k IH | k IH
                 | file data k IH]; intro h; cbn.
  - reflexivity.
  - rewrite app_nil_r. destruct (exec env h (handler e)); reflexivity.
  - rewrite IH. destruct (fst (exec env _ (k _))); cbn;
      rewrite <- ?app_assoc; reflexivity.
  - rewrite IH. destruct (fst (exec env _ k)); cbn;
      rewrite <- ?app_assoc; reflexivity.
  - rewrite IH. destruct (fst (exec env _ (k _))); cbn;
      rewrite <- ?app_assoc; reflexivity.
  - rewrite IH. destruct (fst (exec env _ (k _))); cbn;
      rewrite <- ?app_assoc; reflexivity.
  - rewrite IH. destruct (fst (exec env _ (k _))); cbn;
      rewrite <- ?app_assoc; reflexivity.
  - rewrite IH. destruct (fst (exec env _ (k _))); cbn;
      rewrite <- ?app_assoc; reflexivity.
  - rewrite IH. destruct (fst (exec env _ (k _))); cbn;
      rewrite <- ?app_assoc; reflexivity.
Qed.

(** Running to the end is moving until the program is over. *)
Lemma exec_step (A : Type) (env : oracle) (h : list event) (p : prog A) :
  exec env h p =
  match step env h p with
  | inl o => (o, [])
  | inr (ev, p') => after ev (exec env (h ++ [ev]) p')
  end.
Proof. destruct p; reflexivity. Qed.

Lemma exec_try_bind (A B : Type) (env : oracle) (p : prog A) (f : A -> prog B)
  (handler : exn -> prog B) :
  forall h,
    exec env h (try_except (bind p f) handler) =
    match fst (exec env h p) with
    | Returned a =>
        (fst (exec env (h ++ snd (exec env h p)) (try_except (f a) handler)),
         snd (exec env h p)
           ++ snd (exec env (h ++ snd (exec env h p)) (try_except (f a) handler)))
    | Raised e =>
        (fst (exec env (h ++ snd (exec env h p)) (handler e)),
         snd (exec env h p) ++ snd (exec env (h ++ snd (exec env h p)) (handler e)))
    end.
Proof.
  induction p as [a | e | lo hi k IH | s k IH | k IH | m k IH | r k IH | k IH
                 | file data k IH]; intro h; cbn.
  - rewrite app_nil_r. destruct (exec env h (try_except (f a) handler)); reflexivity.
  - rewrite app_nil_r. destruct (exec env h (handler e)); reflexivity.
  - rewrite IH. destruct (fst (exec env _ (k _))); cbn;
      rewrite <- ?app_assoc; reflexivity.
  - rewrite IH. destruct (fst (exec env _ k)); cbn;
      rewrite <- ?app_assoc; reflexivity.
  - rewrite IH. destruct (fst (exec env _ (k _))); cbn;
      rewrite <- ?app_assoc; reflexivity.
  - rewrite IH. destruct (fst (exec env _ (k _))); cbn;
      rewrite <- ?app_assoc; reflexivity.
  - rewrite IH. destruct (fst (exec env _ (k _))); cbn;
      rewrite <- ?app_assoc; reflexivity.
  - rewrite IH. destruct (fst (exec env _ (k _))); cbn;
      rewrite <- ?app_assoc; reflexivity.
  - rewrite IH. destruct (fst (exec env _ (k _))); cbn;
      rewrite <- ?app_assoc; reflexivity.
Qed.

(** ** The asynchronous lifecycle follows its shape *)

Ltac split_match :=
  match goal with
  | |- context [match ?x with _ => _ end] => destruct x eqn:?
  | |- context [if ?x then _ else _] => destruct x eqn:?
  end.

Ltac status_facts :=
  unfold status_of, job_of;
  repeat match goal with
         | H : _ = _ |- _ => rewrite H
         end;
  try reflexivity.

Lemma not_encoded (env : oracle) (v : json) :
  encodes env v = false -> plain v = false.
Proof. unfold encodes. intro H. apply orb_false_iff in H. apply H. Qed.

(** The two ways a [print] of a value of the service goes. *)
Ltac print_cases H :=
  unfold print_event, print_answer, printable; cbn [shown];
  match goal with
  | |- context [encodes ?env ?v] => destruct (encodes env v) eqn:H
  end; cbn.

Lemma poll_exec (env : oracle) (job_id : json) (attempts : list Z) :
  forall status h,
    poll_shape job_id attempts status
      (fst (exec env h (poll job_id attempts status)))
      (snd (exec env h (poll job_id attempts status))).
Proof.
  induction attempts as [| attempt rest IH]; intros status h.
  - constructor.
  - cbn [poll].
    unfold time_sleep, requests_get.
    cbn [bind exec after fst snd].
    fold (status_request job_id).
    destruct (reply_of env (h ++ [EvSleep 1]) (status_request job_id))
      as [e | resp] eqn:Hreply; cbn.
    { apply PollRaised. reflexivity. }
    destruct (status_code resp =? 200) eqn:Hcode; cbn.
    2: { print_cases Hshow.
         - apply PollRefused. exact Hcode.
         - apply PollRefusalUnprinted; [exact Hcode | exact (not_encoded _ _ Hshow)]. }
    unfold response_json.
    destruct (json_body resp) as [d |] eqn:Hbody; cbn.
    2: { apply PollRaised. status_facts. }
    destruct d as [| b | n | lx | str | items | members]; cbn;
      try (apply PollRaised; status_facts).
    destruct (lookup "status" members) as [s |] eqn:Hstatus; cbn.
    2: { apply PollRaised. status_facts. }
    print_cases Hshow.
    2: { apply PollStatusUnprinted; [status_facts | exact (not_encoded _ _ Hshow)]. }
    destruct (eq_str s "completed") eqn:Hdone; cbn.
    { apply PollCompleted; [status_facts | exact Hdone]. }
    destruct (eq_str s "failed") eqn:Hfailed; cbn.
    + destruct (lookup "error" members) as [err |]; cbn.
      * destruct err as [| b | n | lx | str | items | errm]; cbn;
          try (apply PollJobFailedOddly; [status_facts | assumption | assumption]).
        destruct (lookup "message" errm) as [reason |]; cbn.
        -- print_cases Hreason.
           ++ apply PollJobFailed; (status_facts || assumption).
           ++ apply PollReasonUnprinted;
                [status_facts | assumption | assumption
                | exact (not_encoded _ _ Hreason)].
        -- apply PollJobFailed; (status_facts || assumption).
      * apply PollJobFailed; (status_facts || assumption).
    + apply PollPending; [status_facts | assumption | assumption |].
      apply IH.
Qed.

Lemma download_exec (env : oracle) (invoice_num : string) (job_id : json) :
  forall h,
    download_shape job_id
      (fst (exec env h (try_except (download_result invoice_num job_id) on_exception)))
      (snd (exec env h (try_except (download_result invoice_num job_id) on_exception))).
Proof.
  intro h. unfold download_result, requests_get, mkdir_output_dir, write_bytes.
  cbn [bind try_except exec after fst snd].
  fold (download_request job_id).
  destruct (reply_of env h (download_request job_id)) as [e | resp]; cbn.
  { constructor. }
  destruct (status_code resp =? 200) eqn:Hcode; cbn.
  2: { print_cases Hshow.
       - apply DownloadRefused. exact Hcode.
       - apply DownloadRefusalUnprinted;
           [exact Hcode | exact (not_encoded _ _ Hshow)]. }
  destruct (mkdir_of env _) as [e |]; cbn.
  { constructor. exact Hcode. }
  destruct (write_of env _ _ _) as [e |]; cbn; constructor; exact Hcode.
Qed.

Lemma finish_exec (env : oracle) (invoice_num : string) (job_id : json)
  (polled : flow bool (option json)) :
  forall h,
    finish_shape job_id (Returned polled)
      (fst (exec env h (try_except (after_polling invoice_num job_id polled) on_exception)))
      (snd (exec env h (try_except (after_polling invoice_num job_id polled) on_exception))).
Proof.
  intro h. destruct polled as [r | [s |]]; cbn.
  - constructor.
  - destruct (eq_str s "completed") eqn:Hdone.
    + cbn [negb]. apply FinishDownload; [exact Hdone | apply download_exec].
    + cbn. constructor. exact Hdone.
  - constructor.
Qed.

Ltac run :=
  cbn [raise_or_return raise_if_failed bind try_except exec after fst snd
       print print_event print_answer printable shown negb subscript].

Lemma async_exec (env : oracle) (invoice_num : string) :
  forall h,
    async_shape invoice_num
      (fst (exec env h (test_async_generation invoice_num)))
      (snd (exec env h (test_async_generation invoice_num))).
Proof.
  intro h.
  unfold test_async_generation, generate_invoice_data, random_randint, requests_post.
  run.
  match goal with
  | |- context [reply_of env ?h1 ?r] =>
      set (r0 := r); destruct (reply_of env h1 r0) as [e | resp] eqn:Hreply
  end; run.
  { apply AsyncSubmitRaised; reflexivity. }
  destruct (status_code resp =? 202) eqn:Hcode; run.
  2: { print_cases Hshow.
       - apply AsyncSubmitRefused; [reflexivity | exact Hcode].
       - apply AsyncRefusalUnprinted;
           [reflexivity | exact Hcode | exact (not_encoded _ _ Hshow)]. }
  unfold response_json.
  destruct (json_body resp) as [d |] eqn:Hbody; run.
  2: { apply AsyncSubmitRaised; [reflexivity | status_facts]. }
  destruct d as [| b | n | lx | str | items | members]; run;
    try (apply AsyncSubmitRaised; [reflexivity | status_facts]).
  destruct (lookup "job_id" members) as [job_id |] eqn:Hjob; run.
  2: { apply AsyncSubmitRaised; [reflexivity | status_facts]. }
  unfold print_event, print_answer, printable; cbn [shown].
  destruct (encodes env job_id) eqn:Hshow; run.
  2: { apply AsyncJobUnprinted;
         [reflexivity | status_facts | exact (not_encoded _ _ Hshow)]. }
  rewrite exec_try_bind.
  match goal with
  | |- context [exec env ?h1 (poll job_id ?atts None)] =>
      pose proof (poll_exec env job_id atts None h1) as Hpoll;
      destruct (exec env h1 (poll job_id atts None)) as [polled tp] eqn:Hrun
  end.
  cbn [fst snd] in Hpoll |- *.
  destruct polled as [fl | e]; cbn [fst snd].
  - eapply AsyncPolled; [reflexivity | status_facts | exact Hpoll |].
    apply finish_exec.
  - eapply AsyncPolled; [reflexivity | status_facts | exact Hpoll |].
    cbn. constructor.
Qed.

(** ** Counting in traces *)

Lemma count_app (f : event -> bool) (a b : list event) :
  count f (a ++ b) = (count f a + count f b)%nat.
Proof. unfold count. rewrite filter_app, length_app. reflexivity. Qed.

Lemma count_cons (f : event -> bool) (ev : event) (t : list event) :
  count f (ev :: t) = ((if f ev then 1 else 0) + count f t)%nat.
Proof. unfold count. cbn. destruct (f ev); reflexivity. Qed.

Lemma count_nil (f : event -> bool) : count f [] = 0%nat.
Proof. reflexivity. Qed.

Lemma count_zero_not_in (f : event -> bool) (t : list event) (ev : event) :
  count f t = 0%nat -> In ev t -> f ev = false.
Proof.
  induction t as [| x t IH]; intros Hc Hin; [contradiction |].
  rewrite count_cons in Hc. destruct Hin as [-> | Hin].
  - destruct (f ev); [discriminate | reflexivity].
  - apply IH; [lia | exact Hin].
Qed.

Lemma count_le_length (f : event -> bool) (t : list event) :
  (count f t <= List.length t)%nat.
Proof. unfold count. apply filter_length_le. Qed.

Lemma halts_at_terminal_app (a b : list event) :
  halts_at_terminal a = true ->
  halts_at_terminal b = true ->
  count is_status_fetch b = 0%nat ->
  halts_at_terminal (a ++ b) = true.
Proof.
  intros Ha Hb Hz. induction a as [| ev a IH]; [exact Hb |].
  cbn in Ha |- *. apply andb_true_iff in Ha. destruct Ha as [Hev Ha].
  apply andb_true_iff. split; [| apply IH; exact Ha].
  destruct (is_terminal_fetch ev); [| reflexivity].
  rewrite count_app, Hz. rewrite Nat.add_0_r. exact Hev.
Qed.

Lemma halts_at_terminal_spec (t : list event) :
  halts_at_terminal t = true ->
  forall pre ev post,
    t = pre ++ ev :: post ->
    is_terminal_fetch ev = true ->
    count is_status_fetch post = 0%nat.
Proof.
  intros Hh pre. revert t Hh.
  induction pre as [| x pre IH]; intros t Hh ev post -> Hterm.
  - cbn in Hh. rewrite Hterm in Hh. apply andb_true_iff in Hh.
    destruct Hh as [Hz _]. apply Nat.eqb_eq. exact Hz.
  - cbn in Hh. apply andb_true_iff in Hh. destruct Hh as [_ Hh].
    eapply IH; [exact Hh | reflexivity | exact Hterm].
Qed.

(** ** Statuses *)

Lemma eq_str_true (s : json) (word : string) :
  eq_str s word = true -> s = JString word.
Proof.
  destruct s; cbn; try discriminate.
  intro H. apply String.eqb_eq in H. subst. reflexivity.
Qed.

Lemma reports_status (word : string) (job_id : json) (a : exn + response) (s : json) :
  status_of a = Some s ->
  reports word (EvHttp (status_request job_id) a) = eq_str s word.
Proof. intro H. unfold reports, fetched_status. cbn. rewrite H. reflexivity. Qed.

Lemma reports_nothing (word : string) (job_id : json) (a : exn + response) :
  status_of a = None ->
  reports word (EvHttp (status_request job_id) a) = false.
Proof. intro H. unfold reports, fetched_status. cbn. rewrite H. reflexivity. Qed.

Lemma status_of_refused (resp : response) :
  (status_code resp =? 200) = false -> status_of (inr resp) = None.
Proof. intro H. cbn. rewrite H. reflexivity. Qed.

Lemma terminal_status (job_id : json) (a : exn + response) (s : json) :
  status_of a = Some s ->
  is_terminal_fetch (EvHttp (status_request job_id) a)
  = eq_str s "completed" || eq_str s "failed".
Proof.
  intro H. unfold is_terminal_fetch. rewrite !(reports_status _ _ _ H). reflexivity.
Qed.

Lemma pending_status (job_id : json) (a : exn + response) (s : json) :
  status_of a = Some s ->
  is_pending_fetch (EvHttp (status_request job_id) a)
  = eq_str s "queued" || eq_str s "processing".
Proof.
  intro H. unfold is_pending_fetch. rewrite !(reports_status _ _ _ H). reflexivity.
Qed.

Lemma pending_not_terminal (s : json) :
  eq_str s "queued" || eq_str s "processing" = true ->
  eq_str s "completed" = false /\ eq_str s "failed" = false.
Proof.
  intro H. apply orb_true_iff in H.
  destruct H as [H | H]; apply eq_str_true in H; subst; split; reflexivity.
Qed.

Lemma pending_is_plain (s : json) :
  eq_str s "queued" || eq_str s "processing" = true -> plain s = true.
Proof.
  intro H. apply orb_true_iff in H.
  destruct H as [H | H]; apply eq_str_true in H; subst; reflexivity.
Qed.

Lemma terminal_is_plain (s : json) :
  eq_str s "completed" || eq_str s "failed" = true -> plain s = true.
Proof.
  intro H. apply orb_true_iff in H.
  destruct H as [H | H]; apply eq_str_true in H; subst; reflexivity.
Qed.

Lemma terminal_not_pending (s : json) :
  eq_str s "completed" || eq_str s "failed" = true ->
  eq_str s "queued" || eq_str s "processing" = false.
Proof.
  intro H. apply orb_true_iff in H.
  destruct H as [H | H]; apply eq_str_true in H; subst; reflexivity.
Qed.

(** ** What the polling loop does *)

Section Polling.
Variable job_id : json.

Ltac fetch_counts :=
  repeat (rewrite count_cons); rewrite ?count_nil; cbn.

Lemma poll_fetches_le attempts status o t :
  poll_shape job_id attempts status o t ->
  (count is_status_fetch t <= List.length attempts)%nat.
Proof. induction 1; fetch_counts; lia. Qed.

Lemma poll_no_download attempts status o t :
  poll_shape job_id attempts status o t ->
  count is_download t = 0%nat.
Proof. induction 1; fetch_counts; lia. Qed.

Lemma poll_halts attempts status o t :
  poll_shape job_id attempts status o t ->
  halts_at_terminal t = true.
Proof.
  induction 1; cbn [halts_at_terminal];
    repeat match goal with
           | |- context [is_terminal_fetch (EvHttp (status_request _) ?a)] =>
               first [ erewrite (terminal_status job_id a) by eassumption
                     | unfold is_terminal_fetch;
                       rewrite !reports_nothing
                         by (assumption || (apply status_of_refused; assumption)) ]
           end;
    repeat match goal with
           | H : eq_str _ _ = _ |- _ => rewrite H
           end;
    repeat match goal with
           | |- context [eq_str ?s ?w] => destruct (eq_str s w)
           end;
    cbn; auto.
Qed.

Lemma poll_pending_le attempts status o t :
  poll_shape job_id attempts status o t ->
  (count is_pending_fetch t <= count is_status_fetch t)%nat.
Proof.
  induction 1; fetch_counts;
    repeat match goal with
           | |- context [is_pending_fetch ?ev] => destruct (is_pending_fetch ev)
           end; lia.
Qed.

(** Every attempt made and every answer pending: the loop runs out, its
    last status not [completed]. *)
Lemma poll_all_pending attempts status o t :
  poll_shape job_id attempts status o t ->
  count is_pending_fetch t = List.length attempts ->
  attempts <> [] ->
  exists s, o = Returned (Next (Some s)) /\ eq_str s "completed" = false.
Proof.
  induction 1 as [status | attempt rest status resp s o t Hs Hc Hf Hrest IH
                 | attempt rest status resp s Hs Hc
                 | attempt rest status resp s reason Hs Hc Hf
                 | attempt rest status resp s Hs Hc Hf
                 | attempt rest status resp Hcode
                 | attempt rest status a e Ha
                 | attempt rest status resp Hcode Hplain
                 | attempt rest status resp s Hs Hplain
                 | attempt rest status resp s reason Hs Hc Hf Hplain];
    intros Hcount Hne.
  - congruence.
  - revert Hcount. fetch_counts. rewrite (pending_status job_id _ Hs).
    pose proof (poll_pending_le Hrest) as Hle1.
    pose proof (poll_fetches_le Hrest) as Hle2.
    destruct (eq_str s "queued" || eq_str s "processing") eqn:Hp;
      intro Hcount; [| lia].
    destruct rest as [| a2 rest].
    + inversion Hrest; subst. exists s. split; [reflexivity | exact Hc].
    + apply IH; [lia | discriminate].
  - revert Hcount. fetch_counts. rewrite (pending_status job_id _ Hs).
    rewrite terminal_not_pending by (rewrite Hc; reflexivity).
    cbn. lia.
  - revert Hcount. fetch_counts. rewrite (pending_status job_id _ Hs).
    rewrite terminal_not_pending by (rewrite Hf; apply orb_true_r).
    cbn. lia.
  - revert Hcount. fetch_counts. rewrite (pending_status job_id _ Hs).
    rewrite terminal_not_pending by (rewrite Hf; apply orb_true_r).
    cbn. lia.
  - revert Hcount. fetch_counts. unfold is_pending_fetch.
    rewrite !reports_nothing by (apply status_of_refused; assumption).
    cbn. lia.
  - revert Hcount. fetch_counts. unfold is_pending_fetch.
    rewrite !reports_nothing by assumption.
    cbn. lia.
  - revert Hcount. fetch_counts. unfold is_pending_fetch.
    rewrite !reports_nothing by (apply status_of_refused; assumption).
    cbn. lia.
  - revert Hcount. fetch_counts. rewrite (pending_status job_id _ Hs).
    destruct (eq_str s "queued" || eq_str s "processing") eqn:Hp; [| cbn; lia].
    apply pending_is_plain in Hp. congruence.
  - revert Hcount. fetch_counts. rewrite (pending_status job_id _ Hs).
    rewrite terminal_not_pending by (rewrite Hf; apply orb_true_r).
    cbn. lia.
Qed.
End Polling.

Section PollingOutcomes.
Variable job_id : json.

Lemma poll_returns_false attempts status r t :
  poll_shape job_id attempts status (Returned (Return r)) t -> r = false.
Proof.
  intro H. remember (Returned (Return r)) as o eqn:Ho.
  induction H; try discriminate; auto; congruence.
Qed.

Lemma poll_never_prints_timeout attempts status o t :
  poll_shape job_id attempts status o t ->
  ~ In (EvPrint ErrJobTimedOut) t.
Proof.
  induction 1; cbn; intro Hin;
    repeat match goal with
           | H : _ \/ _ |- _ => destruct H
           | H : False |- _ => contradiction
           | H : _ = EvPrint ErrJobTimedOut |- _ => discriminate H
           end;
    auto.
Qed.

Lemma reports_only_fetch (word : string) (ev : event) :
  reports word ev = true -> is_status_fetch ev = true.
Proof.
  unfold reports, fetched_status. destruct ev; try discriminate.
  destruct (is_status_fetch (EvHttp r answer)); [reflexivity | discriminate].
Qed.


(** When the first fetch returns [failed] it is also the only one. *)
Lemma poll_first_failed attempts status o t ev :
  poll_shape job_id attempts status o t ->
  find is_status_fetch t = Some ev ->
  reports "failed" ev = true ->
  (o = Returned (Return false) \/ o = Raised AttributeError
   \/ o = Raised UnicodeEncodeError)
  /\ count is_status_fetch t = 1%nat.
Proof.
  intros Hshape Hfind Hrep.
  destruct Hshape as [status | attempt rest status resp s o t Hs Hc Hf Hrest
                     | attempt rest status resp s Hs Hc
                     | attempt rest status resp s reason Hs Hc Hf
                     | attempt rest status resp s Hs Hc Hf
                     | attempt rest status resp Hcode
                     | attempt rest status a e Ha
                 | attempt rest status resp Hcode Hplain
                 | attempt rest status resp s Hs Hplain
                 | attempt rest status resp s reason Hs Hc Hf Hplain];
    cbn in Hfind; try discriminate; injection Hfind as <-.
  - rewrite (reports_status _ _ _ Hs) in Hrep. congruence.
  - rewrite (reports_status _ _ _ Hs) in Hrep.
    apply eq_str_true in Hc. subst s. discriminate Hrep.
  - split; [left; reflexivity | reflexivity].
  - split; [right; left; reflexivity | reflexivity].
  - rewrite reports_nothing in Hrep
      by (apply status_of_refused; assumption).
    discriminate.
  - rewrite reports_nothing in Hrep by assumption. discriminate.
  - rewrite reports_nothing in Hrep
      by (apply status_of_refused; assumption).
    discriminate.
  - split; [right; right; reflexivity | reflexivity].
  - split; [right; right; reflexivity | reflexivity].
Qed.

(** With every answer pending no failure reason is printed. *)
Lemma poll_all_pending_quiet attempts status o t :
  poll_shape job_id attempts status o t ->
  count is_pending_fetch t = List.length attempts ->
  forall reason, ~ In (EvPrint (ErrJobFailed reason)) t.
Proof.
  induction 1 as [status | attempt rest status resp s o t Hs Hc Hf Hrest IH
                 | attempt rest status resp s Hs Hc
                 | attempt rest status resp s reason Hs Hc Hf
                 | attempt rest status resp s Hs Hc Hf
                 | attempt rest status resp Hcode
                 | attempt rest status a e Ha
                 | attempt rest status resp Hcode Hplain
                 | attempt rest status resp s Hs Hplain
                 | attempt rest status resp s reason Hs Hc Hf Hplain];
    intros Hcount reason' Hin.
  - contradiction.
  - revert Hcount. repeat rewrite count_cons. cbn.
    pose proof (poll_pending_le Hrest) as Hle1.
    pose proof (poll_fetches_le Hrest) as Hle2.
    intro Hcount.
    destruct Hin as [Hin | [Hin | [Hin | Hin]]]; try discriminate Hin.
    apply (IH ltac:(destruct (is_pending_fetch _); lia) reason' Hin).
  - destruct Hin as [Hin | [Hin | [Hin | []]]]; discriminate Hin.
  - revert Hcount. repeat rewrite count_cons. rewrite count_nil. cbn.
    rewrite (pending_status job_id _ Hs).
    rewrite terminal_not_pending by (rewrite Hf; apply orb_true_r).
    lia.
  - destruct Hin as [Hin | [Hin | [Hin | []]]]; discriminate Hin.
  - destruct Hin as [Hin | [Hin | [Hin | []]]]; discriminate Hin.
  - destruct Hin as [Hin | [Hin | []]]; discriminate Hin.
  - destruct Hin as [Hin | [Hin | [Hin | []]]]; discriminate Hin.
  - destruct Hin as [Hin | [Hin | [Hin | []]]]; discriminate Hin.
  - destruct Hin as [Hin | [Hin | [Hin | [Hin | []]]]]; discriminate Hin.
Qed.
End PollingOutcomes.

(** ** After the loop *)

Lemma download_counts (job_id : json) (o : outcome bool) (t : list event) :
  download_shape job_id o t ->
  count is_status_fetch t = 0%nat /\ count is_download t = 1%nat.
Proof. destruct 1; split; reflexivity. Qed.

Lemma finish_counts (job_id : json) polled (o : outcome bool) (t : list event) :
  finish_shape job_id polled o t ->
  count is_status_fetch t = 0%nat /\ (count is_download t <= 1)%nat.
Proof.
  destruct 1 as [e | r | | s Hs | s o t Hs Hd]; try (split; cbn; lia).
  destruct (download_counts Hd) as [H1 H2]. lia.
Qed.

Lemma finish_halts (job_id : json) polled (o : outcome bool) (t : list event) :
  finish_shape job_id polled o t -> halts_at_terminal t = true.
Proof.
  destruct 1 as [e | r | | s Hs | s o t Hs Hd]; try reflexivity.
  destruct Hd; reflexivity.
Qed.

Lemma find_app_event (f : event -> bool) (a b : list event) :
  find f (a ++ b) = match find f a with
                    | Some x => Some x
                    | None => find f b
                    end.
Proof.
  induction a as [| x a IH]; [reflexivity |].
  cbn. destruct (f x); [reflexivity | exact IH].
Qed.

Lemma find_none_count (f : event -> bool) (t : list event) :
  count f t = 0%nat -> find f t = None.
Proof.
  induction t as [| x t IH]; [reflexivity |].
  rewrite count_cons. cbn. destruct (f x); [discriminate |].
  intro H. apply IH. exact H.
Qed.

Lemma saved_download_not_refused (job_id : json) (t : list event) (ev : event) :
  download_shape job_id (Returned true) t ->
  In ev t -> is_refused_download ev = false.
Proof.
  intro H. inversion H as [| | | | resp file Hcode |]; subst.
  intros [<- | [<- | [<- | [<- | []]]]]; try reflexivity.
  cbn. rewrite Hcode. reflexivity.
Qed.

Lemma refused_is_download (ev : event) :
  is_refused_download ev = true -> is_download ev = true.
Proof.
  destruct ev as [| | | | r [e | resp] | | |]; try discriminate.
  unfold is_refused_download. intro H. apply andb_true_iff in H. tauto.
Qed.

Lemma async_outcome_is_returned (invoice_num : string) o t :
  async_shape invoice_num o t -> exists b, o = Returned b.
Proof.
  destruct 1 as [q r a e Hu Hj | q r resp Hu Hc
                | q r resp job_id polled tp o tail Hu Hj Hp Hf
                | q r resp Hu Hc Hplain | q r resp job_id Hu Hj Hplain];
    try (eexists; reflexivity).
  destruct Hf as [e | b | | s Hs | s o t Hs Hd]; try (eexists; reflexivity).
  destruct Hd; eexists; reflexivity.
Qed.

(** ** The asynchronous lifecycle *)

Lemma attempts_length : List.length (range 1 (max_attempts + 1)) = 30%nat.
Proof. reflexivity. Qed.

Lemma jobs_not_fetch (r : request) :
  url r = Jobs ->
  forall a : exn + response,
  is_status_fetch (EvHttp r a) = false /\ is_download (EvHttp r a) = false
  /\ is_terminal_fetch (EvHttp r a) = false
  /\ is_pending_fetch (EvHttp r a) = false
  /\ is_refused_download (EvHttp r a) = false
  /\ forall word, reports word (EvHttp r a) = false.
Proof.
  intros H a.
  unfold is_terminal_fetch, is_pending_fetch, reports, fetched_status,
    is_refused_download, is_status_fetch, is_download.
  rewrite H. repeat split; try reflexivity. destruct a; reflexivity.
Qed.

Ltac skip_submission Hu :=
  match type of Hu with
  | url ?r = Jobs =>
      match goal with
      | |- context [EvHttp r ?a] =>
          destruct (@jobs_not_fetch r Hu a) as (Hn1 & Hn2 & Hn3 & Hn4 & Hn5 & Hn6)
      end
  end.

Lemma pending_le_fetches (t : list event) :
  (count is_pending_fetch t <= count is_status_fetch t)%nat.
Proof.
  induction t as [| x t IH]; [reflexivity |].
  rewrite !count_cons.
  destruct (is_pending_fetch x) eqn:Hx; [| lia].
  unfold is_pending_fetch in Hx. apply orb_true_iff in Hx.
  destruct Hx as [Hx | Hx]; apply reports_only_fetch in Hx; rewrite Hx; lia.
Qed.

(** A lifecycle whose thirty fetches were all answered [queued] or
    [processing] returns [False] right after printing that the job timed
    out, and prints no failure reason. *)
Lemma async_timed_out (invoice_num : string) (o : outcome bool) (t : list event) :
  async_shape invoice_num o t ->
  count is_pending_fetch t = 30%nat ->
  o = Returned false
  /\ last t (EvSleep 0) = EvPrint ErrJobTimedOut
  /\ forall reason, ~ In (EvPrint (ErrJobFailed reason)) t.
Proof.
  destruct 1 as [q r a e Hu Hj | q r resp Hu Hc
                | q r resp job_id polled tp o tail Hu Hj Hp Hf
       | q r resp Hu Hc Hplain | q r resp job_id Hu Hj Hplain];
    skip_submission Hu.
  - repeat rewrite count_cons. rewrite Hn4. cbn. discriminate.
  - repeat rewrite count_cons. rewrite Hn4. cbn. discriminate.
  - repeat rewrite count_cons. rewrite count_app, Hn4. cbn. intro Hcount.
    destruct (finish_counts Hf) as [Hz _].
    pose proof (pending_le_fetches tail) as Htail.
    pose proof (pending_le_fetches tp) as Hple.
    pose proof (poll_fetches_le Hp) as Hle. rewrite attempts_length in Hle.
    assert (Hall : count is_pending_fetch tp
                   = List.length (range 1 (max_attempts + 1))).
    { rewrite attempts_length. lia. }
    destruct (poll_all_pending Hp Hall) as (s & -> & Hs).
    { intro Hnil. pose proof attempts_length as Hl. rewrite Hnil in Hl.
      discriminate Hl. }
    pose proof (poll_all_pending_quiet Hp Hall) as Hquiet.
    inversion Hf as [| | | s' Hs' | s' o' t' Hs' Hd]; subst; [| congruence].
    split; [reflexivity |]. split.
    + change (last ([EvPrint (InfoTestingAsync invoice_num); EvRandInt 1 10 q;
                     EvHttp r (inr resp); EvPrint (InfoJobCreated job_id)]
                      ++ tp ++ [EvPrint ErrJobTimedOut]) (EvSleep 0)
              = EvPrint ErrJobTimedOut).
      rewrite app_assoc. apply last_last.
    + intros reason [Hin | [Hin | [Hin | [Hin | Hin]]]]; try discriminate Hin.
      apply in_app_or in Hin. destruct Hin as [Hin | [Hin | []]].
      * exact (Hquiet reason Hin).
      * discriminate Hin.
  - repeat rewrite count_cons. rewrite Hn4. cbn. discriminate.
  - repeat rewrite count_cons. rewrite Hn4. cbn. discriminate.
Qed.

(** C2. The poller makes at most 30 status fetches; after a fetch that
    returned [completed] or [failed] no further status fetch occurs; and a
    lifecycle whose 30 fetches all returned [queued] or [processing] ends,
    returning [False]. *)
Theorem polling_is_bounded_and_halts (env : oracle) (h : list event)
  (invoice_num : string) :
  let r := exec env h (test_async_generation invoice_num) in
  (count is_status_fetch (snd r) <= 30)%nat
  /\ (forall pre ev post,
         snd r = pre ++ ev :: post ->
         is_terminal_fetch ev = true ->
         count is_status_fetch post = 0%nat)
  /\ (count is_pending_fetch (snd r) = 30%nat -> fst r = Returned false).
Proof.
  cbv zeta.
  destruct (async_exec env invoice_num h)
    as [q r a e Hu Hj | q r resp Hu Hc
       | q r resp job_id polled tp o tail Hu Hj Hp Hf
       | q r resp Hu Hc Hplain | q r resp job_id Hu Hj Hplain];
    skip_submission Hu.
  - split; [| split].
    + repeat rewrite count_cons. rewrite Hn1. cbn. lia.
    + apply halts_at_terminal_spec. cbn. rewrite Hn3. reflexivity.
    + reflexivity.
  - split; [| split].
    + repeat rewrite count_cons. rewrite Hn1. cbn. lia.
    + apply halts_at_terminal_spec. cbn. rewrite Hn3. reflexivity.
    + reflexivity.
  - pose proof (poll_fetches_le Hp) as Hle. rewrite attempts_length in Hle.
    destruct (finish_counts Hf) as [Hz _].
    split; [| split].
    + repeat rewrite count_cons. rewrite count_app, Hn1, Hz. cbn. lia.
    + apply halts_at_terminal_spec. cbn. rewrite Hn3. cbn.
      apply halts_at_terminal_app;
        [exact (poll_halts Hp) | exact (finish_halts Hf) | exact Hz].
    + intro Hcount.
      exact (proj1 (async_timed_out (@AsyncPolled invoice_num q r resp job_id polled tp o tail Hu Hj Hp Hf) Hcount)).
  - split; [| split].
    + repeat rewrite count_cons. rewrite Hn1. cbn. lia.
    + apply halts_at_terminal_spec. cbn. rewrite Hn3. reflexivity.
    + reflexivity.
  - split; [| split].
    + repeat rewrite count_cons. rewrite Hn1. cbn. lia.
    + apply halts_at_terminal_spec. cbn. rewrite Hn3. reflexivity.
    + reflexivity.
Qed.

Lemma polling_is_bounded_and_halts_witness :
  count is_pending_fetch (snd (exec stuck_world [] (test_async_generation "001"))) = 30%nat
  /\ fst (exec stuck_world [] (test_async_generation "001")) = Returned false.
Proof.
  split.
  - vm_compute. reflexivity.
  - apply (polling_is_bounded_and_halts stuck_world [] "001").
    vm_compute. reflexivity.
Defined.

(** C6. When the first status fetch of a lifecycle returns [failed], the
    lifecycle returns [False] having made exactly one status fetch and no
    download call. *)
Theorem failed_on_first_fetch (env : oracle) (h : list event)
  (invoice_num : string) (ev : event) :
  let r := exec env h (test_async_generation invoice_num) in
  find is_status_fetch (snd r) = Some ev ->
  reports "failed" ev = true ->
  fst r = Returned false
  /\ count is_status_fetch (snd r) = 1%nat
  /\ count is_download (snd r) = 0%nat.
Proof.
  cbv zeta.
  destruct (async_exec env invoice_num h)
    as [q r a e Hu Hj | q r resp Hu Hc
       | q r resp job_id polled tp o tail Hu Hj Hp Hf
       | q r resp Hu Hc Hplain | q r resp job_id Hu Hj Hplain];
    skip_submission Hu; intros Hfind Hrep;
    cbn in Hfind; rewrite Hu in Hfind; cbn in Hfind; try discriminate.
  rewrite find_app_event in Hfind.
  destruct (finish_counts Hf) as [Hz Hd1].
  destruct (find is_status_fetch tp) as [ev' |] eqn:Hfirst.
  2: { rewrite (find_none_count _ _ Hz) in Hfind. discriminate. }
  injection Hfind as ->.
  destruct (poll_first_failed Hp Hfirst Hrep) as [Hend Hone].
  pose proof (poll_no_download Hp) as Hnd.
  assert (Hout : o = Returned false /\ count is_download tail = 0%nat).
  { destruct Hend as [-> | [-> | ->]];
      inversion Hf; subst; split; reflexivity. }
  destruct Hout as [-> Hd0].
  split; [reflexivity |].
  repeat rewrite count_cons. rewrite !count_app, Hn1, Hn2. cbn. lia.
Qed.

Lemma failed_on_first_fetch_witness :
  fst (exec failing_world [] (test_async_generation "001")) = Returned false
  /\ count is_status_fetch (snd (exec failing_world [] (test_async_generation "001"))) = 1%nat
  /\ count is_download (snd (exec failing_world [] (test_async_generation "001"))) = 0%nat.
Proof.
  apply (@failed_on_first_fetch failing_world [] "001"
           (EvHttp (status_request (JString "job-1")) (reply 200 (Some failed_status) []))).
  - vm_compute. reflexivity.
  - vm_compute. reflexivity.
Defined.

(** C7. A lifecycle whose download call is answered with a status other
    than 200 returns [False], whatever the polling returned. *)
Theorem refused_download_is_failure (env : oracle) (h : list event)
  (invoice_num : string) (ev : event) :
  let r := exec env h (test_async_generation invoice_num) in
  In ev (snd r) ->
  is_refused_download ev = true ->
  fst r = Returned false.
Proof.
  cbv zeta.
  pose proof (async_exec env invoice_num h) as Hshape.
  destruct (async_outcome_is_returned Hshape) as [b Hb].
  intros Hin Href. rewrite Hb. destruct b; [exfalso | reflexivity].
  rewrite Hb in Hshape.
  remember (Returned true) as o eqn:Ho.
  destruct Hshape as [q r a e Hu Hj | q r resp Hu Hc
                     | q r resp job_id polled tp o tail Hu Hj Hp Hf
       | q r resp Hu Hc Hplain | q r resp job_id Hu Hj Hplain];
    try discriminate Ho.
  destruct (@jobs_not_fetch r Hu (inr resp)) as (Hn1 & Hn2 & Hn3 & Hn4 & Hn5 & Hn6).
  destruct Hin as [<- | [<- | [<- | [<- | Hin]]]]; try discriminate Href.
  { rewrite Hn5 in Href. discriminate. }
  apply in_app_or in Hin. destruct Hin as [Hin | Hin].
  - apply refused_is_download in Href.
    rewrite (count_zero_not_in _ _ _ (poll_no_download Hp) Hin) in Href.
    discriminate.
  - subst o. inversion Hf as [| r' | | | s o' t' Hs Hd]; subst.
    + pose proof (poll_returns_false Hp). discriminate.
    + rewrite (@saved_download_not_refused _ _ _ Hd Hin) in Href. discriminate.
Qed.

Lemma refused_download_is_failure_witness :
  fst (exec lost_artifact_world [] (test_async_generation "001")) = Returned false.
Proof.
  apply (@refused_download_is_failure lost_artifact_world [] "001"
           (EvHttp (download_request (JString "job-1"))
                   (reply 404 None [Byte.x25; Byte.x50; Byte.x44; Byte.x46]))).
  - vm_compute. auto 10.
  - vm_compute. reflexivity.
Defined.




(** ** Counting outcomes *)

Lemma exec_count_one (env : oracle) (h : list event) (p : prog bool) (c : Z * Z) :
  exec env h (count_one p c)
  = (Returned (tally c (fst (exec env h p))), snd (exec env h p)).
Proof.
  unfold count_one. destruct c as [s f]. rewrite exec_try_bind.
  destruct (fst (exec env h p)) as [[|] | e]; cbn; rewrite app_nil_r; reflexivity.
Qed.

Lemma exec_future_result (env : oracle) (h : list event) (o : outcome bool) :
  exec env h (future_result o) = (o, []).
Proof. destruct o; reflexivity. Qed.

Lemma run_each_from (env : oracle) (calls : list (Z * prog bool)) :
  forall h0 done tr,
    run_each env h0 calls done tr
    = (done ++ fst (run_each env (h0 ++ tr) calls [] []),
       tr ++ snd (run_each env (h0 ++ tr) calls [] [])).
Proof.
  induction calls as [| [i p] rest IH]; intros h0 done tr; cbn.
  - rewrite !app_nil_r. reflexivity.
  - rewrite app_nil_r.
    rewrite (IH h0 (done ++ [(i, fst (exec env (h0 ++ tr) p))])).
    rewrite (IH (h0 ++ tr) [(i, fst (exec env (h0 ++ tr) p))]
                (snd (exec env (h0 ++ tr) p))).
    cbn. rewrite <- !app_assoc. reflexivity.
Qed.

Lemma exec_sequential_loop (env : oracle) (task : Z -> prog bool) (indices : list Z) :
  forall h c,
    exec env h (sequential_loop task indices c)
    = (Returned (fold_left tally
                   (map snd (fst (run_each env h (map (fun i => (i, task i)) indices) [] [])))
                   c),
       snd (run_each env h (map (fun i => (i, task i)) indices) [] [])).
Proof.
  induction indices as [| i rest IH]; intros h c; [reflexivity |].
  cbn [sequential_loop map run_each].
  rewrite exec_bind, exec_count_one. cbn [fst snd].
  rewrite IH. rewrite app_nil_r.
  rewrite (run_each_from env _ h [(i, fst (exec env h (task i)))]).
  cbn. reflexivity.
Qed.

Lemma exec_completed_loop (env : oracle) (futures : list (Z * outcome bool)) :
  forall h c,
    exec env h (completed_loop futures c)
    = (Returned (fold_left tally (map snd futures) c), []).
Proof.
  induction futures as [| [i o] rest IH]; intros h c; [reflexivity |].
  cbn [completed_loop map fold_left].
  rewrite exec_bind, exec_count_one, exec_future_result. cbn [fst snd].
  rewrite IH. reflexivity.
Qed.

Lemma tally_total (os : list (outcome bool)) :
  forall c,
    fst (fold_left tally os c) + snd (fold_left tally os c)
    = fst c + snd c + Z.of_nat (List.length os).
Proof.
  induction os as [| o os IH]; intro c; cbn [fold_left List.length].
  - lia.
  - rewrite IH. destruct o as [[|] | e]; cbn; lia.
Qed.

(** Each outcome moves exactly one counter by one: [True] the first, a
    [False] or an exception the second. *)
Lemma tally_counts (os : list (outcome bool)) :
  forall c,
    fold_left tally os c
    = (fst c + Z.of_nat (List.length (filter is_success os)),
       snd c + Z.of_nat (List.length (filter (fun o => negb (is_success o)) os))).
Proof.
  induction os as [| o os IH]; intro c; cbn [fold_left filter].
  - destruct c. cbn. f_equal; lia.
  - rewrite IH. destruct o as [[|] | e]; cbn [tally is_success negb fst snd List.length];
      f_equal; lia.
Qed.

Lemma filter_length_permutation (A : Type) (f : A -> bool) (l l' : list A) :
  Permutation l l' -> List.length (filter f l) = List.length (filter f l').
Proof.
  induction 1 as [| x l l' HP IH | x y l | l l' l'' HP1 IH1 HP2 IH2]; cbn.
  - reflexivity.
  - destruct (f x); cbn; congruence.
  - destruct (f x), (f y); reflexivity.
  - congruence.
Qed.

(** The counters do not depend on the order the outcomes are counted in. *)
Lemma tally_permutation (os os' : list (outcome bool)) (c : Z * Z) :
  Permutation os os' -> fold_left tally os c = fold_left tally os' c.
Proof.
  intro HP. rewrite !tally_counts.
  rewrite (filter_length_permutation is_success HP).
  rewrite (filter_length_permutation (fun o => negb (is_success o)) HP).
  reflexivity.
Qed.

(** ** The load run as a whole *)

Lemma run_bind_eq (A B : Type) (m : Run A) (f : A -> Run B) (env : oracle)
  (sched : list nat) (h : list event) (a : A) (t : list event) :
  m env sched h = (Returned a, t) ->
  run_bind m f env sched h
  = (fst (f a env sched (h ++ t)), t ++ snd (f a env sched (h ++ t))).
Proof. intro H. unfold run_bind. rewrite H. reflexivity. Qed.

Lemma load_loop_eq (task : Z -> prog bool) (count parallel : Z) (env : oracle)
  (sched : list nat) (h : list event) :
  (if 1 <? parallel then
     (futures <- as_completed parallel
                   (map (fun i => (i, task i)) (range 1 (count + 1))) ;;
      lift (completed_loop futures (0, 0)))%run
   else lift (sequential_loop task (range 1 (count + 1)) (0, 0))) env sched h
  = (Returned (fold_left tally
                 (map snd (fst (load_results task count parallel env sched h))) (0, 0)),
     snd (load_results task count parallel env sched h)).
Proof.
  unfold load_results, calls_of. destruct (1 <? parallel).
  - erewrite run_bind_eq by reflexivity.
    unfold lift. rewrite exec_completed_loop. cbn [fst snd].
    rewrite app_nil_r. reflexivity.
  - unfold lift. apply exec_sequential_loop.
Qed.

Lemma run_bind_raised (A B : Type) (m : Run A) (f : A -> Run B) (env : oracle)
  (sched : list nat) (h : list event) (e : exn) (t : list event) :
  m env sched h = (Raised e, t) ->
  run_bind m f env sched h = (Raised e, t).
Proof. intro H. unfold run_bind. rewrite H. reflexivity. Qed.

(** ** The rate *)

Lemma positive_not_zero (d : float) :
  (0 <? d)%float = true -> (d =? 0)%float = false.
Proof.
  rewrite FloatAxioms.ltb_spec, FloatAxioms.eqb_spec. unfold SFltb, SFeqb.
  replace (Prim2SF 0) with (S754_zero false) by reflexivity.
  destruct (Prim2SF d) as [s | s | | s m e]; cbn; try discriminate; try reflexivity.
  - destruct s; cbn; try discriminate; reflexivity.
  - destruct s; cbn; try discriminate; reflexivity.
Qed.

Lemma exec_rate_of (env : oracle) (h : list event) (count : Z) (duration : float) :
  exec env h (rate_of count duration)
  = (if overflows count duration then Raised OverflowError
     else Returned (rate_value count duration), []).
Proof.
  unfold rate_of, rate_value, overflows, true_divide, float_of_int.
  destruct (0 <? duration)%float eqn:Hd; cbn [andb]; [| reflexivity].
  rewrite Z.leb_antisym.
  destruct (Z.abs count <? float_limit); cbn [negb bind exec]; [| reflexivity].
  rewrite (positive_not_zero Hd). reflexivity.
Qed.

Lemma overflows_small (count : Z) (duration : float) :
  Z.abs count < float_limit -> overflows count duration = false.
Proof.
  intro H. unfold overflows. apply Z.leb_gt in H. rewrite H. apply andb_false_r.
Qed.

Lemma float_limit_large : 1000000 < float_limit.
Proof. reflexivity. Qed.

Lemma test_load_with_unfold (task : Z -> prog bool) (count parallel : Z)
  (use_async : bool) (env : oracle) (sched : list nat) (h : list event) :
  let line := EvPrint (InfoLoadStart count (mode_of use_async) parallel) in
  let t0 := clock_of env (h ++ [line]) in
  let res := load_results task count parallel env sched (h ++ [line; EvTime t0]) in
  let counts := fold_left tally (map snd (fst res)) (0, 0) in
  let t1 := clock_of env (h ++ line :: EvTime t0 :: snd res) in
  test_load_with task count parallel use_async env sched h
  = if overflows count (t1 - t0)%float then
      (Raised OverflowError, line :: EvTime t0 :: snd res ++ [EvTime t1])
    else
      (Returned tt,
       line :: EvTime t0
         :: snd res ++ EvTime t1 :: report_lines count counts (t1 - t0)%float parallel).
Proof.
  cbv zeta. unfold test_load_with.
  set (line := EvPrint (InfoLoadStart count (mode_of use_async) parallel)).
  set (t0 := clock_of env (h ++ [line])).
  rewrite (@run_bind_eq _ _ _ _ env sched h tt [line]) by reflexivity.
  rewrite (@run_bind_eq _ _ _ _ env sched (h ++ [line]) t0 [EvTime t0])
    by reflexivity.
  rewrite <- app_assoc. cbn [app].
  set (h2 := h ++ [line; EvTime t0]).
  erewrite run_bind_eq by apply load_loop_eq.
  set (res := load_results task count parallel env sched h2).
  set (t1 := clock_of env (h2 ++ snd res)).
  rewrite (@run_bind_eq _ _ _ _ env sched (h2 ++ snd res) t1 [EvTime t1])
    by reflexivity.
  assert (Ht1 : clock_of env (h ++ line :: EvTime t0 :: snd res) = t1).
  { unfold t1, h2. rewrite <- app_assoc. reflexivity. }
  rewrite Ht1.
  destruct (overflows count (t1 - t0)%float) eqn:Hover.
  - erewrite run_bind_raised
      by (unfold lift; rewrite exec_rate_of, Hover; reflexivity).
    cbn [fst snd]. rewrite app_nil_r. reflexivity.
  - erewrite run_bind_eq
      by (unfold lift; rewrite exec_rate_of, Hover; reflexivity).
    unfold lift, report_lines.
    destruct (1 <? parallel); cbn; reflexivity.
Qed.

(** ** The thread pool *)

Lemma nth_error_parts (A : Type) (l : list A) (n : nat) (x : A) :
  nth_error l n = Some x ->
  exists l1 l2,
    l = l1 ++ x :: l2 /\ remove_nth n l = l1 ++ l2
    /\ (forall y, replace_nth n y l = l1 ++ y :: l2).
Proof.
  intro H. destruct (nth_error_split l n H) as (l1 & l2 & -> & Hlen).
  exists l1, l2. unfold remove_nth, replace_nth. subst n.
  rewrite firstn_app, firstn_all, Nat.sub_diag. cbn [firstn].
  rewrite app_nil_r.
  assert (Hskip : skipn (S (List.length l1)) (l1 ++ x :: l2) = l2).
  { rewrite skipn_app. rewrite skipn_all2 by lia.
    replace (S (List.length l1) - List.length l1)%nat with 1%nat by lia.
    reflexivity. }
  rewrite Hskip. repeat split; reflexivity.
Qed.

Lemma dispatch_keeps_calls (pl : pool) :
  running (dispatch pl) ++ queue (dispatch pl) = running pl ++ queue pl.
Proof.
  unfold dispatch. cbn. rewrite <- app_assoc, firstn_skipn. reflexivity.
Qed.

Lemma dispatch_within_limit (pl : pool) :
  in_flight pl <= max_workers pl -> within_limit (dispatch pl).
Proof.
  unfold within_limit, in_flight, dispatch. cbn. intro Hle.
  set (free := Z.to_nat (max_workers pl - Z.of_nat (List.length (running pl)))).
  rewrite length_app, length_firstn.
  split.
  - lia.
  - intro Hq.
    assert (Hlen : (free < List.length (queue pl))%nat).
    { destruct (le_lt_dec (List.length (queue pl)) free) as [Hge | Hlt];
        [| exact Hlt].
      rewrite skipn_all2 in Hq by exact Hge. contradiction. }
    lia.
Qed.

Lemma submit_within_limit (pl : pool) (call : Z * prog bool) :
  within_limit pl -> within_limit (submit pl call).
Proof. intros [Hle _]. apply dispatch_within_limit. exact Hle. Qed.

Lemma tick_within_limit (env : oracle) (h0 : list event) (pl : pool) (w : nat) :
  within_limit pl -> within_limit (tick env h0 pl w).
Proof.
  intros [Hle Hq]. unfold tick.
  destruct (nth_error (running pl) w) as [[i p] |] eqn:Hw; [| split; assumption].
  destruct (nth_error_parts _ _ Hw) as (l1 & l2 & Hrun & Hrem & Hrep).
  destruct (step env (h0 ++ trace pl) p) as [o | [ev p']].
  - apply dispatch_within_limit. unfold in_flight in *. cbn.
    rewrite Hrem. rewrite Hrun in Hle. rewrite length_app in *. cbn in Hle. lia.
  - unfold within_limit, in_flight in *. cbn. rewrite Hrep.
    rewrite Hrun in Hle, Hq. rewrite length_app in *. cbn in *. split; assumption.
Qed.

Lemma tick_max_workers (env : oracle) (h0 : list event) (pl : pool) (w : nat) :
  max_workers (tick env h0 pl w) = max_workers pl.
Proof.
  unfold tick. destruct (nth_error (running pl) w) as [[i p] |]; [| reflexivity].
  destruct (step env (h0 ++ trace pl) p) as [o | [ev p']]; reflexivity.
Qed.

Lemma submit_all_facts (workers : Z) (calls : list (Z * prog bool)) :
  0 <= workers ->
  let pl := submit_all workers calls in
  max_workers pl = workers /\ within_limit pl
  /\ finished pl = [] /\ trace pl = []
  /\ running pl ++ queue pl = calls.
Proof.
  intro Hw. unfold submit_all.
  assert (Hgen : forall pl,
             within_limit pl ->
             let pl' := fold_left submit calls pl in
             max_workers pl' = max_workers pl /\ within_limit pl'
             /\ finished pl' = finished pl /\ trace pl' = trace pl
             /\ running pl' ++ queue pl' = (running pl ++ queue pl) ++ calls).
  { induction calls as [| c calls IH]; intros pl Hin; cbn.
    - rewrite app_nil_r. repeat split; try reflexivity; apply Hin.
    - destruct (IH (submit pl c) (submit_within_limit c Hin))
        as (H1 & H2 & H3 & H4 & H5).
      repeat split; try assumption.
      + apply H2.
      + apply H2.
      + rewrite H5. unfold submit. rewrite dispatch_keeps_calls. cbn.
        rewrite <- !app_assoc. reflexivity. }
  apply (Hgen (new_pool workers)).
  unfold within_limit, in_flight. cbn. split; [lia | congruence].
Qed.

Lemma run_ticks_facts (env : oracle) (h0 : list event) (sched : list nat) :
  forall pl,
    within_limit pl ->
    within_limit (run_ticks env h0 sched pl)
    /\ max_workers (run_ticks env h0 sched pl) = max_workers pl.
Proof.
  unfold run_ticks.
  induction sched as [| w sched IH]; intros pl Hin; cbn.
  - split; [exact Hin | reflexivity].
  - destruct (IH (tick env h0 pl w) (tick_within_limit env h0 w Hin)) as [H1 H2].
    split; [exact H1 |]. rewrite H2. apply tick_max_workers.
Qed.

(** Ticks move calls from running to finished and keep every index. *)
Lemma tick_indices (env : oracle) (h0 : list event) (pl : pool) (w : nat) :
  Permutation (pool_indices (tick env h0 pl w)) (pool_indices pl).
Proof.
  unfold tick.
  destruct (nth_error (running pl) w) as [[i p] |] eqn:Hw; [| reflexivity].
  destruct (nth_error_parts _ _ Hw) as (l1 & l2 & Hrun & Hrem & Hrep).
  destruct (step env (h0 ++ trace pl) p) as [o | [ev p']].
  - unfold pool_indices. rewrite dispatch_keeps_calls. cbn.
    rewrite Hrem, Hrun. rewrite !map_app. cbn. rewrite <- !app_assoc. cbn.
    apply Permutation_app_head.
    apply Permutation_middle.
  - unfold pool_indices. cbn. rewrite Hrep, Hrun. rewrite !map_app. cbn.
    reflexivity.
Qed.

Lemma run_ticks_indices (env : oracle) (h0 : list event) (sched : list nat) :
  forall pl,
    Permutation (pool_indices (run_ticks env h0 sched pl)) (pool_indices pl).
Proof.
  unfold run_ticks.
  induction sched as [| w sched IH]; intro pl; cbn; [reflexivity |].
  rewrite IH. apply tick_indices.
Qed.

Lemma run_each_indices (env : oracle) (calls : list (Z * prog bool)) :
  forall h0 done tr,
    map fst (fst (run_each env h0 calls done tr)) = map fst done ++ map fst calls.
Proof.
  induction calls as [| [i p] rest IH]; intros h0 done tr; cbn.
  - rewrite app_nil_r. reflexivity.
  - rewrite IH. rewrite map_app. cbn. rewrite <- app_assoc. reflexivity.
Qed.

Lemma drain_indices (env : oracle) (h0 : list event) (pl : pool) :
  map fst (fst (drain env h0 pl)) = pool_indices pl.
Proof. unfold drain, pool_indices. apply run_each_indices. Qed.

Lemma calls_of_indices (task : Z -> prog bool) (count : Z) :
  map fst (calls_of task count) = range 1 (count + 1).
Proof.
  unfold calls_of. rewrite map_map. cbn. apply map_id.
Qed.

(** Every lifecycle of a load run is counted once: the indices of the
    outcomes are those submitted, in some order. *)
Lemma load_results_indices (task : Z -> prog bool) (count parallel : Z)
  (env : oracle) (sched : list nat) (h : list event) :
  Permutation (map fst (fst (load_results task count parallel env sched h)))
              (range 1 (count + 1)).
Proof.
  unfold load_results. destruct (1 <? parallel) eqn:Hpar.
  - rewrite drain_indices, run_ticks_indices.
    apply Z.ltb_lt in Hpar.
    destruct (@submit_all_facts parallel (calls_of task count) ltac:(lia))
      as (_ & _ & Hfin & _ & Hcalls).
    unfold pool_indices. rewrite Hfin, Hcalls. cbn.
    rewrite calls_of_indices. reflexivity.
  - rewrite run_each_indices. cbn. rewrite calls_of_indices. reflexivity.
Qed.

Lemma range_length (lo hi : Z) : List.length (range lo hi) = Z.to_nat (hi - lo).
Proof. unfold range. rewrite length_map, length_seq. reflexivity. Qed.

Lemma load_results_length (task : Z -> prog bool) (count parallel : Z)
  (env : oracle) (sched : list nat) (h : list event) :
  0 <= count ->
  Z.of_nat (List.length (fst (load_results task count parallel env sched h))) = count.
Proof.
  intro Hc.
  rewrite <- (length_map fst).
  rewrite (Permutation_length (load_results_indices task count parallel env sched h)).
  rewrite range_length. lia.
Qed.

(** ** What a load run reports *)

Lemma last_some_app (A B : Type) (f : A -> option B) (a b : list A) :
  last_some f (a ++ b)
  = match last_some f b with
    | Some x => Some x
    | None => last_some f a
    end.
Proof.
  induction a as [| x a IH]; cbn.
  - destruct (last_some f b); reflexivity.
  - rewrite IH. destruct (last_some f b); reflexivity.
Qed.

Lemma reported_of_run (a b c : event) (mid : list event) (count : Z)
  (counts : Z * Z) (duration : float) (parallel : Z) :
  let t := a :: b :: mid ++ c :: report_lines count counts duration parallel in
  reported_success t = Some (fst counts)
  /\ reported_failed t = Some (snd counts)
  /\ reported_rate t = Some (rate_value count duration).
Proof.
  cbv zeta.
  replace (a :: b :: mid ++ c :: report_lines count counts duration parallel)
    with ((a :: b :: mid ++ [c]) ++ report_lines count counts duration parallel)
    by (cbn; rewrite <- app_assoc; reflexivity).
  unfold reported_success, reported_failed, reported_rate.
  rewrite !last_some_app. unfold report_lines.
  destruct (1 <? parallel); cbn; repeat split; reflexivity.
Qed.

Lemma lifecycle_outcomes_total (task : Z -> prog bool) (count parallel : Z)
  (use_async : bool) (env : oracle) (sched : list nat) (h : list event) :
  0 <= count ->
  let counts := fold_left tally
                  (map snd (lifecycle_outcomes task count parallel use_async env sched h))
                  (0, 0) in
  fst counts + snd counts = count.
Proof.
  intro Hc. cbv zeta. rewrite tally_total. rewrite length_map.
  unfold lifecycle_outcomes. rewrite load_results_length by exact Hc. cbn. lia.
Qed.

(** The division of the rate raises only for a count Python cannot
    convert to a float. *)
Lemma overflows_large (count : Z) (duration : float) :
  overflows count duration = true -> float_limit <= Z.abs count.
Proof.
  unfold overflows. intro H. apply andb_true_iff in H.
  apply Z.leb_le. apply H.
Qed.

Lemma test_load_with_ends (task : Z -> prog bool) (count parallel : Z)
  (use_async : bool) (env : oracle) (sched : list nat) (h : list event) :
  let r := test_load_with task count parallel use_async env sched h in
  (fst r = Returned tt
   /\ reported_success (snd r)
      = Some (fst (fold_left tally
                     (map snd (lifecycle_outcomes task count parallel use_async
                                 env sched h)) (0, 0)))
   /\ reported_failed (snd r)
      = Some (snd (fold_left tally
                     (map snd (lifecycle_outcomes task count parallel use_async
                                 env sched h)) (0, 0))))
  \/ (float_limit <= Z.abs count /\ fst r = Raised OverflowError).
Proof.
  cbv zeta. rewrite test_load_with_unfold.
  match goal with
  | |- context [if overflows ?c ?d then _ else _] =>
      destruct (overflows c d) eqn:Hover
  end; cbn [fst snd].
  - right. split; [exact (overflows_large _ _ Hover) | reflexivity].
  - left. split; [reflexivity |].
    match goal with
    | |- context [?a :: ?b :: ?mid ++ ?c :: report_lines count ?cs ?d parallel] =>
        destruct (reported_of_run a b c mid count cs d parallel) as (H1 & H2 & _)
    end.
    split; assumption.
Qed.




(** C9. A load run of [count] lifecycles reports counts that add up to
    [count] and the rate [count / duration], the binary64 quotient of the
    count converted to a float by the duration, where [duration] is the
    clock read after the lifecycles minus the clock read before them, when
    that is positive (and 0 otherwise). *)
Theorem load_rate_is_count_over_duration (task : Z -> prog bool)
  (count parallel : Z) (use_async : bool) (env : oracle) (sched : list nat)
  (h : list event) :
  0 <= count ->
  count < float_limit ->
  let r := test_load_with task count parallel use_async env sched h in
  exists t0 t1 mid success failed,
    fst r = Returned tt
    /\ snd r = EvPrint (InfoLoadStart count (mode_of use_async) parallel)
                 :: EvTime t0
                 :: mid ++ EvTime t1
                 :: report_lines count (success, failed) (t1 - t0)%float parallel
    /\ mid = snd (load_results task count parallel env sched
                    (h ++ [EvPrint (InfoLoadStart count (mode_of use_async) parallel);
                           EvTime t0]))
    /\ success + failed = count
    /\ reported_rate (snd r) = Some (rate_value count (t1 - t0)%float)
    /\ ((0 <? t1 - t0)%float = true ->
        rate_value count (t1 - t0)%float
        = (round_to_float count / (t1 - t0))%float)
    /\ ((0 <? t1 - t0)%float = false -> rate_value count (t1 - t0)%float = 0%float).
Proof.
  intros Hc Hsmall. cbv zeta. rewrite test_load_with_unfold.
  rewrite overflows_small by lia. cbn [fst snd].
  match goal with
  | |- context [?a :: EvTime ?t0 :: ?mid ++ EvTime ?t1 :: report_lines count ?cs ?d parallel] =>
      exists t0, t1, mid, (fst cs), (snd cs);
      destruct (reported_of_run a (EvTime t0) (EvTime t1) mid count cs d parallel)
        as (_ & _ & H3);
      set (d0 := d) in *
  end.
  split; [reflexivity |].
  split; [rewrite <- surjective_pairing; reflexivity |].
  split; [reflexivity |].
  split; [exact (@lifecycle_outcomes_total task count parallel use_async env sched h Hc) |].
  split; [exact H3 |].
  unfold rate_value. split; intros ->; reflexivity.
Qed.

Lemma load_rate_is_count_over_duration_witness :
  round_to_float 50 = 50%float
  /\ reported_rate
       (snd (test_load 50 5 false working_world [0; 1; 2; 3; 4; 4; 3; 2; 1; 0]%nat []))
     = Some (50 / 301)%float
  /\ (50 / 301)%float = 0.16611295681063123%float
  /\ exists t0 t1 mid success failed,
       snd (test_load 50 5 false working_world [0; 1; 2; 3; 4; 4; 3; 2; 1; 0]%nat [])
       = EvPrint (InfoLoadStart 50 "sync" 5)
           :: EvTime t0
           :: mid ++ EvTime t1 :: report_lines 50 (success, failed) (t1 - t0)%float 5
       /\ success + failed = 50
       /\ reported_rate
            (snd (test_load 50 5 false working_world [0; 1; 2; 3; 4; 4; 3; 2; 1; 0]%nat []))
          = Some (rate_value 50 (t1 - t0)%float).
Proof.
  split; [reflexivity |].
  split; [vm_compute; reflexivity |].
  split; [vm_compute; reflexivity |].
  pose proof float_limit_large as Hlarge.
  destruct (@load_rate_is_count_over_duration (generate_one false) 50 5 false
              working_world [0; 1; 2; 3; 4; 4; 3; 2; 1; 0]%nat []
              ltac:(lia) ltac:(lia))
    as (t0 & t1 & mid & success & failed & _ & H1 & _ & H2 & H3 & _).
  exists t0, t1, mid, success, failed. repeat split; assumption.
Defined.

(** ** Schedules *)

Lemma run_ticks_app (env : oracle) (h0 : list event) (s1 s2 : list nat) (pl : pool) :
  run_ticks env h0 (s1 ++ s2) pl = run_ticks env h0 s2 (run_ticks env h0 s1 pl).
Proof. unfold run_ticks. apply fold_left_app. Qed.

(** Moving the first worker does not change what draining the pool gives. *)
Lemma drain_tick_first (env : oracle) (h0 : list event) (pl : pool) :
  drain env h0 (tick env h0 pl 0) = drain env h0 pl.
Proof.
  unfold tick. destruct (running pl) as [| [i p] rs] eqn:Hrun; cbn [nth_error].
  { reflexivity. }
  unfold drain at 2. rewrite Hrun. cbn [app run_each].
  rewrite (exec_step env (h0 ++ trace pl) p).
  destruct (step env (h0 ++ trace pl) p) as [o | [ev p']].
  - unfold drain. rewrite dispatch_keeps_calls. cbn. rewrite app_nil_r. reflexivity.
  - unfold drain. cbn. rewrite <- !app_assoc. reflexivity.
Qed.

(** With one worker the schedule does not matter. *)
Lemma one_worker_drain (env : oracle) (h0 : list event) (sched : list nat) :
  forall pl,
    max_workers pl = 1 ->
    within_limit pl ->
    drain env h0 (run_ticks env h0 sched pl) = drain env h0 pl.
Proof.
  induction sched as [| w sched IH]; intros pl Hone Hin; [reflexivity |].
  change (run_ticks env h0 (w :: sched) pl)
    with (run_ticks env h0 sched (tick env h0 pl w)).
  rewrite IH.
  - destruct w as [| w]; [apply drain_tick_first |].
    unfold tick.
    destruct (nth_error (running pl) (S w)) as [c |] eqn:Hw; [| reflexivity].
    assert (Hlt : (S w < List.length (running pl))%nat).
    { apply nth_error_Some. rewrite Hw. discriminate. }
    destruct Hin as [Hle _]. unfold in_flight in Hle. lia.
  - rewrite tick_max_workers. exact Hone.
  - apply tick_within_limit. exact Hin.
Qed.

Lemma one_worker_is_sequential (env : oracle) (h0 : list event) (sched : list nat)
  (calls : list (Z * prog bool)) :
  drain env h0 (run_ticks env h0 sched (submit_all 1 calls))
  = run_each env h0 calls [] [].
Proof.
  destruct (@submit_all_facts 1 calls ltac:(lia)) as (Hmax & Hin & Hfin & Htr & Hcalls).
  rewrite one_worker_drain by assumption.
  unfold drain. rewrite Hfin, Htr, Hcalls. reflexivity.
Qed.

Lemma run_ticks_cons (env : oracle) (h0 : list event) (w : nat) (s : list nat)
  (pl : pool) :
  run_ticks env h0 (w :: s) pl = run_ticks env h0 s (tick env h0 pl w).
Proof. reflexivity. Qed.

Lemma tick_first_moves (env : oracle) (h0 : list event) (workers : Z) (i : Z)
  (rs q : list (Z * prog bool)) (fin : list (Z * outcome bool)) (p p' : prog bool)
  (tr : list event) (ev : event) :
  step env (h0 ++ tr) p = inr (ev, p') ->
  tick env h0 {| max_workers := workers; queue := q; running := (i, p) :: rs;
                 finished := fin; trace := tr |} 0
  = {| max_workers := workers; queue := q; running := (i, p') :: rs;
       finished := fin; trace := tr ++ [ev] |}.
Proof. intro H. unfold tick. cbn. rewrite H. reflexivity. Qed.

Lemma tick_first_ends (env : oracle) (h0 : list event) (workers : Z) (i : Z)
  (rs q : list (Z * prog bool)) (fin : list (Z * outcome bool)) (p : prog bool)
  (tr : list event) (o : outcome bool) :
  step env (h0 ++ tr) p = inl o ->
  tick env h0 {| max_workers := workers; queue := q; running := (i, p) :: rs;
                 finished := fin; trace := tr |} 0
  = dispatch {| max_workers := workers; queue := q; running := rs;
             finished := fin ++ [(i, o)]; trace := tr |}.
Proof. intro H. unfold tick. cbn. rewrite H. reflexivity. Qed.

(** The first worker's call can be moved to its end. *)
Lemma finish_first (env : oracle) (h0 : list event) (workers : Z) (i : Z)
  (rs q : list (Z * prog bool)) (fin : list (Z * outcome bool)) (p : prog bool) :
  forall tr,
  exists n,
    run_ticks env h0 (repeat 0%nat n)
      {| max_workers := workers; queue := q; running := (i, p) :: rs;
         finished := fin; trace := tr |}
    = dispatch {| max_workers := workers; queue := q; running := rs;
               finished := fin ++ [(i, fst (exec env (h0 ++ tr) p))];
               trace := tr ++ snd (exec env (h0 ++ tr) p) |}.
Proof.
  induction p as [a | e | lo hi k IH | s k IH | k IH | m k IH | r k IH | k IH
                 | file data k IH]; intro tr;
    try (exists 1%nat; cbn [repeat]; rewrite run_ticks_cons;
         erewrite tick_first_ends by reflexivity;
         cbn; rewrite app_nil_r; reflexivity).
  - destruct (IH (clamp lo hi (random_of env (h0 ++ tr) lo hi))
                 (tr ++ [EvRandInt lo hi (clamp lo hi (random_of env (h0 ++ tr) lo hi))]))
      as [n Hn].
    exists (S n). cbn [repeat]. rewrite run_ticks_cons.
    erewrite tick_first_moves by reflexivity.
    rewrite Hn. cbn [exec after fst snd]. rewrite <- !app_assoc. reflexivity.
  - destruct (IH (tr ++ [EvSleep s])) as [n Hn].
    exists (S n). cbn [repeat]. rewrite run_ticks_cons.
    erewrite tick_first_moves by reflexivity.
    rewrite Hn. cbn [exec after fst snd]. rewrite <- !app_assoc. reflexivity.
  - destruct (IH (clock_of env (h0 ++ tr)) (tr ++ [EvTime (clock_of env (h0 ++ tr))]))
      as [n Hn].
    exists (S n). cbn [repeat]. rewrite run_ticks_cons.
    erewrite tick_first_moves by reflexivity.
    rewrite Hn. cbn [exec after fst snd]. rewrite <- !app_assoc. reflexivity.
  - destruct (IH (print_answer env m) (tr ++ [print_event env m])) as [n Hn].
    exists (S n). cbn [repeat]. rewrite run_ticks_cons.
    erewrite tick_first_moves by reflexivity.
    rewrite Hn. cbn [exec after fst snd]. rewrite <- !app_assoc. reflexivity.
  - destruct (IH (reply_of env (h0 ++ tr) r)
                 (tr ++ [EvHttp r (reply_of env (h0 ++ tr) r)])) as [n Hn].
    exists (S n). cbn [repeat]. rewrite run_ticks_cons.
    erewrite tick_first_moves by reflexivity.
    rewrite Hn. cbn [exec after fst snd]. rewrite <- !app_assoc. reflexivity.
  - destruct (IH (mkdir_of env (h0 ++ tr)) (tr ++ [EvMkdir (mkdir_of env (h0 ++ tr))]))
      as [n Hn].
    exists (S n). cbn [repeat]. rewrite run_ticks_cons.
    erewrite tick_first_moves by reflexivity.
    rewrite Hn. cbn [exec after fst snd]. rewrite <- !app_assoc. reflexivity.
  - destruct (IH (write_of env (h0 ++ tr) file data)
                 (tr ++ [EvWriteBytes file data (write_of env (h0 ++ tr) file data)]))
      as [n Hn].
    exists (S n). cbn [repeat]. rewrite run_ticks_cons.
    erewrite tick_first_moves by reflexivity.
    rewrite Hn. cbn [exec after fst snd]. rewrite <- !app_assoc. reflexivity.
Qed.

(** Draining is itself a schedule: some further ticks leave no call and
    give the futures and events [drain] gives. *)
Lemma drain_is_schedule (env : oracle) (h0 : list event) (calls : list (Z * prog bool)) :
  forall pl,
    running pl ++ queue pl = calls ->
    within_limit pl ->
    1 <= max_workers pl ->
    exists rest,
      all_done (run_ticks env h0 rest pl)
      /\ finished (run_ticks env h0 rest pl) = fst (drain env h0 pl)
      /\ trace (run_ticks env h0 rest pl) = snd (drain env h0 pl).
Proof.
  induction calls as [| c calls IH]; intros pl Hcalls Hin Hmax.
  - apply app_eq_nil in Hcalls. destruct Hcalls as [Hr Hq].
    exists []. unfold drain. rewrite Hr, Hq. cbn.
    repeat split; assumption.
  - destruct pl as [mw q rn fin tr]. cbn in *.
    destruct rn as [| [i p] rs].
    { exfalso. destruct Hin as [_ Hfull]. unfold in_flight in Hfull. cbn in *.
      subst q. specialize (Hfull ltac:(discriminate)). lia. }
    cbn in Hcalls. injection Hcalls as Hc Hrest.
    destruct (finish_first env h0 mw i rs q fin p tr) as [n Hn].
    set (pl1 := dispatch {| max_workers := mw; queue := q; running := rs;
                         finished := fin ++ [(i, fst (exec env (h0 ++ tr) p))];
                         trace := tr ++ snd (exec env (h0 ++ tr) p) |}) in *.
    assert (Hin1 : within_limit pl1).
    { apply dispatch_within_limit. destruct Hin as [Hle _].
      unfold in_flight in *. cbn in *. lia. }
    destruct (IH pl1) as (rest & Hdone & Hfin & Htr).
    + unfold pl1. rewrite dispatch_keeps_calls. cbn. exact Hrest.
    + exact Hin1.
    + exact Hmax.
    + exists (repeat 0%nat n ++ rest). rewrite run_ticks_app, Hn.
      split; [exact Hdone |].
      rewrite Hfin, Htr. unfold drain, pl1. rewrite dispatch_keeps_calls. cbn.
      split; reflexivity.
Qed.

Lemma load_results_is_pool (task : Z -> prog bool) (count limit : Z)
  (env : oracle) (sched : list nat) (h : list event) :
  1 <= limit ->
  load_results task count limit env sched h
  = drain env h (run_ticks env h sched (submit_all limit (calls_of task count))).
Proof.
  intro Hl. unfold load_results. destruct (1 <? limit) eqn:Hpar; [reflexivity |].
  apply Z.ltb_ge in Hpar. assert (limit = 1) by lia. subst limit.
  symmetry. apply one_worker_is_sequential.
Qed.

(** C3. For a concurrency limit of at least 1 the lifecycles of a load run
    are those of a pool of exactly [limit] workers: whatever the schedule,
    at every instant at most [limit] lifecycles are being executed, a
    lifecycle waits in the queue only while all [limit] workers are busy,
    and the run ends with no lifecycle left. *)
Theorem in_flight_never_exceeds_limit (task : Z -> prog bool) (count limit : Z)
  (env : oracle) (h : list event) :
  1 <= limit ->
  let submitted := submit_all limit (calls_of task count) in
  (forall sched,
      load_results task count limit env sched h
      = drain env h (run_ticks env h sched submitted))
  /\ (forall sched,
         max_workers (run_ticks env h sched submitted) = limit
         /\ in_flight (run_ticks env h sched submitted) <= limit
         /\ (queue (run_ticks env h sched submitted) <> [] ->
             in_flight (run_ticks env h sched submitted) = limit))
  /\ (forall sched,
         exists rest,
           all_done (run_ticks env h (sched ++ rest) submitted)
           /\ finished (run_ticks env h (sched ++ rest) submitted)
              = fst (load_results task count limit env sched h)
           /\ trace (run_ticks env h (sched ++ rest) submitted)
              = snd (load_results task count limit env sched h)).
Proof.
  intro Hl. cbv zeta.
  destruct (@submit_all_facts limit (calls_of task count) ltac:(lia))
    as (Hmax & Hin & Hfin & Htr & Hcalls).
  split; [| split].
  - intro sched. apply load_results_is_pool. exact Hl.
  - intro sched.
    destruct (run_ticks_facts env h sched Hin) as [[Hle Hq] Hm].
    rewrite Hm, Hmax in *. repeat split; assumption.
  - intro sched. rewrite load_results_is_pool by exact Hl.
    destruct (run_ticks_facts env h sched Hin) as [Hin' Hm].
    destruct (@drain_is_schedule env h _ _ eq_refl Hin' ltac:(lia))
      as (rest & H1 & H2 & H3).
    exists rest. rewrite run_ticks_app.
    split; [exact H1 | split; [exact H2 | exact H3]].
Qed.

Lemma in_flight_never_exceeds_limit_witness :
  in_flight (run_ticks working_world [] [0; 2; 1; 1; 0]%nat
               (submit_all 3 (calls_of (generate_one false) 5))) <= 3.
Proof.
  assert (H : 1 <= 3) by lia.
  exact (proj1 (proj2 (proj1 (proj2
           (@in_flight_never_exceeds_limit (generate_one false) 5 3 working_world [] H))
           [0; 2; 1; 1; 0]%nat))).
Defined.

(** ** The two dispatch paths *)

Lemma reported_counts (task : Z -> prog bool) (count parallel : Z)
  (use_async : bool) (env : oracle) (sched : list nat) (h : list event) :
  Z.abs count < float_limit ->
  let counts :=
    fold_left tally
      (map snd (lifecycle_outcomes task count parallel use_async env sched h)) (0, 0) in
  fst (test_load_with task count parallel use_async env sched h) = Returned tt
  /\ reported_success (snd (test_load_with task count parallel use_async env sched h))
     = Some (fst counts)
  /\ reported_failed (snd (test_load_with task count parallel use_async env sched h))
     = Some (snd counts).
Proof.
  intro Hsmall. cbv zeta.
  destruct (test_load_with_ends task count parallel use_async env sched h)
    as [H | [Hbig _]]; [exact H | lia].
Qed.

Lemma range_NoDup (lo hi : Z) : NoDup (range lo hi).
Proof.
  unfold range. apply Injective_map_NoDup; [| apply seq_NoDup].
  intros x y Hxy. lia.
Qed.

Lemma lifecycle_outcomes_NoDup (task : Z -> prog bool) (count parallel : Z)
  (use_async : bool) (env : oracle) (sched : list nat) (h : list event) :
  NoDup (lifecycle_outcomes task count parallel use_async env sched h).
Proof.
  apply (NoDup_map_inv fst).
  eapply Permutation_NoDup; [| apply (range_NoDup 1 (count + 1))].
  symmetry. apply load_results_indices.
Qed.

Lemma load_results_one (task : Z -> prog bool) (count : Z) (env : oracle)
  (sched : list nat) (h : list event) :
  load_results task count 1 env sched h = run_each env h (calls_of task count) [] [].
Proof. reflexivity. Qed.

(** C8. With a concurrency limit of 1 the load run is sequential: the
    lifecycles for the indices 1 to [count] are executed to their end one
    after the other in that order, between the two readings of the clock;
    and a run through the thread pool whose lifecycles end with the same
    outcomes reports the same success and failure counts.  A pool whose
    workers never interleave does what the sequential path does.  (The
    report follows the lifecycles for every count Python converts to a
    float.) *)
Theorem limit_one_is_sequential (task : Z -> prog bool) (count : Z)
  (use_async : bool) (env : oracle) (sched : list nat) (h : list event) :
  let sequential := test_load_with task count 1 use_async env sched h in
  let outcomes := lifecycle_outcomes task count 1 use_async env sched h in
  (exists t0 t1 tail,
      snd sequential
      = start_line count 1 use_async :: EvTime t0
          :: snd (run_each env (h ++ [start_line count 1 use_async; EvTime t0])
                    (calls_of task count) [] [])
          ++ EvTime t1 :: tail
      /\ outcomes
         = fst (run_each env (h ++ [start_line count 1 use_async; EvTime t0])
                  (calls_of task count) [] [])
      /\ (Z.abs count < float_limit ->
          tail = report_lines count (fold_left tally (map snd outcomes) (0, 0))
                   (t1 - t0)%float 1))
  /\ map fst outcomes = range 1 (count + 1)
  /\ (forall limit env' sched' h',
         1 < limit ->
         (forall i o,
             In (i, o) (lifecycle_outcomes task count limit use_async env' sched' h')
             <-> In (i, o) outcomes) ->
         fold_left tally
           (map snd (lifecycle_outcomes task count limit use_async env' sched' h'))
           (0, 0)
         = fold_left tally (map snd outcomes) (0, 0)
         /\ (Z.abs count < float_limit ->
             reported_success
               (snd (test_load_with task count limit use_async env' sched' h'))
             = reported_success (snd sequential)
             /\ reported_failed
                  (snd (test_load_with task count limit use_async env' sched' h'))
                = reported_failed (snd sequential)
             /\ reported_success (snd sequential)
                = Some (fst (fold_left tally (map snd outcomes) (0, 0)))
             /\ reported_failed (snd sequential)
                = Some (snd (fold_left tally (map snd outcomes) (0, 0)))))
  /\ (forall limit h1,
         1 < limit ->
         load_results task count limit env [] h1
         = load_results task count 1 env sched h1).
Proof.
  cbv zeta. split; [| split; [| split]].
  - rewrite test_load_with_unfold.
    unfold start_line, lifecycle_outcomes. rewrite !load_results_one.
    match goal with
    | |- context [if overflows ?c ?d then _ else _] =>
        destruct (overflows c d) eqn:Hover
    end; cbn [fst snd]; eexists _, _, _.
    + split; [reflexivity |]. split; [reflexivity |].
      intro Hsmall. apply overflows_large in Hover. lia.
    + split; [reflexivity |]. split; [reflexivity |]. intros _. reflexivity.
  - unfold lifecycle_outcomes. rewrite load_results_one.
    rewrite run_each_indices. cbn. apply calls_of_indices.
  - intros limit env' sched' h' Hlimit Hsame.
    assert (HP : Permutation
                   (map snd (lifecycle_outcomes task count limit use_async env' sched' h'))
                   (map snd (lifecycle_outcomes task count 1 use_async env sched h))).
    { apply Permutation_map. apply NoDup_Permutation.
      - apply lifecycle_outcomes_NoDup.
      - apply lifecycle_outcomes_NoDup.
      - intros [i o]. apply Hsame. }
    split; [exact (tally_permutation (0, 0) HP) |].
    intro Hsmall.
    destruct (@reported_counts task count limit use_async env' sched' h' Hsmall)
      as (_ & H1 & H2).
    destruct (@reported_counts task count 1 use_async env sched h Hsmall)
      as (_ & H3 & H4).
    rewrite H1, H2, H3, H4.
    rewrite (tally_permutation (0, 0) HP).
    repeat split; reflexivity.
  - intros limit h1 Hlimit. rewrite load_results_one. unfold load_results.
    apply Z.ltb_lt in Hlimit. rewrite Hlimit.
    destruct (@submit_all_facts limit (calls_of task count) ltac:(lia))
      as (_ & _ & Hfin & Htr & Hcalls).
    unfold drain. cbn [run_ticks fold_left]. rewrite Hfin, Htr, Hcalls. reflexivity.
Qed.

Lemma limit_one_is_sequential_witness :
  reported_success (snd (test_load_with broken_task 4 3 false working_world
                           [2; 1; 0; 0; 1; 2; 2; 2; 1; 1; 0]%nat []))
  = reported_success (snd (test_load_with broken_task 4 1 false working_world [] [])).
Proof.
  refine (proj1 (proj2 (proj1 (proj2 (proj2
            (@limit_one_is_sequential broken_task 4 false working_world [] [])))
            3 working_world [2; 1; 0; 0; 1; 2; 2; 2; 1; 1; 0]%nat [] _ _) _)).
  - lia.
  - intros i o. vm_compute. tauto.
  - pose proof float_limit_large. cbn. lia.
Defined.

(** ** The entry point *)

Lemma test_load_returns (count parallel : Z) (use_async : bool) (env : oracle)
  (sched : list nat) (h : list event) :
  Z.abs count < float_limit ->
  fst (test_load count parallel use_async env sched h) = Returned tt.
Proof.
  intro Hsmall. unfold test_load.
  exact (proj1 (@reported_counts (generate_one use_async) count parallel use_async
                  env sched h Hsmall)).
Qed.

Lemma main_of_test (p : prog bool) (env : oracle) (sched : list nat) (h : list event) :
  exit_status
    (fst (run_bind (lift p) (fun success => run_ret (if success then 0 else 1))
            env sched h))
  = status_of_test (fst (exec env h p)).
Proof.
  unfold run_bind, lift, run_ret.
  destruct (fst (exec env h p)) as [[|] | e]; reflexivity.
Qed.

(** A count too large for a float ends the load mode with an exception,
    and so with exit status 1, though no lifecycle failed. *)
Lemma load_mode_exits_one_on_huge_count :
  truthy (Some (- 10 ^ 309)) = true
  /\ lifecycle_outcomes (generate_one false) (- 10 ^ 309) 1 false working_world [] []
     = []
  /\ fst (main {| health := false; sync := false; async_test := false;
                  load := Some (- 10 ^ 309); parallel := 1; use_async := false |}
               working_world [] [])
     = Raised OverflowError
  /\ exit_status
       (fst (main {| health := false; sync := false; async_test := false;
                     load := Some (- 10 ^ 309); parallel := 1; use_async := false |}
                  working_world [] [])) = 1.
Proof. vm_compute. repeat split. Qed.

(** C10 (amended). In load mode, that is with [--load] given a count other
    than 0 and none of [--health], [--sync], [--async], the process exits
    with status 0 whatever the lifecycles did, for every count Python
    converts to a float (its magnitude below [2^1024 - 2^970]).  In the
    other modes it exits with 0 when the selected test succeeded and 1 when
    it failed: the health test with [--health], else the synchronous test
    with [--sync], else the asynchronous test with [--async], and all
    tests when no mode is given. *)
Theorem load_mode_always_exits_zero (a : args) (env : oracle) (sched : list nat)
  (h : list event) :
  let status := exit_status (fst (main a env sched h)) in
  (forall count,
      health a = false -> sync a = false -> async_test a = false ->
      load a = Some count -> count <> 0 -> Z.abs count < float_limit ->
      status = 0)
  /\ (health a = true -> status = status_of_test (fst (exec env h test_health)))
  /\ (health a = false -> sync a = true ->
      status = status_of_test (fst (exec env h (test_sync_generation "001"))))
  /\ (health a = false -> sync a = false -> async_test a = true ->
      status = status_of_test (fst (exec env h (test_async_generation "001"))))
  /\ (health a = false -> sync a = false -> async_test a = false ->
      truthy (load a) = false ->
      status = status_of_test (fst (exec env h run_all_tests))).
Proof.
  cbv zeta. unfold main.
  split; [| split; [| split; [| split]]].
  - intros count Hh Hs Ha Hl Hnz Hsmall. rewrite Hh, Hs, Ha, Hl.
    apply Z.eqb_neq in Hnz. cbn [truthy orb negb]. rewrite Hnz. cbn [orb negb].
    unfold run_bind. rewrite test_load_returns by exact Hsmall. reflexivity.
  - intro Hh. rewrite Hh. cbn [orb negb]. apply main_of_test.
  - intros Hh Hs. rewrite Hh, Hs. cbn [orb negb]. apply main_of_test.
  - intros Hh Hs Ha. rewrite Hh, Hs, Ha. cbn [orb negb]. apply main_of_test.
  - intros Hh Hs Ha Hl. rewrite Hh, Hs, Ha, Hl. cbn [orb negb]. apply main_of_test.
Qed.

Lemma load_mode_always_exits_zero_witness :
  map snd (lifecycle_outcomes (generate_one true) 3 2 true dead_world [0; 1; 0]%nat [])
  = [Returned false; Returned false; Returned false]
  /\ exit_status
       (fst (main {| health := false; sync := false; async_test := false;
                     load := Some 3; parallel := 2; use_async := true |}
                  dead_world [0; 1; 0]%nat [])) = 0.
Proof.
  split.
  - vm_compute. reflexivity.
  - refine (proj1 (@load_mode_always_exits_zero
                     {| health := false; sync := false; async_test := false;
                        load := Some 3; parallel := 2; use_async := true |}
                     dead_world [0; 1; 0]%nat []) 3 _ _ _ _ _ _);
      first [reflexivity | discriminate].
Defined.

(** * Further properties *)

(** ** Generic facts on traces *)

Lemma nothing_after_app (P Q : event -> bool) (a b : list event) :
  nothing_after P Q a = true ->
  nothing_after P Q b = true ->
  (count P a = 0%nat \/ count Q b = 0%nat) ->
  nothing_after P Q (a ++ b) = true.
Proof.
  intros Ha Hb Hz. induction a as [| ev a IH]; [exact Hb |].
  cbn in Ha |- *. apply andb_true_iff in Ha. destruct Ha as [Hev Ha].
  rewrite count_cons in Hz.
  destruct (P ev) eqn:HP.
  - destruct Hz as [Hz | Hz]; [cbn in Hz; lia |].
    rewrite count_app, Hz, Nat.add_0_r, Hev. cbn.
    apply IH; [exact Ha | right; exact Hz].
  - cbn. apply IH; [exact Ha |].
    destruct Hz as [Hz | Hz]; [left; cbn in Hz; exact Hz | right; exact Hz].
Qed.

Lemma nothing_after_none (P Q : event -> bool) (t : list event) :
  count P t = 0%nat -> nothing_after P Q t = true.
Proof.
  induction t as [| ev t IH]; [reflexivity |].
  rewrite count_cons. cbn. destruct (P ev); [cbn; lia |].
  intro H. cbn. apply IH. exact H.
Qed.

Lemma nothing_after_spec (P Q : event -> bool) (t : list event) :
  nothing_after P Q t = true ->
  forall pre ev post,
    t = pre ++ ev :: post -> P ev = true -> count Q post = 0%nat.
Proof.
  intros Hh pre. revert t Hh.
  induction pre as [| x pre IH]; intros t Hh ev post -> HP.
  - cbn in Hh. rewrite HP in Hh. apply andb_true_iff in Hh.
    destruct Hh as [Hz _]. apply Nat.eqb_eq. exact Hz.
  - cbn in Hh. apply andb_true_iff in Hh. destruct Hh as [_ Hh].
    eapply IH; [exact Hh | reflexivity | exact HP].
Qed.

Lemma fetch_follows_sleep_none (prev : option event) (t : list event) :
  count is_status_fetch t = 0%nat -> fetch_follows_sleep prev t = true.
Proof.
  revert prev. induction t as [| ev t IH]; intros prev; [reflexivity |].
  rewrite count_cons. cbn. destruct (is_status_fetch ev); [cbn; lia |].
  intro H. cbn. apply IH. exact H.
Qed.

Lemma fetch_follows_sleep_app (a b : list event) :
  forall prev,
    fetch_follows_sleep prev a = true ->
    (forall prev', fetch_follows_sleep prev' b = true) ->
    fetch_follows_sleep prev (a ++ b) = true.
Proof.
  induction a as [| ev a IH]; intros prev Ha Hb; [apply Hb |].
  cbn in Ha |- *. apply andb_true_iff in Ha. destruct Ha as [Hev Ha].
  rewrite Hev. cbn. apply IH; assumption.
Qed.

Lemma fetch_follows_sleep_spec (t : list event) :
  forall prev,
    fetch_follows_sleep prev t = true ->
    forall pre ev post,
      t = pre ++ ev :: post ->
      is_status_fetch ev = true ->
      (pre = [] /\ prev = Some (EvSleep 1))
      \/ exists pre', pre = pre' ++ [EvSleep 1].
Proof.
  induction t as [| x t IH]; intros prev Hh pre ev post Heq Hf.
  - destruct pre; discriminate Heq.
  - cbn in Hh. apply andb_true_iff in Hh. destruct Hh as [Hx Hh].
    destruct pre as [| y pre]; cbn in Heq; injection Heq as -> ->.
    + left. split; [reflexivity |]. rewrite Hf in Hx.
      destruct prev as [[| s | | | | | |] |]; try discriminate Hx.
      destruct s as [| [| |] |]; try discriminate Hx. reflexivity.
    + right.
      destruct (IH (Some y) Hh pre ev post eq_refl Hf) as [[-> Hp] | [pre' ->]].
      * injection Hp as ->. exists []. reflexivity.
      * exists (y :: pre'). reflexivity.
Qed.

(** ** More on the polling loop *)

Lemma poll_requests (job_id : json) attempts status o t :
  poll_shape job_id attempts status o t ->
  count is_request t = count is_status_fetch t
  /\ count is_sleep t = count is_status_fetch t
  /\ slept t = Z.of_nat (count is_status_fetch t)
  /\ count is_submission t = 0%nat
  /\ count (fun ev => match written_file ev with Some _ => true | None => false end) t
     = 0%nat.
Proof.
  induction 1 as [status | attempt rest status resp s o t Hs Hc Hf Hrest IH
                 | | | | | | | |];
    repeat rewrite count_cons; rewrite ?count_nil; cbn [slept];
    try destruct IH as (IH1 & IH2 & IH3 & IH4 & IH5);
    cbn -[Z.add Z.of_nat]; repeat split; lia.
Qed.

Lemma poll_fetch_follows_sleep (job_id : json) attempts status o t :
  poll_shape job_id attempts status o t ->
  forall prev, fetch_follows_sleep prev t = true.
Proof.
  induction 1; intro prev; cbn; rewrite ?IHpoll_shape; reflexivity.
Qed.

Lemma poll_targets_job (job_id : json) attempts status o t :
  poll_shape job_id attempts status o t ->
  forall r a, In (EvHttp r a) t -> r = status_request job_id.
Proof.
  induction 1; intros r0 a0 Hin; cbn in Hin;
    repeat match goal with
           | H : _ \/ _ |- _ => destruct H
           | H : False |- _ => contradiction
           | H : EvHttp _ _ = EvHttp _ _ |- _ => injection H as <- <-
           | H : _ = EvHttp _ _ |- _ => discriminate H
           end;
    eauto.
Qed.


Lemma unfinished_le_fetches (l : list event) :
  (count is_unfinished_fetch l <= count is_status_fetch l)%nat.
Proof.
  induction l as [| x l IHl]; [reflexivity |]. rewrite !count_cons.
  destruct (is_unfinished_fetch x) eqn:Hx; [| lia].
  unfold is_unfinished_fetch, fetched_status in Hx.
  destruct x; try discriminate Hx.
  destruct (is_status_fetch (EvHttp r answer)); [lia | discriminate Hx].
Qed.

(** Whatever the words, statuses other than [completed] and [failed] keep
    the loop going to its last attempt; it runs out there, or raises when
    the last status cannot be printed. *)
Lemma poll_all_unfinished (job_id : json) attempts status o t :
  poll_shape job_id attempts status o t ->
  count is_unfinished_fetch t = List.length attempts ->
  attempts <> [] ->
  (exists s, o = Returned (Next (Some s)) /\ eq_str s "completed" = false)
  \/ (o = Raised UnicodeEncodeError
      /\ exists s,
           plain s = false
           /\ In (EvPrintFailed (InfoJobStatus s (last attempts 0))) t).
Proof.
  assert (Hunf : forall a s, status_of a = Some s ->
                   is_unfinished_fetch (EvHttp (status_request job_id) a)
                   = negb (eq_str s "completed") && negb (eq_str s "failed")).
  { intros a s Hs. unfold is_unfinished_fetch, fetched_status. cbn.
    rewrite Hs. reflexivity. }
  assert (Hnone : forall a, status_of a = None ->
                    is_unfinished_fetch (EvHttp (status_request job_id) a) = false).
  { intros a Hs. unfold is_unfinished_fetch, fetched_status. cbn.
    rewrite Hs. reflexivity. }
  induction 1 as [status | attempt rest status resp s o t Hs Hc Hf Hrest IH
                 | attempt rest status resp s Hs Hc
                 | attempt rest status resp s reason Hs Hc Hf
                 | attempt rest status resp s Hs Hc Hf
                 | attempt rest status resp Hcode
                 | attempt rest status a e Ha
                 | attempt rest status resp Hcode Hplain
                 | attempt rest status resp s Hs Hplain
                 | attempt rest status resp s reason Hs Hc Hf Hplain];
    intros Hcount Hne;
    try congruence;
    revert Hcount; repeat rewrite count_cons; rewrite ?count_nil;
    rewrite ?(Hunf _ _ Hs), ?Hc, ?Hf,
      ?(Hnone _ (status_of_refused _ Hcode)), ?(Hnone _ Ha);
    cbn; try lia.
  - pose proof (unfinished_le_fetches t) as Hle1.
    pose proof (poll_fetches_le Hrest) as Hle2.
    intro Hcount.
    destruct rest as [| a2 rest].
    + inversion Hrest; subst. left. exists s. split; [reflexivity | exact Hc].
    + destruct IH as [(s' & -> & Hs') | (-> & s' & Hp' & Hin)];
        [cbn in *; lia | discriminate | left | right].
      * exists s'. split; [reflexivity | exact Hs'].
      * split; [reflexivity |]. exists s'. split; [exact Hp' |].
        change (last (attempt :: a2 :: rest) 0) with (last (a2 :: rest) 0).
        do 3 right. exact Hin.
  - intro Hcount. right. split; [reflexivity |]. exists s.
    split; [exact Hplain |].
    destruct rest as [| a2 rest].
    + cbn. auto.
    + exfalso.
      destruct (negb (eq_str s "completed") && negb (eq_str s "failed"));
        cbn in Hcount; lia.
Qed.

(** The status lines are numbered with the attempts, in order. *)
Lemma poll_status_attempts (job_id : json) attempts status o t :
  poll_shape job_id attempts status o t ->
  exists n, status_attempts t = firstn n attempts.
Proof.
  induction 1 as [status | attempt rest status resp s o t Hs Hc Hf Hrest IH
                 | | | | | | | |]; cbn.
  - exists 0%nat. reflexivity.
  - destruct IH as [n Hn]. exists (S n). cbn. rewrite Hn. reflexivity.
  - exists 1%nat. reflexivity.
  - exists 1%nat. reflexivity.
  - exists 1%nat. reflexivity.
  - exists 0%nat. reflexivity.
  - exists 0%nat. reflexivity.
  - exists 0%nat. reflexivity.
  - exists 0%nat. reflexivity.
  - exists 1%nat. reflexivity.
Qed.

(** A loop that ends on a [completed] status saw a fetch report it. *)
Lemma poll_completed_was_reported (job_id : json) attempts status s t :
  poll_shape job_id attempts status (Returned (Next (Some s))) t ->
  eq_str s "completed" = true ->
  (forall s0, status = Some s0 -> eq_str s0 "completed" = false) ->
  exists ev, In ev t /\ reports "completed" ev = true.
Proof.
  intro H. remember (Returned (Next (Some s))) as o eqn:Ho.
  induction H as [status | attempt rest status resp s' o t Hs Hc Hf Hrest IH
                 | attempt rest status resp s' Hs Hc
                 | | | | | | |];
    intros Hdone Hinit; try discriminate Ho.
  - injection Ho as ->. specialize (Hinit s eq_refl). congruence.
  - destruct (IH Ho Hdone) as (ev & Hin & Hrep).
    + intros s0 Hs0. injection Hs0 as <-. exact Hc.
    + exists ev. split; [cbn; auto | exact Hrep].
  - injection Ho as ->.
    exists (EvHttp (status_request job_id) (inr resp)).
    split; [cbn; auto |]. rewrite (reports_status _ _ _ Hs). exact Hdone.
Qed.

(** ** Which files a program writes *)

Lemma writes_to_bind (A B : Type) (file : string) (p : prog A) (f : A -> prog B) :
  writes_to file p -> (forall a, writes_to file (f a)) -> writes_to file (bind p f).
Proof.
  intros Hp Hf.
  induction p as [a | e | lo hi k IH | s k IH | k IH | m k IH | r k IH | k IH
                 | fl data k IH]; cbn in *; auto.
  destruct Hp as [Hfile Hk]. split; auto.
Qed.

Lemma writes_to_try (A : Type) (file : string) (p : prog A) (handler : exn -> prog A) :
  writes_to file p -> (forall e, writes_to file (handler e)) ->
  writes_to file (try_except p handler).
Proof.
  intros Hp Hh.
  induction p as [a | e | lo hi k IH | s k IH | k IH | m k IH | r k IH | k IH
                 | fl data k IH]; cbn in *; auto.
  destruct Hp as [Hfile Hk]. split; auto.
Qed.

Lemma writes_to_sound (A : Type) (file : string) (env : oracle) (p : prog A) :
  writes_to file p ->
  forall h ev f,
    In ev (snd (exec env h p)) -> written_file ev = Some f -> f = file.
Proof.
  induction p as [a | e | lo hi k IH | s k IH | k IH | m k IH | r k IH | k IH
                 | fl data k IH]; cbn; intros Hw h ev f Hin Hf;
    try contradiction;
    try (destruct Hin as [<- | Hin]; [discriminate Hf | eauto]).
  - destruct Hin as [<- | Hin]; [| eauto].
    unfold print_event in Hf. destruct (printable env m); discriminate Hf.
  - destruct Hw as [Hfile Hk].
    destruct Hin as [<- | Hin]; [cbn in Hf; congruence | eauto].
Qed.

(** Going through a program that writes at most one file. *)
Ltac walk_program :=
  repeat first
    [ exact I
    | match goal with
      | |- forall _ : option exn, _ => intros [? |]
      | |- forall _ : exn + response, _ => intros [? | ?]
      | |- forall _, _ => intro
      | |- _ = _ /\ _ => split; [reflexivity |]
      end
    | progress cbn
    | match goal with
      | |- context [match ?x with _ => _ end] => destruct x
      end ].

Ltac through_program := solve [walk_program].

Lemma poll_writes_nothing (file : string) (job_id : json) (attempts : list Z) :
  forall status, writes_to file (poll job_id attempts status).
Proof.
  induction attempts as [| attempt rest IH]; intro status; cbn; [exact I |].
  intros [e | resp]; cbn; [exact I |].
  destruct (status_code resp =? 200); cbn; [| through_program].
  unfold response_json. destruct (json_body resp) as [d |]; cbn; [| exact I].
  destruct d as [| b | n | lx | str | items | members]; cbn; try exact I.
  destruct (lookup "status" members) as [s |]; cbn; [| exact I].
  intros [e |]; cbn; [exact I |].
  destruct (eq_str s "completed"); cbn; [exact I |].
  destruct (eq_str s "failed"); cbn; [| apply IH].
  destruct (lookup "error" members) as [err |]; cbn.
  - destruct err as [| b | n | lx | str | items | errm]; cbn; try exact I.
    destruct (lookup "message" errm); through_program.
  - through_program.
Qed.

Lemma async_writes_to (invoice_num : string) :
  writes_to (async_file invoice_num) (test_async_generation invoice_num).
Proof.
  unfold test_async_generation. cbn. intros [e0 |]; cbn; [exact I |]. intro z.
  intros [e | resp]; cbn; [through_program |].
  destruct (status_code resp =? 202); cbn; [| through_program].
  unfold response_json. destruct (json_body resp) as [d |]; cbn; [| through_program].
  destruct d as [| b | n | lx | str | items | members]; cbn; try through_program.
  destruct (lookup "job_id" members) as [job_id |]; cbn; [| through_program].
  intros [e |]; cbn [raise_if_failed bind try_except writes_to];
    [through_program |].
  apply writes_to_try; [| intro e; through_program].
  apply writes_to_bind; [apply poll_writes_nothing |].
  intros [r | [s |]]; cbn; try exact I.
  destruct (eq_str s "completed"); cbn; [| through_program].
  intros [e | resp']; cbn; [exact I |].
  destruct (status_code resp' =? 200); cbn; [| through_program].
  intros [e |]; cbn; [exact I |].
  split; [reflexivity |]. through_program.
Qed.

Lemma sync_writes_to (invoice_num : string) :
  writes_to (sync_file invoice_num) (test_sync_generation invoice_num).
Proof.
  unfold test_sync_generation. cbn. intros [e0 |]; cbn; [exact I |]. intro z.
  intros [e | resp]; cbn; [through_program |].
  destruct (status_code resp =? 200); cbn; [| through_program].
  intros [e |]; cbn; [through_program |].
  split; [reflexivity |]. through_program.
Qed.

(** ** More on the end of a lifecycle *)

Lemma download_facts (job_id : json) (o : outcome bool) (t : list event) :
  download_shape job_id o t ->
  count is_request t = 1%nat
  /\ count is_sleep t = 0%nat /\ slept t = 0
  /\ count is_submission t = 0%nat
  /\ nothing_after is_download is_request t = true
  /\ count is_broken_fetch t = 0%nat
  /\ status_attempts t = []
  /\ (forall r a, In (EvHttp r a) t -> r = download_request job_id)
  /\ (forall f d a, In (EvWriteBytes f d a) t ->
        exists resp, In (EvHttp (download_request job_id) (inr resp)) t
                     /\ status_code resp = 200 /\ d = content resp)
  /\ (o = Returned true <-> exists f d, In (EvWriteBytes f d None) t).
Proof.
  destruct 1 as [e | resp Hc | resp e Hc | resp file e Hc | resp file Hc
                | resp Hc Hplain];
    (split; [reflexivity |]); (split; [reflexivity |]); (split; [reflexivity |]);
    (split; [reflexivity |]); (split; [reflexivity |]); (split; [reflexivity |]);
    (split; [reflexivity |]);
    (split; [intros r a Hin; cbn in Hin;
             repeat match goal with
                    | H : _ \/ _ |- _ => destruct H
                    | H : False |- _ => contradiction
                    | H : EvHttp _ _ = EvHttp _ _ |- _ => injection H as <- <-
                    | H : _ = EvHttp _ _ |- _ => discriminate H
                    end; reflexivity |]);
    (split;
     [intros f d a Hin; cbn in Hin;
      repeat match goal with
             | H : _ \/ _ |- _ => destruct H
             | H : False |- _ => contradiction
             | H : EvWriteBytes _ _ _ = EvWriteBytes _ _ _ |- _ =>
                 injection H as <- <- <-
             | H : _ = EvWriteBytes _ _ _ |- _ => discriminate H
             end;
      exists resp; (split; [cbn; auto |]); (split; [| reflexivity]);
      apply Z.eqb_eq; exact Hc
     |]);
    (split;
     [ intro Ho; try discriminate Ho; eexists _, _; cbn; auto 6
     | intros (f & d & Hin); cbn in Hin;
       repeat match goal with
              | H : _ \/ _ |- _ => destruct H
              | H : False |- _ => contradiction
              | H : _ = EvWriteBytes _ _ None |- _ => discriminate H
              end; reflexivity ]).
Qed.

Lemma finish_facts (job_id : json) polled (o : outcome bool) (t : list event) :
  finish_shape job_id polled o t ->
  count is_request t = count is_download t
  /\ (count is_download t <= 1)%nat
  /\ count is_sleep t = 0%nat /\ slept t = 0
  /\ count is_submission t = 0%nat
  /\ nothing_after is_download is_request t = true
  /\ count is_broken_fetch t = 0%nat
  /\ status_attempts t = []
  /\ (forall r a, In (EvHttp r a) t -> r = download_request job_id)
  /\ (forall f d a, In (EvWriteBytes f d a) t ->
        exists resp, In (EvHttp (download_request job_id) (inr resp)) t
                     /\ status_code resp = 200 /\ d = content resp).
Proof.
  destruct 1 as [e | r | | s Hs | s o t Hs Hd].
  5: { destruct (download_facts Hd)
         as (H1 & H2 & H3 & H4 & H5 & H6 & H7 & H8 & H9 & _).
       destruct (download_counts Hd) as [_ Hd1].
       split; [lia |]. split; [lia |].
       split; [exact H2 |]. split; [exact H3 |]. split; [exact H4 |].
       split; [exact H5 |]. split; [exact H6 |]. split; [exact H7 |].
       split; [exact H8 | exact H9]. }
  all: (split; [reflexivity |]); (split; [cbn; lia |]);
    (split; [reflexivity |]); (split; [reflexivity |]); (split; [reflexivity |]);
    (split; [reflexivity |]); (split; [reflexivity |]); (split; [reflexivity |]);
    (split;
     [ intros ? ? Hin; cbn in Hin;
       repeat match goal with
              | H : _ \/ _ |- _ => destruct H
              | H : False |- _ => contradiction
              | H : _ = EvHttp _ _ |- _ => discriminate H
              end
     | intros ? ? ? Hin; cbn in Hin;
       repeat match goal with
              | H : _ \/ _ |- _ => destruct H
              | H : False |- _ => contradiction
              | H : _ = EvWriteBytes _ _ _ |- _ => discriminate H
              end ]).
Qed.

(** ** The asynchronous lifecycle, further *)

Lemma submission_facts (r : request) :
  url r = Jobs ->
  forall a : exn + response,
    is_request (EvHttp r a) = true
    /\ is_submission (EvHttp r a) = true
    /\ is_broken_fetch (EvHttp r a) = false
    /\ is_unfinished_fetch (EvHttp r a) = false.
Proof.
  intros H a.
  unfold is_submission, is_broken_fetch, is_unfinished_fetch, fetched_status,
    is_status_fetch.
  rewrite H. repeat split; reflexivity.
Qed.

Ltac submission Hu :=
  match type of Hu with
  | url ?r = Jobs =>
      match goal with
      | |- context [EvHttp r ?a] =>
          destruct (@jobs_not_fetch r Hu a) as (Hn1 & Hn2 & Hn3 & Hn4 & Hn5 & Hn6);
          destruct (@submission_facts r Hu a) as (Hm1 & Hm2 & Hm3 & Hm4)
      end
  end.

(** X6. A lifecycle makes one submission, at most 30 status fetches and at
    most one download, and no other request: at most 32 requests. *)
Theorem lifecycle_request_budget (env : oracle) (h : list event)
  (invoice_num : string) :
  let t := snd (exec env h (test_async_generation invoice_num)) in
  (count is_request t <= 32)%nat
  /\ count is_submission t = 1%nat
  /\ (count is_status_fetch t <= 30)%nat
  /\ (count is_download t <= 1)%nat
  /\ count is_request t
     = (count is_submission t + count is_status_fetch t + count is_download t)%nat.
Proof.
  cbv zeta.
  destruct (async_exec env invoice_num h)
    as [q r a e Hu Hj | q r resp Hu Hc
       | q r resp job_id polled tp o tail Hu Hj Hp Hf
       | q r resp Hu Hc Hplain | q r resp job_id Hu Hj Hplain];
    submission Hu.
  - repeat rewrite count_cons. rewrite Hn1, Hn2, Hm1, Hm2. cbn. lia.
  - repeat rewrite count_cons. rewrite Hn1, Hn2, Hm1, Hm2. cbn. lia.
  - pose proof (poll_fetches_le Hp) as Hle. rewrite attempts_length in Hle.
    pose proof (poll_no_download Hp) as Hnd.
    destruct (poll_requests Hp) as (Hp1 & _ & _ & Hp4 & _).
    destruct (finish_facts Hf) as (Hf1 & Hf2 & _ & _ & Hf5 & _).
    destruct (finish_counts Hf) as [Hz _].
    repeat rewrite count_cons. rewrite !count_app, Hn1, Hn2, Hm1, Hm2. cbn. lia.
  - repeat rewrite count_cons. rewrite Hn1, Hn2, Hm1, Hm2. cbn. lia.
  - repeat rewrite count_cons. rewrite Hn1, Hn2, Hm1, Hm2. cbn. lia.
Qed.

(** X7. The first request of a lifecycle is the submission, and a download
    call is its last request. *)
Theorem lifecycle_requests_in_order (env : oracle) (h : list event)
  (invoice_num : string) :
  let t := snd (exec env h (test_async_generation invoice_num)) in
  (exists ev, find is_request t = Some ev /\ is_submission ev = true)
  /\ (forall pre ev post,
         t = pre ++ ev :: post ->
         is_download ev = true ->
         count is_request post = 0%nat).
Proof.
  cbv zeta.
  destruct (async_exec env invoice_num h)
    as [q r a e Hu Hj | q r resp Hu Hc
       | q r resp job_id polled tp o tail Hu Hj Hp Hf
       | q r resp Hu Hc Hplain | q r resp job_id Hu Hj Hplain];
    submission Hu.
  - split; [eexists; split; [reflexivity | exact Hm2] |].
    apply nothing_after_spec. cbn. rewrite Hu. reflexivity.
  - split; [eexists; split; [reflexivity | exact Hm2] |].
    apply nothing_after_spec. cbn. rewrite Hu. reflexivity.
  - split; [eexists; split; [reflexivity | exact Hm2] |].
    apply nothing_after_spec. cbn [nothing_after].
    rewrite Hn2. cbn [is_download andb].
    destruct (finish_facts Hf) as (_ & _ & _ & _ & _ & Hf6 & _).
    apply nothing_after_app.
    + apply nothing_after_none. exact (poll_no_download Hp).
    + exact Hf6.
    + left. exact (poll_no_download Hp).
  - split; [eexists; split; [reflexivity | exact Hm2] |].
    apply nothing_after_spec. cbn. rewrite Hu. reflexivity.
  - split; [eexists; split; [reflexivity | exact Hm2] |].
    apply nothing_after_spec. cbn. rewrite Hu. reflexivity.
Qed.

Lemma lifecycle_requests_in_order_witness :
  count is_request (skipn 8 working_trace) = 0%nat.
Proof.
  refine (proj2 (lifecycle_requests_in_order working_world [] "001")
            (firstn 7 working_trace) (nth 7 working_trace (EvSleep 0))
            (skipn 8 working_trace) _ _).
  - vm_compute. reflexivity.
  - vm_compute. reflexivity.
Defined.

(** X8. The poller sleeps one second right before every status fetch, the
    first included, and never otherwise: a lifecycle sleeps as many seconds
    as it makes status fetches, at most 30. *)
Theorem poller_sleeps_before_each_fetch (env : oracle) (h : list event)
  (invoice_num : string) :
  let t := snd (exec env h (test_async_generation invoice_num)) in
  count is_sleep t = count is_status_fetch t
  /\ slept t = Z.of_nat (count is_status_fetch t)
  /\ slept t <= 30
  /\ (forall pre ev post,
         t = pre ++ ev :: post ->
         is_status_fetch ev = true ->
         exists pre', pre = pre' ++ [EvSleep 1]).
Proof.
  cbv zeta.
  assert (Hspec : forall t,
             fetch_follows_sleep None t = true ->
             forall pre ev post,
               t = pre ++ ev :: post -> is_status_fetch ev = true ->
               exists pre', pre = pre' ++ [EvSleep 1]).
  { intros t Ht pre ev post Heq Hfetch.
    destruct (@fetch_follows_sleep_spec t None Ht pre ev post Heq Hfetch)
      as [[_ Hp] | Hex]; [discriminate Hp | exact Hex]. }
  destruct (async_exec env invoice_num h)
    as [q r a e Hu Hj | q r resp Hu Hc
       | q r resp job_id polled tp o tail Hu Hj Hp Hf
       | q r resp Hu Hc Hplain | q r resp job_id Hu Hj Hplain];
    submission Hu.
  - repeat rewrite count_cons. rewrite Hn1. cbn.
    repeat split; try lia. apply Hspec. cbn. rewrite Hu. reflexivity.
  - repeat rewrite count_cons. rewrite Hn1. cbn.
    repeat split; try lia. apply Hspec. cbn. rewrite Hu. reflexivity.
  - pose proof (poll_fetches_le Hp) as Hle. rewrite attempts_length in Hle.
    destruct (poll_requests Hp) as (_ & Hp2 & Hp3 & _).
    destruct (finish_facts Hf) as (_ & _ & Hf3 & Hf4 & _).
    destruct (finish_counts Hf) as [Hz _].
    assert (Hslept : slept (tp ++ tail) = slept tp + slept tail).
    { clear. induction tp as [| x tp IH]; [reflexivity |].
      destruct x; cbn [app slept]; rewrite IH; lia. }
    repeat rewrite count_cons. rewrite !count_app, Hn1. cbn [slept]. rewrite Hslept.
    cbn -[Z.of_nat Z.add].
    split; [lia |]. split; [lia |]. split; [lia |].
    apply Hspec. cbn [fetch_follows_sleep].
    rewrite Hn1. cbn [is_status_fetch andb].
    apply fetch_follows_sleep_app.
    + apply (poll_fetch_follows_sleep Hp).
    + intro prev. apply fetch_follows_sleep_none. exact Hz.
  - repeat rewrite count_cons. rewrite Hn1. cbn.
    repeat split; try lia. apply Hspec. cbn. rewrite Hu. reflexivity.
  - repeat rewrite count_cons. rewrite Hn1. cbn.
    repeat split; try lia. apply Hspec. cbn. rewrite Hu. reflexivity.
Qed.

Lemma poller_sleeps_before_each_fetch_witness :
  exists pre', firstn 5 working_trace = pre' ++ [EvSleep 1].
Proof.
  refine (proj2 (proj2 (proj2
            (poller_sleeps_before_each_fetch working_world [] "001")))
            (firstn 5 working_trace) (nth 5 working_trace (EvSleep 0))
            (skipn 6 working_trace) _ _).
  - vm_compute. reflexivity.
  - vm_compute. reflexivity.
Defined.





Lemma async_artifact_facts (env : oracle) (h : list event)
  (invoice_num : string) :
  let r := exec env h (test_async_generation invoice_num) in
  (fst r = Returned true
   <-> exists data, In (EvWriteBytes (async_file invoice_num) data None) (snd r))
  /\ (forall file data a,
         In (EvWriteBytes file data a) (snd r) ->
         file = async_file invoice_num
         /\ exists req resp,
              In (EvHttp req (inr resp)) (snd r)
              /\ is_download (EvHttp req (inr resp)) = true
              /\ status_code resp = 200
              /\ data = content resp).
Proof.
  cbv zeta.
  pose proof (@writes_to_sound _ (async_file invoice_num) env
                (test_async_generation invoice_num)
                (async_writes_to invoice_num) h) as Hfile.
  revert Hfile.
  destruct (async_exec env invoice_num h)
    as [q r a e Hu Hj | q r resp Hu Hc
       | q r resp job_id polled tp o tail Hu Hj Hp Hf
       | q r resp Hu Hc Hplain | q r resp job_id Hu Hj Hplain];
    intro Hfile.
  - split.
    + split; [discriminate |].
      intros (data & [Hin | [Hin | [Hin | [Hin | []]]]]); discriminate Hin.
    + intros file data a0 [Hin | [Hin | [Hin | [Hin | []]]]]; discriminate Hin.
  - split.
    + split; [discriminate |].
      intros (data & [Hin | [Hin | [Hin | [Hin | []]]]]); discriminate Hin.
    + intros file data a0 [Hin | [Hin | [Hin | [Hin | []]]]]; discriminate Hin.
  - destruct (poll_requests Hp) as (_ & _ & _ & _ & Hnw).
    destruct (finish_facts Hf) as (_ & _ & _ & _ & _ & _ & _ & _ & _ & Hf10).
    assert (Hpoll : forall file data a, ~ In (EvWriteBytes file data a) tp).
    { intros file data a Hin.
      pose proof (count_zero_not_in _ _ _ Hnw Hin) as Hz. discriminate Hz. }
    assert (Htail : forall file data a,
               In (EvWriteBytes file data a)
                  (EvPrint (InfoTestingAsync invoice_num) :: EvRandInt 1 10 q
                     :: EvHttp r (inr resp) :: EvPrint (InfoJobCreated job_id)
                     :: tp ++ tail) ->
               In (EvWriteBytes file data a) tail).
    { intros file data a [Hin | [Hin | [Hin | [Hin | Hin]]]]; try discriminate Hin.
      apply in_app_or in Hin. destruct Hin as [Hin | Hin]; [| exact Hin].
      exfalso. exact (Hpoll _ _ _ Hin). }
    split.
    + split.
      * intro Ho. subst o.
        inversion Hf as [| r' | | | s o' t' Hs Hd]; subst.
        { pose proof (poll_returns_false Hp). discriminate. }
        destruct (download_facts Hd) as (_ & _ & _ & _ & _ & _ & _ & _ & _ & Hiff).
        destruct (proj1 Hiff eq_refl) as (f & d & Hin).
        exists d.
        assert (Hin' : In (EvWriteBytes f d None)
                          (EvPrint (InfoTestingAsync invoice_num) :: EvRandInt 1 10 q
                             :: EvHttp r (inr resp) :: EvPrint (InfoJobCreated job_id)
                             :: tp ++ tail)).
        { do 4 right. apply in_or_app. right. exact Hin. }
        rewrite <- (Hfile _ f Hin' eq_refl). exact Hin'.
      * intros (data & Hin). apply Htail in Hin.
        inversion Hf as [e Hpo Ho Ht | r' Hpo Ho Ht | Hpo Ho Ht | s Hs Hpo Ho Ht
                        | s o' t' Hs Hd Hpo Ho Ht]; subst;
          try (cbn in Hin;
               repeat match goal with
                      | H : _ \/ _ |- _ => destruct H
                      | H : False |- _ => contradiction
                      | H : _ = EvWriteBytes _ _ _ |- _ => discriminate H
                      end).
        destruct (download_facts Hd) as (_ & _ & _ & _ & _ & _ & _ & _ & _ & Hiff).
        apply Hiff. eexists _, _. exact Hin.
    + intros file data a Hin. split.
      * exact (Hfile _ file Hin eq_refl).
      * apply Htail in Hin.
        destruct (Hf10 _ _ _ Hin) as (resp' & Hin' & Hcode & Hdata).
        exists (download_request job_id), resp'.
        split; [| split; [reflexivity | split; assumption]].
        do 4 right. apply in_or_app. right. exact Hin'.
  - split.
    + split; [discriminate |].
      intros (data & [Hin | [Hin | [Hin | [Hin | [Hin | []]]]]]); discriminate Hin.
    + intros file data a0 [Hin | [Hin | [Hin | [Hin | [Hin | []]]]]];
        discriminate Hin.
  - split.
    + split; [discriminate |].
      intros (data & [Hin | [Hin | [Hin | [Hin | [Hin | []]]]]]); discriminate Hin.
    + intros file data a0 [Hin | [Hin | [Hin | [Hin | [Hin | []]]]]];
        discriminate Hin.
Qed.


(** X11. A download is only called for a job a status fetch reported as
    [completed]. *)
Theorem download_only_after_completed (env : oracle) (h : list event)
  (invoice_num : string) (ev : event) :
  let t := snd (exec env h (test_async_generation invoice_num)) in
  In ev t ->
  is_download ev = true ->
  exists fetch, In fetch t /\ reports "completed" fetch = true.
Proof.
  cbv zeta.
  destruct (async_exec env invoice_num h)
    as [q r a e Hu Hj | q r resp Hu Hc
       | q r resp job_id polled tp o tail Hu Hj Hp Hf
       | q r resp Hu Hc Hplain | q r resp job_id Hu Hj Hplain];
    submission Hu; intros Hin Hd.
  - destruct Hin as [<- | [<- | [<- | [<- | []]]]]; try discriminate Hd.
    rewrite Hn2 in Hd. discriminate.
  - destruct Hin as [<- | [<- | [<- | [<- | []]]]]; try discriminate Hd.
    rewrite Hn2 in Hd. discriminate.
  - assert (Hex : exists ev', In ev' tail /\ is_download ev' = true).
    { destruct Hin as [<- | [<- | [<- | [<- | Hin]]]]; try discriminate Hd.
      { rewrite Hn2 in Hd. discriminate. }
      apply in_app_or in Hin. destruct Hin as [Hin | Hin].
      - rewrite (count_zero_not_in _ _ _ (poll_no_download Hp) Hin) in Hd.
        discriminate.
      - exists ev. split; assumption. }
    destruct Hex as (ev' & Hin' & Hd').
    inversion Hf as [e Hpo Ho Ht | r' Hpo Ho Ht | Hpo Ho Ht | s Hs Hpo Ho Ht
                    | s o' t' Hs Hdl Hpo Ho Ht]; subst;
      try (cbn in Hin';
           repeat match goal with
                  | H : _ \/ _ |- _ => destruct H
                  | H : False |- _ => contradiction
                  end; subst; discriminate Hd').
    destruct (@poll_completed_was_reported _ _ _ _ _ Hp Hs) as (fetch & Hfin & Hrep).
    { intros s0 Hs0. discriminate Hs0. }
    exists fetch. split; [| exact Hrep].
    do 4 right. apply in_or_app. left. exact Hfin.
  - destruct Hin as [<- | [<- | [<- | [<- | [<- | []]]]]]; try discriminate Hd.
    rewrite Hn2 in Hd. discriminate.
  - destruct Hin as [<- | [<- | [<- | [<- | [<- | []]]]]]; try discriminate Hd.
    rewrite Hn2 in Hd. discriminate.
Qed.

Lemma download_only_after_completed_witness :
  exists fetch, In fetch working_trace /\ reports "completed" fetch = true.
Proof.
  refine (@download_only_after_completed working_world [] "001"
            (nth 7 working_trace (EvSleep 0)) _ _).
  - vm_compute. auto 10.
  - vm_compute. reflexivity.
Defined.

(** X12. Every status fetch and the download ask for the job whose id the
    accepted submission returned. *)
Theorem polls_the_assigned_job (env : oracle) (h : list event)
  (invoice_num : string) (r : request) (a : exn + response) (j : json) :
  let t := snd (exec env h (test_async_generation invoice_num)) in
  In (EvHttp r a) t ->
  url r = Job j \/ url r = JobDownload j ->
  exists req resp,
    In (EvHttp req (inr resp)) t /\ url req = Jobs /\ job_of (inr resp) = Some j.
Proof.
  cbv zeta.
  destruct (async_exec env invoice_num h)
    as [q r0 a0 e Hu Hj | q r0 resp Hu Hc
       | q r0 resp job_id polled tp o tail Hu Hj Hp Hf
       | q r0 resp Hu Hc Hplain | q r0 resp job_id Hu Hj Hplain];
    intros Hin Hr.
  - destruct Hin as [Hin | [Hin | [Hin | [Hin | []]]]]; try discriminate Hin.
    injection Hin as <- <-. destruct Hr as [Hr | Hr]; congruence.
  - destruct Hin as [Hin | [Hin | [Hin | [Hin | []]]]]; try discriminate Hin.
    injection Hin as <- <-. destruct Hr as [Hr | Hr]; congruence.
  - assert (Hj' : j = job_id).
    { destruct Hin as [Hin | [Hin | [Hin | [Hin | Hin]]]]; try discriminate Hin.
      { injection Hin as <- <-. destruct Hr as [Hr | Hr]; congruence. }
      apply in_app_or in Hin. destruct Hin as [Hin | Hin].
      - pose proof (poll_targets_job Hp _ _ Hin) as ->.
        destruct Hr as [Hr | Hr]; cbn in Hr; congruence.
      - destruct (finish_facts Hf) as (_ & _ & _ & _ & _ & _ & _ & _ & Hf9 & _).
        pose proof (Hf9 _ _ Hin) as ->.
        destruct Hr as [Hr | Hr]; cbn in Hr; congruence. }
    subst j. exists r0, resp.
    split; [cbn; auto | split; assumption].
  - destruct Hin as [Hin | [Hin | [Hin | [Hin | [Hin | []]]]]]; try discriminate Hin.
    injection Hin as <- <-. destruct Hr as [Hr | Hr]; congruence.
  - destruct Hin as [Hin | [Hin | [Hin | [Hin | [Hin | []]]]]]; try discriminate Hin.
    injection Hin as <- <-. destruct Hr as [Hr | Hr]; congruence.
Qed.

Lemma polls_the_assigned_job_witness :
  exists req resp,
    In (EvHttp req (inr resp)) working_trace
    /\ url req = Jobs /\ job_of (inr resp) = Some (JString "job-1").
Proof.
  refine (@polls_the_assigned_job working_world [] "001"
            (status_request (JString "job-1"))
            (reply 200 (Some (status_is "completed")) [])
            (JString "job-1") _ _).
  - vm_compute. auto 10.
  - left. reflexivity.
Defined.

(** X13. Any status other than [completed] and [failed], whatever the word, is
    taken as still pending: thirty such answers make thirty status fetches
    and no download, and the lifecycle returns [False], on the time-out
    line, or, when the thirtieth status cannot be printed, on the line of
    the caught [UnicodeEncodeError]. *)
Theorem unknown_status_keeps_polling (env : oracle) (h : list event)
  (invoice_num : string) :
  let r := exec env h (test_async_generation invoice_num) in
  count is_unfinished_fetch (snd r) = 30%nat ->
  fst r = Returned false
  /\ count is_status_fetch (snd r) = 30%nat
  /\ count is_download (snd r) = 0%nat
  /\ (last (snd r) (EvSleep 0) = EvPrint ErrJobTimedOut
      \/ (last (snd r) (EvSleep 0) = EvPrint (ErrAsyncFailed UnicodeEncodeError)
          /\ exists s,
               plain s = false
               /\ In (EvPrintFailed (InfoJobStatus s 30)) (snd r))).
Proof.
  cbv zeta.
  destruct (async_exec env invoice_num h)
    as [q r a e Hu Hj | q r resp Hu Hc
       | q r resp job_id polled tp o tail Hu Hj Hp Hf
       | q r resp Hu Hc Hplain | q r resp job_id Hu Hj Hplain];
    submission Hu.
  - repeat rewrite count_cons. rewrite Hm4. cbn. discriminate.
  - repeat rewrite count_cons. rewrite Hm4. cbn. discriminate.
  - repeat rewrite count_cons. rewrite !count_app, Hm4, Hn1, Hn2. cbn. intro Hcount.
    destruct (finish_counts Hf) as [Hz _].
    pose proof (unfinished_le_fetches tail) as Htail.
    pose proof (unfinished_le_fetches tp) as Hple.
    pose proof (poll_fetches_le Hp) as Hfle. rewrite attempts_length in Hfle.
    pose proof (poll_no_download Hp) as Hnd.
    assert (Hall : count is_unfinished_fetch tp
                   = List.length (range 1 (max_attempts + 1))).
    { rewrite attempts_length. lia. }
    destruct (poll_all_unfinished Hp Hall)
      as [(s & -> & Hs) | (-> & s & Hplain & Hin)].
    { intro Hnil. pose proof attempts_length as Hl. rewrite Hnil in Hl.
      discriminate Hl. }
    + inversion Hf as [| | | s' Hs' | s' o' t' Hs' Hd]; subst; [| congruence].
      split; [reflexivity |]. split; [cbn in *; lia |].
      split; [rewrite Hnd; reflexivity |]. left.
      change (last ([EvPrint (InfoTestingAsync invoice_num); EvRandInt 1 10 q;
                     EvHttp r (inr resp); EvPrint (InfoJobCreated job_id)]
                      ++ tp ++ [EvPrint ErrJobTimedOut]) (EvSleep 0)
              = EvPrint ErrJobTimedOut).
      rewrite app_assoc. apply last_last.
    + inversion Hf; subst.
      split; [reflexivity |]. split; [cbn in *; lia |].
      split; [rewrite Hnd; reflexivity |]. right. split.
      * change (last ([EvPrint (InfoTestingAsync invoice_num); EvRandInt 1 10 q;
                       EvHttp r (inr resp); EvPrint (InfoJobCreated job_id)]
                        ++ tp ++ [EvPrint (ErrAsyncFailed UnicodeEncodeError)])
                     (EvSleep 0)
                = EvPrint (ErrAsyncFailed UnicodeEncodeError)).
        rewrite app_assoc. apply last_last.
      * exists s. split; [exact Hplain |].
        do 4 right. apply in_or_app. left. exact Hin.
  - repeat rewrite count_cons. rewrite Hm4. cbn. discriminate.
  - repeat rewrite count_cons. rewrite Hm4. cbn. discriminate.
Qed.

Lemma unknown_status_keeps_polling_witness :
  fst (exec rendering_world [] (test_async_generation "001")) = Returned false
  /\ count is_status_fetch (snd (exec rendering_world [] (test_async_generation "001")))
     = 30%nat
  /\ count is_download (snd (exec rendering_world [] (test_async_generation "001")))
     = 0%nat.
Proof.
  destruct (unknown_status_keeps_polling rendering_world [] "001")
    as (H1 & H2 & H3 & _).
  - vm_compute. reflexivity.
  - split; [exact H1 | split; [exact H2 | exact H3]].
Defined.

Lemma firstn_of_seq (n : nat) :
  forall a m, firstn n (seq a m) = seq a (Nat.min n m).
Proof.
  induction n as [| n IH]; intros a m; [reflexivity |].
  destruct m as [| m]; [reflexivity |]. cbn. rewrite IH. reflexivity.
Qed.

Lemma firstn_range (n : nat) (lo hi : Z) :
  firstn n (range lo hi)
  = map (fun k => lo + Z.of_nat k) (seq 0 (Nat.min n (Z.to_nat (hi - lo)))).
Proof. unfold range. rewrite firstn_map, firstn_of_seq. reflexivity. Qed.

(** X15. The status lines a lifecycle prints are numbered 1, 2, 3, ... with
    the attempts, at most 30 of them. *)
Theorem status_lines_are_numbered (env : oracle) (h : list event)
  (invoice_num : string) :
  let t := snd (exec env h (test_async_generation invoice_num)) in
  exists n,
    (n <= 30)%nat /\ status_attempts t = map Z.of_nat (seq 1 n).
Proof.
  cbv zeta.
  destruct (async_exec env invoice_num h)
    as [q r a e Hu Hj | q r resp Hu Hc
       | q r resp job_id polled tp o tail Hu Hj Hp Hf
       | q r resp Hu Hc Hplain | q r resp job_id Hu Hj Hplain].
  - exists 0%nat. split; [lia | reflexivity].
  - exists 0%nat. split; [lia | reflexivity].
  - destruct (poll_status_attempts Hp) as [n Hn].
    destruct (finish_facts Hf) as (_ & _ & _ & _ & _ & _ & _ & Hf8 & _).
    assert (Happ : status_attempts (tp ++ tail) = status_attempts tp ++ status_attempts tail).
    { clear. induction tp as [| x tp IH]; [reflexivity |].
      destruct x as [| | | [] | | | |]; cbn [app status_attempts]; rewrite ?IH; reflexivity. }
    exists (Nat.min n 30). split; [lia |].
    cbn [status_attempts]. rewrite Happ, Hf8, app_nil_r, Hn, firstn_range.
    change (Z.to_nat (max_attempts + 1 - 1)) with 30%nat.
    rewrite <- seq_shift, map_map. apply map_ext. intro k. lia.
  - exists 0%nat. split; [lia | reflexivity].
  - exists 0%nat. split; [lia | reflexivity].
Qed.

(** ** The health probe and the synchronous test *)

Ltac print_split H :=
  unfold print_event, print_answer, printable; cbn [shown];
  match goal with
  | |- context [encodes ?env ?v] => destruct (encodes env v) eqn:H
  end; run.

Ltac in_trace H :=
  cbn in H;
  repeat match goal with
         | H : _ \/ _ |- _ => destruct H
         | H : False |- _ => contradiction
         end.

Lemma health_returns (env : oracle) (h : list event) :
  exists b, fst (exec env h test_health) = Returned b.
Proof.
  unfold test_health, requests_get. run.
  destruct (reply_of env _ _) as [e | resp]; run; [eexists; reflexivity |].
  destruct (status_code resp =? 200); run;
    [| print_cases Hshow; eexists; reflexivity].
  unfold response_json. destruct (json_body resp); run;
    [print_cases Hshow |]; eexists; reflexivity.
Qed.

Lemma health_facts (env : oracle) (h : list event) :
  let r := exec env h test_health in
  count is_request (snd r) = 1%nat
  /\ (fst r = Returned true
      <-> exists req resp payload,
            In (EvHttp req (inr resp)) (snd r)
            /\ status_code resp = 200
            /\ json_body resp = Some payload
            /\ encodes env payload = true)
  /\ (fst r = Returned true
      <-> exists payload, In (EvPrint (InfoHealthPassed payload)) (snd r))
  /\ (fst r = Returned true \/ fst r = Returned false).
Proof.
  cbv zeta.
  assert (Hbool : fst (exec env h test_health) = Returned true
                  \/ fst (exec env h test_health) = Returned false).
  { destruct (health_returns env h) as [[|] ->]; [left | right]; reflexivity. }
  refine ((fun H => conj (proj1 H) (conj (proj1 (proj2 H))
                                         (conj (proj2 (proj2 H)) Hbool))) _).
  clear Hbool.
  unfold test_health, requests_get. run.
  destruct (reply_of env _ _) as [e | resp]; run.
  - split; [reflexivity |]. split; (split; [discriminate |]).
    + intros (req & resp & payload & Hin & _). in_trace Hin; discriminate.
    + intros (payload & Hin). in_trace Hin; discriminate.
  - destruct (status_code resp =? 200) eqn:Hcode; run.
    + unfold response_json. destruct (json_body resp) as [d |] eqn:Hbody; run.
      * print_cases Hshow.
        -- split; [reflexivity |]. split; (split; [intros _ | reflexivity]).
           ++ eexists _, resp, d. split; [right; left; reflexivity |].
              split; [apply Z.eqb_eq; exact Hcode | split; assumption].
           ++ exists d. right. right. left. reflexivity.
        -- split; [reflexivity |]. split; (split; [discriminate |]).
           ++ intros (req & resp' & payload & Hin & _ & Hjson & Henc).
              in_trace Hin; try discriminate.
              match goal with
              | H : EvHttp _ _ = EvHttp _ _ |- _ => injection H as _ <-
              end.
              congruence.
           ++ intros (payload & Hin). in_trace Hin; discriminate.
      * split; [reflexivity |]. split; (split; [discriminate |]).
        -- intros (req & resp' & payload & Hin & _ & Hjson & _).
           in_trace Hin; try discriminate.
           match goal with
           | H : EvHttp _ _ = EvHttp _ _ |- _ => injection H as _ <-
           end.
           congruence.
        -- intros (payload & Hin). in_trace Hin; discriminate.
    + apply Z.eqb_neq in Hcode. print_cases Hshow.
      * split; [reflexivity |]. split; (split; [discriminate |]).
        -- intros (req & resp' & payload & Hin & Hc & _).
           in_trace Hin; try discriminate.
           match goal with
           | H : EvHttp _ _ = EvHttp _ _ |- _ => injection H as _ <-
           end.
           contradiction.
        -- intros (payload & Hin). in_trace Hin; discriminate.
      * split; [reflexivity |]. split; (split; [discriminate |]).
        -- intros (req & resp' & payload & Hin & Hc & _).
           in_trace Hin; try discriminate.
           match goal with
           | H : EvHttp _ _ = EvHttp _ _ |- _ => injection H as _ <-
           end.
           contradiction.
        -- intros (payload & Hin). in_trace Hin; discriminate.
Qed.


Lemma sync_facts (env : oracle) (h : list event)
  (invoice_num : string) :
  let r := exec env h (test_sync_generation invoice_num) in
  count is_request (snd r) = 1%nat
  /\ (fst r = Returned true
      <-> exists data, In (EvWriteBytes (sync_file invoice_num) data None) (snd r))
  /\ (forall file data a,
         In (EvWriteBytes file data a) (snd r) ->
         file = sync_file invoice_num
         /\ exists req resp,
              In (EvHttp req (inr resp)) (snd r)
              /\ url req = Generate /\ status_code resp = 200
              /\ data = content resp).
Proof.
  cbv zeta.
  unfold test_sync_generation, generate_invoice_data, random_randint,
    requests_post, mkdir_output_dir, write_bytes.
  run.
  fold (sync_file invoice_num).
  assert (Hnone : forall t : list event,
             count is_request t = 1%nat ->
             (forall file data a, ~ In (EvWriteBytes file data a) t) ->
             count is_request t = 1%nat
             /\ (Returned false = Returned true
                 <-> exists data,
                       In (EvWriteBytes (sync_file invoice_num) data None) t)
             /\ (forall file data a,
                    In (EvWriteBytes file data a) t ->
                    file = sync_file invoice_num
                    /\ exists req resp,
                         In (EvHttp req (inr resp)) t
                         /\ url req = Generate /\ status_code resp = 200
                         /\ data = content resp)).
  { intros t Hone Hno. split; [exact Hone |]. split.
    - split; [discriminate |]. intros (data & Hin). exfalso. exact (Hno _ _ _ Hin).
    - intros file data a Hin. exfalso. exact (Hno _ _ _ Hin). }
  destruct (reply_of env _ _) as [e | resp]; run.
  { apply Hnone; [reflexivity |].
    intros file data a Hin. in_trace Hin; discriminate. }
  destruct (status_code resp =? 200) eqn:Hcode; run.
  2: { print_split Hshow;
         (apply Hnone; [reflexivity |]);
         intros file data a Hin; in_trace Hin; discriminate. }
  apply Z.eqb_eq in Hcode.
  destruct (mkdir_of env _) as [e |]; run.
  { apply Hnone; [reflexivity |].
    intros file data a Hin. in_trace Hin; discriminate. }
  destruct (write_of env _ _ _) as [e |]; run.
  - split; [reflexivity |]. split.
    + split; [discriminate |].
      intros (data & Hin). in_trace Hin; discriminate.
    + intros file data a Hin. in_trace Hin; try discriminate.
      match goal with
      | H : EvWriteBytes _ _ _ = EvWriteBytes _ _ _ |- _ => injection H as <- <- <-
      end.
      split; [reflexivity |].
      eexists _, resp. split; [right; right; left; reflexivity |].
      split; [reflexivity | split; [exact Hcode | reflexivity]].
  - split; [reflexivity |]. split.
    + split; [| reflexivity]. intros _. exists (content resp).
      right; right; right; right; left. reflexivity.
    + intros file data a Hin. in_trace Hin; try discriminate.
      match goal with
      | H : EvWriteBytes _ _ _ = EvWriteBytes _ _ _ |- _ => injection H as <- <- <-
      end.
      split; [reflexivity |].
      eexists _, resp. split; [right; right; left; reflexivity |].
      split; [reflexivity | split; [exact Hcode | reflexivity]].
Qed.




(** How [run_all_tests] ends, from how its three tests end. *)
Lemma run_all_exec (env : oracle) (h : list event) :
  let rh := exec env (health_start h) test_health in
  let rs := exec env (sync_start env h) (test_sync_generation "sync-test") in
  let ra := exec env (async_start env h) (test_async_generation "async-test") in
  exec env h run_all_tests
  = match fst rh with
    | Returned true =>
        match fst rs with
        | Returned true =>
            match fst ra with
            | Returned true =>
                (Returned true,
                 [EvPrint InfoRunningAll; EvPrint Blank] ++ snd rh ++ [EvPrint Blank]
                   ++ snd rs ++ [EvPrint Blank] ++ snd ra
                   ++ [EvPrint Blank; EvPrint InfoAllPassed])
            | Returned false =>
                (Returned false,
                 [EvPrint InfoRunningAll; EvPrint Blank] ++ snd rh ++ [EvPrint Blank]
                   ++ snd rs ++ [EvPrint Blank] ++ snd ra
                   ++ [EvPrint ErrAsyncGenerationFailed])
            | Raised e =>
                (Raised e,
                 [EvPrint InfoRunningAll; EvPrint Blank] ++ snd rh ++ [EvPrint Blank]
                   ++ snd rs ++ [EvPrint Blank] ++ snd ra)
            end
        | Returned false =>
            (Returned false,
             [EvPrint InfoRunningAll; EvPrint Blank] ++ snd rh ++ [EvPrint Blank]
               ++ snd rs ++ [EvPrint ErrSyncGenerationFailed])
        | Raised e =>
            (Raised e,
             [EvPrint InfoRunningAll; EvPrint Blank] ++ snd rh ++ [EvPrint Blank]
               ++ snd rs)
        end
    | Returned false =>
        (Returned false,
         [EvPrint InfoRunningAll; EvPrint Blank] ++ snd rh
           ++ [EvPrint ErrServiceNotRunning])
    | Raised e => (Raised e, [EvPrint InfoRunningAll; EvPrint Blank] ++ snd rh)
    end.
Proof.
  cbv zeta. unfold run_all_tests.
  run.
  rewrite exec_bind.
  replace ((h ++ [EvPrint InfoRunningAll]) ++ [EvPrint Blank]) with (health_start h)
    by (unfold health_start; rewrite <- app_assoc; reflexivity).
  destruct (fst (exec env (health_start h) test_health)) as [[|] | e] eqn:Hh;
    cbn [negb app]; run;
    try (rewrite ?app_nil_r; reflexivity).
  rewrite exec_bind.
  replace ((health_start h ++ snd (exec env (health_start h) test_health))
             ++ [EvPrint Blank]) with (sync_start env h)
    by (unfold sync_start; rewrite <- app_assoc; reflexivity).
  destruct (fst (exec env (sync_start env h) (test_sync_generation "sync-test")))
    as [[|] | e] eqn:Hs;
    cbn [negb app]; run;
    try (rewrite ?app_nil_r; reflexivity).
  rewrite exec_bind.
  replace ((sync_start env h
              ++ snd (exec env (sync_start env h) (test_sync_generation "sync-test")))
             ++ [EvPrint Blank]) with (async_start env h)
    by (unfold async_start; rewrite <- app_assoc; reflexivity).
  destruct (fst (exec env (async_start env h) (test_async_generation "async-test")))
    as [[|] | e] eqn:Ha;
    cbn [negb app]; run;
    rewrite ?app_nil_r; reflexivity.
Qed.

(** ** The tests together *)


Lemma test_requests (env : oracle) (h : list event) (invoice_num : string) :
  count is_request (snd (exec env h test_health)) = 1%nat
  /\ count is_submission (snd (exec env h test_health)) = 0%nat
  /\ count is_request (snd (exec env h (test_sync_generation invoice_num))) = 1%nat
  /\ count is_submission (snd (exec env h (test_sync_generation invoice_num))) = 0%nat.
Proof.
  split; [exact (proj1 (health_facts env h)) |].
  split.
  - unfold test_health, requests_get. run.
    destruct (reply_of env _ _) as [e | resp]; run; [reflexivity |].
    destruct (status_code resp =? 200); run;
      [| print_cases Hshow; reflexivity].
    unfold response_json. destruct (json_body resp); run;
      [print_cases Hshow |]; reflexivity.
  - split; [exact (proj1 (sync_facts env h invoice_num)) |].
    unfold test_sync_generation, generate_invoice_data, random_randint,
      requests_post, mkdir_output_dir, write_bytes.
    run.
    destruct (reply_of env _ _) as [e | resp]; run; [reflexivity |].
    destruct (status_code resp =? 200); run;
      [| print_cases Hshow; reflexivity].
    destruct (mkdir_of env _) as [e |]; run; [reflexivity |].
    destruct (write_of env _ _ _) as [e |]; reflexivity.
Qed.

(** X16. [run_all_tests] runs the health check, the synchronous test and the
    asynchronous test in that order and stops at the first that fails:
    after a failed health check it has made one request only, after a
    failed synchronous test two, and no job has been submitted. *)
Theorem run_all_stops_at_first_failure (env : oracle) (h : list event) :
  let r := exec env h run_all_tests in
  let healthy := fst (exec env (health_start h) test_health) in
  let sync_ok := fst (exec env (sync_start env h) (test_sync_generation "sync-test")) in
  (healthy = Returned false ->
   fst r = Returned false /\ count is_request (snd r) = 1%nat)
  /\ (healthy = Returned true -> sync_ok = Returned false ->
      fst r = Returned false
      /\ count is_request (snd r) = 2%nat
      /\ count is_submission (snd r) = 0%nat).
Proof.
  cbv zeta. rewrite run_all_exec.
  destruct (test_requests env (health_start h) "sync-test") as (Hh1 & Hh2 & _ & _).
  destruct (test_requests env (sync_start env h) "sync-test") as (_ & _ & Hs1 & Hs2).
  split.
  - intros ->. cbn [fst snd]. split; [reflexivity |].
    rewrite !count_app, Hh1. reflexivity.
  - intros -> ->. cbn [fst snd]. split; [reflexivity |].
    rewrite !count_app, Hh1, Hh2, Hs1, Hs2. split; reflexivity.
Qed.

Lemma run_all_stops_at_first_failure_witness :
  (fst (exec dead_world [] run_all_tests) = Returned false
   /\ count is_request (snd (exec dead_world [] run_all_tests)) = 1%nat)
  /\ (fst (exec generateless_world [] run_all_tests) = Returned false
      /\ count is_request (snd (exec generateless_world [] run_all_tests)) = 2%nat
      /\ count is_submission (snd (exec generateless_world [] run_all_tests)) = 0%nat).
Proof.
  split.
  - apply (proj1 (run_all_stops_at_first_failure dead_world [])).
    vm_compute. reflexivity.
  - apply (proj2 (run_all_stops_at_first_failure generateless_world [])).
    + vm_compute. reflexivity.
    + vm_compute. reflexivity.
Defined.

(** X17. [run_all_tests] returns [True] exactly when its three tests do, and
    then both PDFs have been written. *)
Theorem run_all_passes_iff_every_test_passes (env : oracle) (h : list event) :
  let r := exec env h run_all_tests in
  let healthy := fst (exec env (health_start h) test_health) in
  let sync_ok := fst (exec env (sync_start env h) (test_sync_generation "sync-test")) in
  let async_ok :=
    fst (exec env (async_start env h) (test_async_generation "async-test")) in
  (fst r = Returned true
   <-> healthy = Returned true /\ sync_ok = Returned true /\ async_ok = Returned true)
  /\ (fst r = Returned true ->
      exists pdf1 pdf2,
        In (EvWriteBytes (sync_file "sync-test") pdf1 None) (snd r)
        /\ In (EvWriteBytes (async_file "async-test") pdf2 None) (snd r)).
Proof.
  cbv zeta. rewrite run_all_exec.
  pose proof (proj1 (proj2 (sync_facts env (sync_start env h) "sync-test"))) as Hsync.
  pose proof (proj1 (async_artifact_facts env (async_start env h) "async-test"))
    as Hasync.
  destruct (fst (exec env (health_start h) test_health)) as [[|] | e1];
    try (cbn [fst snd]; split;
         [split; [discriminate | intros (H1 & _); discriminate H1] | discriminate]).
  destruct (fst (exec env (sync_start env h) (test_sync_generation "sync-test")))
    as [[|] | e2];
    try (cbn [fst snd]; split;
         [split; [discriminate | intros (_ & H2 & _); discriminate H2] | discriminate]).
  destruct (fst (exec env (async_start env h) (test_async_generation "async-test")))
    as [[|] | e3];
    try (cbn [fst snd]; split;
         [split; [discriminate | intros (_ & _ & H3); discriminate H3] | discriminate]).
  cbn [fst snd]. split; [split; auto |].
  intros _.
  destruct (proj1 Hsync eq_refl) as [pdf1 H1].
  destruct (proj1 Hasync eq_refl) as [pdf2 H2].
  exists pdf1, pdf2. split.
  - apply in_or_app. right. apply in_or_app. right. apply in_or_app. right.
    apply in_or_app. left. exact H1.
  - apply in_or_app. right. apply in_or_app. right. apply in_or_app. right.
    apply in_or_app. right. apply in_or_app. right. apply in_or_app. left. exact H2.
Qed.

Lemma run_all_passes_iff_every_test_passes_witness :
  exists pdf1 pdf2,
    In (EvWriteBytes (sync_file "sync-test") pdf1 None)
       (snd (exec working_world [] run_all_tests))
    /\ In (EvWriteBytes (async_file "async-test") pdf2 None)
          (snd (exec working_world [] run_all_tests)).
Proof.
  apply (proj2 (run_all_passes_iff_every_test_passes working_world [])).
  vm_compute. reflexivity.
Defined.

(** ** The command line *)

(** X18. A load count of 0 counts as no [--load] at all: alone it runs all the
    tests, and with another mode flag it changes nothing. *)
Theorem zero_count_is_no_load (a : args) (env : oracle) (sched : list nat)
  (h : list event) :
  load a = Some 0 ->
  main a env sched h = main (without_load a) env sched h.
Proof.
  intro Hl. unfold main, without_load. cbn [health sync async_test load].
  rewrite Hl. cbn [truthy Z.eqb negb].
  destruct (health a), (sync a), (async_test a); reflexivity.
Qed.

Lemma zero_count_is_no_load_witness :
  main {| health := false; sync := false; async_test := false;
          load := Some 0; parallel := 4; use_async := true |} dead_world [] []
  = main {| health := false; sync := false; async_test := false;
            load := None; parallel := 4; use_async := true |} dead_world [] [].
Proof.
  apply (@zero_count_is_no_load
           {| health := false; sync := false; async_test := false;
              load := Some 0; parallel := 4; use_async := true |}
           dead_world [] []).
  reflexivity.
Defined.

(** ** Load runs at the edges *)

Lemma range_empty (lo hi : Z) : hi <= lo -> range lo hi = [].
Proof.
  intro H. unfold range. replace (Z.to_nat (hi - lo)) with 0%nat by lia. reflexivity.
Qed.

Lemma run_ticks_idle (env : oracle) (h0 : list event) (sched : list nat) (pl : pool) :
  running pl = [] -> queue pl = [] -> run_ticks env h0 sched pl = pl.
Proof.
  intros Hr Hq. induction sched as [| w sched IH]; [reflexivity |].
  rewrite run_ticks_cons.
  assert (Htick : tick env h0 pl w = pl).
  { unfold tick. rewrite Hr. destruct w; reflexivity. }
  rewrite Htick. exact IH.
Qed.

Lemma load_results_of_nothing (task : Z -> prog bool) (count parallel : Z)
  (env : oracle) (sched : list nat) (h : list event) :
  count <= 0 -> load_results task count parallel env sched h = ([], []).
Proof.
  intro Hc. unfold load_results, calls_of.
  rewrite range_empty by lia. cbn [map].
  destruct (1 <? parallel); [| reflexivity].
  unfold submit_all. cbn [fold_left].
  rewrite run_ticks_idle by reflexivity. reflexivity.
Qed.

(** X20. A load run with a count of 0 or less runs no lifecycle at all: it
    makes no request and, when it returns, has reported 0 successes and 0
    failures beside the total it was given, so that for a negative count
    the reported counts do not add up to the reported total.  It returns
    for every such count above [-(2^1024 - 2^970)]. *)
Theorem load_of_nothing (task : Z -> prog bool) (total parallel : Z)
  (use_async : bool) (env : oracle) (sched : list nat) (h : list event) :
  total <= 0 ->
  let r := test_load_with task total parallel use_async env sched h in
  lifecycle_outcomes task total parallel use_async env sched h = []
  /\ count is_request (snd r) = 0%nat
  /\ (- float_limit < total -> fst r = Returned tt)
  /\ (fst r = Returned tt ->
      reported_success (snd r) = Some 0
      /\ reported_failed (snd r) = Some 0
      /\ In (EvPrint (InfoTotal total)) (snd r)).
Proof.
  intro Hc. cbv zeta.
  assert (Hout : lifecycle_outcomes task total parallel use_async env sched h = []).
  { unfold lifecycle_outcomes. rewrite load_results_of_nothing by exact Hc.
    reflexivity. }
  split; [exact Hout |].
  rewrite test_load_with_unfold.
  rewrite !load_results_of_nothing by exact Hc. cbn [fst snd map fold_left app].
  match goal with
  | |- context [if overflows ?c ?d then _ else _] =>
      destruct (overflows c d) eqn:Hover
  end; cbn [fst snd].
  - split; [reflexivity |]. apply overflows_large in Hover.
    split; [intro Hsmall; lia | discriminate].
  - unfold report_lines. split; [destruct (1 <? parallel); reflexivity |].
    split; [reflexivity |]. intros _.
    destruct (1 <? parallel); cbn; auto 10.
Qed.

Lemma load_of_nothing_witness :
  reported_success (snd (test_load (-5) 3 false working_world [0; 1]%nat []))
  = Some 0
  /\ reported_failed (snd (test_load (-5) 3 false working_world [0; 1]%nat []))
     = Some 0
  /\ In (EvPrint (InfoTotal (-5)))
        (snd (test_load (-5) 3 false working_world [0; 1]%nat [])).
Proof.
  assert (H : -5 <= 0) by lia.
  pose proof float_limit_large as Hlarge.
  destruct (@load_of_nothing (generate_one false) (-5) 3 false working_world
              [0; 1]%nat [] H) as (_ & _ & Hret & Hrep).
  apply Hrep. apply Hret. lia.
Defined.

(** ** Invoice numbers *)

Lemma string_length_append (a b : string) :
  String.length (a ++ b) = (String.length a + String.length b)%nat.
Proof. induction a as [| c a IH]; cbn; [reflexivity | rewrite IH; reflexivity]. Qed.

Lemma zeros_length (n : nat) : String.length (zeros n) = n.
Proof. induction n as [| n IH]; cbn; [reflexivity | rewrite IH; reflexivity]. Qed.

Lemma digits_not_empty (d : Decimal.uint) :
  NilZero.string_of_uint d <> EmptyString.
Proof. destruct d; discriminate. Qed.

Lemma padded_digits (k : nat) (s : string) (d : Decimal.uint) :
  s <> EmptyString ->
  NilZero.uint_of_string s = Some d ->
  exists d',
    NilZero.uint_of_string (zeros k ++ s) = Some d' /\ N.of_uint d' = N.of_uint d.
Proof.
  intros Hs Hd. induction k as [| k IH].
  - exists d. split; [exact Hd | reflexivity].
  - destruct IH as (d' & Hd' & Hn).
    exists (Decimal.D0 d'). split; [| exact Hn].
    cbn [zeros String.append].
    assert (Hrest : NilEmpty.uint_of_string (zeros k ++ s) = Some d').
    { destruct (zeros k ++ s)%string eqn:Hz; [| exact Hd'].
      exfalso. destruct k; cbn in Hz; [contradiction | discriminate]. }
    cbn. rewrite Hrest. reflexivity.
Qed.

Lemma str_of_nonneg_parses (n : Z) :
  0 <= n ->
  exists d,
    NilZero.uint_of_string (str_of_nonneg n) = Some d /\ Z.of_N (N.of_uint d) = n.
Proof.
  intro Hn. unfold str_of_nonneg.
  pose proof (DecimalN.Unsigned.of_to (Z.to_N n)) as Hof.
  destruct (NilZero.usu_gen (N.to_uint (Z.to_N n))) as [H | H].
  - eexists. split; [exact H |]. rewrite Hof. lia.
  - eexists. split; [exact H |].
    assert (Hzero : N.of_uint (N.to_uint (Z.to_N n)) = 0%N).
    { destruct (N.to_uint (Z.to_N n)) as [| u | u | u | u | u | u | u | u | u | u];
        [reflexivity | ..];
        rewrite NilZero.usu in H by discriminate;
        try discriminate H; injection H as ->; reflexivity. }
    rewrite Hof in Hzero. cbn. lia.
Qed.

(** Reading back the invoice number written for an index gives the
    index, and the number is at least four characters wide. *)
Lemma format_04d_round_trip (i : Z) :
  0 <= i ->
  int_of_digits (format_04d i) = Some i
  /\ (4 <= String.length (format_04d i))%nat.
Proof.
  intro Hi. unfold format_04d.
  replace (i <? 0) with false by (symmetry; apply Z.ltb_ge; exact Hi).
  unfold zero_pad. split.
  - destruct (str_of_nonneg_parses Hi) as (d & Hd & Hn).
    assert (Hne : str_of_nonneg i <> EmptyString) by apply digits_not_empty.
    destruct (@padded_digits (4 - String.length (str_of_nonneg i))
                (str_of_nonneg i) d Hne Hd) as (d' & Hd' & Hn').
    unfold int_of_digits. rewrite Hd', Hn', Hn. reflexivity.
  - rewrite string_length_append, zeros_length. lia.
Qed.

(** X22. The invoice number [f"{i:04d}"] of an index that is not negative
    is its decimal digits padded with zeros to at least four characters:
    reading it back gives the index, and different indices give different
    numbers. *)
Theorem invoice_numbers_round_trip (i j : Z) :
  0 <= i ->
  0 <= j ->
  int_of_digits (format_04d i) = Some i
  /\ (4 <= String.length (format_04d i))%nat
  /\ (format_04d i = format_04d j -> i = j).
Proof.
  intros Hi Hj.
  destruct (format_04d_round_trip Hi) as [H1 H2].
  split; [exact H1 |]. split; [exact H2 |].
  intro Heq. destruct (format_04d_round_trip Hj) as [H3 _].
  rewrite Heq in H1. congruence.
Qed.

Lemma invoice_numbers_round_trip_witness :
  int_of_digits (format_04d 42) = Some 42
  /\ (4 <= String.length (format_04d 42))%nat
  /\ (format_04d 42 = format_04d 12345 -> 42 = 12345).
Proof.
  apply (@invoice_numbers_round_trip 42 12345); lia.
Defined.

Lemma append_cancel_l (p a b : string) : (p ++ a = p ++ b)%string -> a = b.
Proof.
  induction p as [| c p IH]; cbn; intro H; [exact H |].
  injection H as H. apply IH. exact H.
Qed.

Lemma append_cancel_r (s : string) :
  forall a b, (a ++ s = b ++ s)%string -> a = b.
Proof.
  induction a as [| c a IH]; destruct b as [| c' b]; cbn; intro H.
  - reflexivity.
  - exfalso. apply (f_equal String.length) in H. cbn in H.
    rewrite string_length_append in H. lia.
  - exfalso. apply (f_equal String.length) in H. cbn in H.
    rewrite string_length_append in H. lia.
  - injection H as -> H. f_equal. apply IH. exact H.
Qed.

Lemma generate_one_writes_to (use_async : bool) (i : Z) :
  writes_to (if use_async then async_file (format_04d i) else sync_file (format_04d i))
            (generate_one use_async i).
Proof.
  unfold generate_one. destruct use_async;
    [apply async_writes_to | apply sync_writes_to].
Qed.

(** X23. Lifecycles of a load run with different indices write different
    files, whatever the order in which they run. *)
Theorem lifecycles_write_distinct_files (use_async : bool) (i j : Z)
  (env env' : oracle) (h h' : list event) (ev ev' : event) (f f' : string) :
  0 <= i ->
  0 <= j ->
  i <> j ->
  In ev (snd (exec env h (generate_one use_async i))) ->
  In ev' (snd (exec env' h' (generate_one use_async j))) ->
  written_file ev = Some f ->
  written_file ev' = Some f' ->
  f <> f'.
Proof.
  intros Hi Hj Hij Hin Hin' Hf Hf' Heq.
  pose proof (@writes_to_sound _ _ env _ (generate_one_writes_to use_async i)
                h ev f Hin Hf) as H1.
  pose proof (@writes_to_sound _ _ env' _ (generate_one_writes_to use_async j)
                h' ev' f' Hin' Hf') as H2.
  rewrite H1, H2 in Heq. apply Hij.
  destruct (format_04d_round_trip Hi) as [H3 _].
  destruct (format_04d_round_trip Hj) as [H4 _].
  assert (Hnum : format_04d i = format_04d j).
  { destruct use_async; unfold async_file, sync_file in Heq;
      apply append_cancel_l in Heq; apply append_cancel_r in Heq; exact Heq. }
  rewrite Hnum in H3. congruence.
Qed.

Lemma lifecycles_write_distinct_files_witness :
  written_file (nth 4 (snd (exec working_world [] (generate_one false 1))) (EvSleep 0))
  = Some "sync-invoice-0001.pdf"%string
  /\ written_file (nth 4 (snd (exec working_world [] (generate_one false 2))) (EvSleep 0))
     = Some "sync-invoice-0002.pdf"%string
  /\ "sync-invoice-0001.pdf"%string <> "sync-invoice-0002.pdf"%string.
Proof.
  split; [vm_compute; reflexivity |]. split; [vm_compute; reflexivity |].
  refine (@lifecycles_write_distinct_files false 1 2 working_world working_world
            [] []
            (nth 4 (snd (exec working_world [] (generate_one false 1))) (EvSleep 0))
            (nth 4 (snd (exec working_world [] (generate_one false 2))) (EvSleep 0))
            _ _ _ _ _ _ _ _ _); try lia.
  - vm_compute. auto 10.
  - vm_compute. auto 10.
  - vm_compute. reflexivity.
  - vm_compute. reflexivity.
Defined.

(** ** A service that cannot be reached *)

Lemma fails_unserved_step (env : oracle) (h : list event) (p : prog bool) :
  unreachable env ->
  fails_unserved p ->
  match step env h p with
  | inl o => is_success o = false
  | inr (_, p') => fails_unserved p'
  end.
Proof.
  intros Hdown Hp.
  destruct p as [b | e | lo hi k | s k | k | m k | r k | k | file data k];
    cbn in *; auto.
  - subst b. reflexivity.
  - destruct (Hdown h r) as [e ->]. apply Hp.
Qed.

Lemma fails_unserved_exec (env : oracle) (p : prog bool) :
  unreachable env ->
  fails_unserved p ->
  forall h, is_success (fst (exec env h p)) = false.
Proof.
  intro Hdown.
  induction p as [b | e | lo hi k IH | s k IH | k IH | m k IH | r k IH | k IH
                 | file data k IH]; cbn; intros Hp h; auto.
  - subst b. reflexivity.
  - destruct (Hdown h r) as [e He]. rewrite He. apply IH. apply Hp.
Qed.

Lemma generate_one_fails_unserved (use_async : bool) (i : Z) :
  fails_unserved (generate_one use_async i).
Proof.
  unfold generate_one. destruct use_async; cbn;
    intros [e0 |]; cbn; try exact I; intros z e; cbn;
    intros [e1 |]; cbn; try exact I; reflexivity.
Qed.

Lemma dispatch_pool_fails (pl : pool) : pool_fails pl -> pool_fails (dispatch pl).
Proof.
  unfold pool_fails. rewrite dispatch_keeps_calls. intro H. exact H.
Qed.

Lemma tick_pool_fails (env : oracle) (h0 : list event) (pl : pool) (w : nat) :
  unreachable env -> pool_fails pl -> pool_fails (tick env h0 pl w).
Proof.
  intros Hdown [Hcalls Hdone]. unfold tick.
  destruct (nth_error (running pl) w) as [[i p] |] eqn:Hw; [| split; assumption].
  destruct (nth_error_parts _ _ Hw) as (l1 & l2 & Hrun & Hrem & Hrep).
  rewrite Hrun in Hcalls.
  assert (Hp : fails_unserved p).
  { rewrite Forall_forall in Hcalls. apply (Hcalls (i, p)).
    apply in_or_app. left. apply in_or_app. right. left. reflexivity. }
  assert (Hothers : Forall (fun c => fails_unserved (snd c)) ((l1 ++ l2) ++ queue pl)).
  { rewrite Forall_forall in *. intros c Hc. apply Hcalls.
    apply in_app_or in Hc. destruct Hc as [Hc | Hc].
    - apply in_or_app. left. apply in_app_or in Hc. apply in_or_app.
      destruct Hc as [Hc | Hc]; [left | right; right]; exact Hc.
    - apply in_or_app. right. exact Hc. }
  pose proof (@fails_unserved_step env (h0 ++ trace pl) p Hdown Hp) as Hstep.
  destruct (step env (h0 ++ trace pl) p) as [o | [ev p']].
  - apply dispatch_pool_fails. unfold pool_fails. cbn. rewrite Hrem.
    split; [exact Hothers |].
    apply Forall_app. split; [exact Hdone |]. constructor; [exact Hstep | constructor].
  - unfold pool_fails. cbn. rewrite Hrep. split; [| exact Hdone].
    rewrite Forall_forall in *. intros c Hc.
    apply in_app_or in Hc. destruct Hc as [Hc | Hc].
    + apply in_app_or in Hc. destruct Hc as [Hc | [<- | Hc]].
      * apply Hothers. apply in_or_app. left. apply in_or_app. left. exact Hc.
      * exact Hstep.
      * apply Hothers. apply in_or_app. left. apply in_or_app. right. exact Hc.
    + apply Hothers. apply in_or_app. right. exact Hc.
Qed.

Lemma run_ticks_pool_fails (env : oracle) (h0 : list event) (sched : list nat) :
  unreachable env ->
  forall pl, pool_fails pl -> pool_fails (run_ticks env h0 sched pl).
Proof.
  intro Hdown. induction sched as [| w sched IH]; intros pl Hpl; [exact Hpl |].
  rewrite run_ticks_cons. apply IH. apply tick_pool_fails; assumption.
Qed.

Lemma run_each_fails (env : oracle) (calls : list (Z * prog bool)) :
  unreachable env ->
  Forall (fun c => fails_unserved (snd c)) calls ->
  forall h0 done tr,
    Forall (fun f => is_success (snd f) = false) done ->
    Forall (fun f => is_success (snd f) = false) (fst (run_each env h0 calls done tr)).
Proof.
  intros Hdown. induction calls as [| [i p] rest IH]; intros Hcalls h0 done tr Hdone.
  - exact Hdone.
  - cbn [run_each]. inversion Hcalls as [| c l Hp Hrest]; subst.
    apply IH; [exact Hrest |].
    apply Forall_app. split; [exact Hdone |].
    constructor; [| constructor]. cbn. apply fails_unserved_exec; assumption.
Qed.

Lemma load_results_fail (task : Z -> prog bool) (count parallel : Z)
  (env : oracle) (sched : list nat) (h : list event) :
  unreachable env ->
  (forall i, fails_unserved (task i)) ->
  Forall (fun f => is_success (snd f) = false)
         (fst (load_results task count parallel env sched h)).
Proof.
  intros Hdown Htask.
  assert (Hcalls : Forall (fun c => fails_unserved (snd c)) (calls_of task count)).
  { unfold calls_of. rewrite Forall_forall. intros c Hc.
    apply in_map_iff in Hc. destruct Hc as (i & <- & _). apply Htask. }
  unfold load_results. destruct (1 <? parallel) eqn:Hpar.
  - apply Z.ltb_lt in Hpar.
    destruct (@submit_all_facts parallel (calls_of task count) ltac:(lia))
      as (_ & _ & Hfin & _ & Hsub).
    assert (Hpl : pool_fails (submit_all parallel (calls_of task count))).
    { split; [rewrite Hsub; exact Hcalls | rewrite Hfin; constructor]. }
    destruct (@run_ticks_pool_fails env h sched Hdown _ Hpl) as [H1 H2].
    unfold drain. apply run_each_fails; assumption.
  - apply run_each_fails; [exact Hdown | exact Hcalls | constructor].
Qed.

Lemma filter_none (A : Type) (f : A -> bool) (l : list A) :
  Forall (fun x => f x = false) l -> filter f l = [].
Proof.
  induction 1 as [| x l Hx Hl IH]; [reflexivity |]. cbn. rewrite Hx. exact IH.
Qed.

Lemma filter_all (A : Type) (f : A -> bool) (l : list A) :
  Forall (fun x => f x = true) l -> filter f l = l.
Proof.
  induction 1 as [| x l Hx Hl IH]; [reflexivity |]. cbn. rewrite Hx, IH. reflexivity.
Qed.

(** X21. When the service cannot be reached, a load run counts every lifecycle
    as failed, with or without the thread pool and whatever the schedule:
    it reports 0 successes and [total] failures.  (It reports unless
    [total] is [2^1024 - 2^970] or more, a number of lifecycles whose rate
    Python cannot compute: that run ends in [OverflowError].) *)
Theorem unreachable_service_fails_every_lifecycle (total parallel : Z)
  (use_async : bool) (env : oracle) (sched : list nat) (h : list event) :
  0 <= total ->
  unreachable env ->
  (reported_success (snd (test_load total parallel use_async env sched h)) = Some 0
   /\ reported_failed (snd (test_load total parallel use_async env sched h))
      = Some total)
  \/ (float_limit <= total
      /\ fst (test_load total parallel use_async env sched h) = Raised OverflowError).
Proof.
  intros Hc Hdown. unfold test_load.
  destruct (test_load_with_ends (generate_one use_async) total parallel use_async
              env sched h) as [(_ & H1 & H2) | [Hbig Hraised]];
    [left | right; split; [lia | exact Hraised]].
  rewrite H1, H2. rewrite tally_counts. cbn [fst snd].
  pose proof (@load_results_fail (generate_one use_async) total parallel env sched
                (h ++ [EvPrint (InfoLoadStart total (mode_of use_async) parallel);
                       EvTime (clock_of env
                                 (h ++ [EvPrint (InfoLoadStart total
                                                   (mode_of use_async) parallel)]))])
                Hdown (generate_one_fails_unserved use_async)) as Hall.
  fold (lifecycle_outcomes (generate_one use_async) total parallel use_async
          env sched h) in Hall.
  assert (Hmap : Forall (fun o => is_success o = false)
                   (map snd (lifecycle_outcomes (generate_one use_async) total
                               parallel use_async env sched h))).
  { rewrite Forall_forall in *. intros o Ho. apply in_map_iff in Ho.
    destruct Ho as (f & <- & Hf). apply Hall. exact Hf. }
  rewrite (filter_none _ Hmap).
  rewrite filter_all.
  - rewrite length_map. unfold lifecycle_outcomes.
    rewrite load_results_length by exact Hc. split; reflexivity.
  - rewrite Forall_forall in *. intros o Ho. rewrite (Hmap o Ho). reflexivity.
Qed.

Lemma unreachable_service_fails_every_lifecycle_witness :
  reported_success (snd (test_load 6 3 true dead_world [0; 2; 1; 1; 0; 2]%nat []))
  = Some 0
  /\ reported_failed (snd (test_load 6 3 true dead_world [0; 2; 1; 1; 0; 2]%nat []))
     = Some 6.
Proof.
  pose proof float_limit_large as Hlarge.
  destruct (@unreachable_service_fails_every_lifecycle 6 3 true dead_world
              [0; 2; 1; 1; 0; 2]%nat []) as [H | [Hbig _]].
  - lia.
  - intros h r. eexists. reflexivity.
  - exact H.
  - exfalso. lia.
Defined.

(** ** Anatomy of a lifecycle *)

Lemma poll_completed_counts (job_id : json) attempts status s t :
  poll_shape job_id attempts status (Returned (Next (Some s))) t ->
  eq_str s "completed" = true ->
  (forall s0, status = Some s0 -> eq_str s0 "completed" = false) ->
  count (reports "completed") t = 1%nat
  /\ (count is_unfinished_fetch t + 1 = count is_status_fetch t)%nat.
Proof.
  intro H. remember (Returned (Next (Some s))) as o eqn:Ho.
  induction H as [status | attempt rest status resp s' o t Hs Hc Hf Hrest IH
                 | attempt rest status resp s' Hs Hc
                 | | | | | | |];
    intros Hdone Hinit; try discriminate Ho.
  - injection Ho as ->. specialize (Hinit s eq_refl). congruence.
  - destruct (IH Ho Hdone) as [IH1 IH2].
    { intros s0 Hs0. injection Hs0 as <-. exact Hc. }
    repeat rewrite count_cons.
    rewrite (reports_status _ _ _ Hs), Hc.
    unfold is_unfinished_fetch at 2. unfold fetched_status.
    cbn [is_status_fetch status_request url]. rewrite Hs, Hc, Hf.
    cbn. lia.
  - injection Ho as ->.
    repeat rewrite count_cons. rewrite count_nil.
    rewrite (reports_status _ _ _ Hs), Hdone.
    unfold is_unfinished_fetch at 2. unfold fetched_status.
    cbn [is_status_fetch status_request url]. rewrite Hs, Hdone.
    cbn. split; reflexivity.
Qed.

Lemma poll_exhausted_counts (job_id : json) attempts status s t :
  poll_shape job_id attempts status (Returned (Next (Some s))) t ->
  eq_str s "completed" = false ->
  count is_unfinished_fetch t = List.length attempts
  /\ count is_status_fetch t = List.length attempts.
Proof.
  intro H. remember (Returned (Next (Some s))) as o eqn:Ho.
  induction H as [status | attempt rest status resp s' o t Hs Hc Hf Hrest IH
                 | attempt rest status resp s' Hs Hc
                 | | | | | | |];
    intros Hnot; try discriminate Ho.
  - split; reflexivity.
  - destruct (IH Ho Hnot) as [IH1 IH2].
    repeat rewrite count_cons.
    unfold is_unfinished_fetch at 2. unfold fetched_status.
    cbn [is_status_fetch status_request url]. rewrite Hs, Hc, Hf.
    cbn. split; lia.
  - injection Ho as ->. congruence.
Qed.

Lemma tail_reports_nothing (job_id : json) polled (o : outcome bool)
  (t : list event) (word : string) :
  finish_shape job_id polled o t ->
  count (reports word) t = 0%nat /\ count is_unfinished_fetch t = 0%nat.
Proof.
  destruct 1 as [e | r | | s Hs | s o t Hs Hd]; try (split; reflexivity).
  destruct Hd; split; reflexivity.
Qed.

(** A loop that ends on [completed]: unfinished fetches, then the fetch
    that reports [completed] and its status line. *)
Lemma poll_completed_split (job_id : json) attempts status s t :
  poll_shape job_id attempts status (Returned (Next (Some s))) t ->
  eq_str s "completed" = true ->
  (forall s0, status = Some s0 -> eq_str s0 "completed" = false) ->
  exists pre resp attempt,
    t = pre ++ [EvSleep 1; EvHttp (status_request job_id) (inr resp);
                EvPrint (InfoJobStatus s attempt)]
    /\ status_of (inr resp) = Some s
    /\ count is_unfinished_fetch pre = count is_status_fetch pre
    /\ count is_request pre = count is_status_fetch pre
    /\ count is_submission pre = 0%nat
    /\ count is_download pre = 0%nat.
Proof.
  intro H. remember (Returned (Next (Some s))) as o eqn:Ho.
  induction H as [status | attempt rest status resp s' o t Hs Hc Hf Hrest IH
                 | attempt rest status resp s' Hs Hc
                 | | | | | | |];
    intros Hdone Hinit; try discriminate Ho.
  - injection Ho as ->. specialize (Hinit s eq_refl). congruence.
  - destruct (IH Ho Hdone) as (pre & resp' & attempt' & -> & Hs' & H1 & H2 & H3 & H4).
    { intros s0 Hs0. injection Hs0 as <-. exact Hc. }
    exists (EvSleep 1 :: EvHttp (status_request job_id) (inr resp)
              :: EvPrint (InfoJobStatus s' attempt) :: pre), resp', attempt'.
    split; [reflexivity |]. split; [exact Hs' |].
    assert (Hunf : is_unfinished_fetch (EvHttp (status_request job_id) (inr resp))
                   = true).
    { unfold is_unfinished_fetch, fetched_status.
      cbn [is_status_fetch status_request url]. rewrite Hs, Hc, Hf. reflexivity. }
    repeat rewrite count_cons. rewrite Hunf.
    cbn. repeat split; lia.
  - injection Ho as ->.
    exists [], resp, attempt. repeat split; try reflexivity. exact Hs.
Qed.

(** X5. A lifecycle that returns [True] made its status fetches until one
    reported [completed], the only one to do so and the last, every
    earlier one having delivered an unfinished status, and then made its
    one download, its last request: the trace is the submission and the
    unfinished fetches, the fetch that reported [completed], the download,
    in that order. *)
Theorem successful_lifecycle_anatomy (env : oracle) (h : list event)
  (invoice_num : string) :
  let r := exec env h (test_async_generation invoice_num) in
  fst r = Returned true ->
  (exists before fetch between download after,
      snd r = before ++ fetch :: between ++ download :: after
      /\ count is_submission before = 1%nat
      /\ count is_request before = (1 + count is_status_fetch before)%nat
      /\ count is_unfinished_fetch before = count is_status_fetch before
      /\ reports "completed" fetch = true
      /\ count is_request between = 0%nat
      /\ is_download download = true
      /\ count is_request after = 0%nat)
  /\ count (reports "completed") (snd r) = 1%nat
  /\ (count is_unfinished_fetch (snd r) + 1 = count is_status_fetch (snd r))%nat
  /\ count is_download (snd r) = 1%nat
  /\ (count is_request (snd r) = count is_status_fetch (snd r) + 2)%nat.
Proof.
  cbv zeta.
  destruct (async_exec env invoice_num h)
    as [q r a e Hu Hj | q r resp Hu Hc
       | q r resp job_id polled tp o tail Hu Hj Hp Hf
       | q r resp Hu Hc Hplain | q r resp job_id Hu Hj Hplain];
    try discriminate.
  submission Hu. intro Ho. cbn [fst] in Ho. subst o.
  destruct (tail_reports_nothing "completed" Hf) as [Ht1 Ht2].
  destruct (poll_requests Hp) as (Hp1 & _).
  pose proof (poll_no_download Hp) as Hnd.
  destruct (finish_counts Hf) as [Hz _].
  destruct (finish_facts Hf) as (Hf1 & _).
  inversion Hf as [| r' | | | s o' t' Hs Hd]; subst.
  { pose proof (poll_returns_false Hp). discriminate. }
  destruct (download_counts Hd) as [_ Hd1].
  destruct (@poll_completed_counts _ _ _ _ _ Hp Hs) as [Hc1 Hc2].
  { intros s0 Hs0. discriminate Hs0. }
  split.
  - destruct (@poll_completed_split _ _ _ _ _ Hp Hs)
      as (pre & fresp & attempt & -> & Hfs & Hq1 & Hq2 & Hq3 & Hq4).
    { intros s0 Hs0. discriminate Hs0. }
    inversion Hd as [| | | | dresp file Hcode |]; subst.
    exists (EvPrint (InfoTestingAsync invoice_num) :: EvRandInt 1 10 q
              :: EvHttp r (inr resp) :: EvPrint (InfoJobCreated job_id)
              :: pre ++ [EvSleep 1]),
      (EvHttp (status_request job_id) (inr fresp)),
      [EvPrint (InfoJobStatus s attempt)],
      (EvHttp (download_request job_id) (inr dresp)),
      [EvMkdir None; EvWriteBytes file (content dresp) None;
       EvPrint (InfoAsyncSucceeded file (len (content dresp)))].
    split.
    { cbn [app]. rewrite <- !app_assoc. reflexivity. }
    repeat rewrite count_cons. rewrite !count_app, Hn1, Hm1, Hm2, Hm4.
    rewrite (reports_status _ _ _ Hfs).
    cbn. repeat split; try lia. exact Hs.
  - repeat rewrite count_cons. rewrite !count_app.
    rewrite Hn1, Hn2, Hn6, Hm1, Hm4. cbn. lia.
Qed.

Lemma successful_lifecycle_anatomy_witness :
  (exists before fetch between download after,
      working_trace = before ++ fetch :: between ++ download :: after
      /\ count is_submission before = 1%nat
      /\ count is_request before = (1 + count is_status_fetch before)%nat
      /\ count is_unfinished_fetch before = count is_status_fetch before
      /\ reports "completed" fetch = true
      /\ count is_request between = 0%nat
      /\ is_download download = true
      /\ count is_request after = 0%nat)
  /\ count (reports "completed") working_trace = 1%nat
  /\ (count is_unfinished_fetch working_trace + 1
      = count is_status_fetch working_trace)%nat
  /\ count is_download working_trace = 1%nat
  /\ (count is_request working_trace = count is_status_fetch working_trace + 2)%nat.
Proof.
  apply (@successful_lifecycle_anatomy working_world [] "001").
  vm_compute. reflexivity.
Defined.

(** X14. The time-out line is printed only by a lifecycle that made all 30
    status fetches, each answered with an unfinished status; it returns
    [False] and makes no download. *)
Theorem timeout_only_after_every_attempt (env : oracle) (h : list event)
  (invoice_num : string) :
  let r := exec env h (test_async_generation invoice_num) in
  In (EvPrint ErrJobTimedOut) (snd r) ->
  fst r = Returned false
  /\ count is_status_fetch (snd r) = 30%nat
  /\ count is_unfinished_fetch (snd r) = 30%nat
  /\ count is_download (snd r) = 0%nat.
Proof.
  cbv zeta.
  destruct (async_exec env invoice_num h)
    as [q r a e Hu Hj | q r resp Hu Hc
       | q r resp job_id polled tp o tail Hu Hj Hp Hf
       | q r resp Hu Hc Hplain | q r resp job_id Hu Hj Hplain];
    intro Hin.
  - destruct Hin as [Hin | [Hin | [Hin | [Hin | []]]]]; discriminate Hin.
  - destruct Hin as [Hin | [Hin | [Hin | [Hin | []]]]]; discriminate Hin.
  - submission Hu.
    destruct Hin as [Hin | [Hin | [Hin | [Hin | Hin]]]]; try discriminate Hin.
    apply in_app_or in Hin. destruct Hin as [Hin | Hin].
    { exfalso. exact (poll_never_prints_timeout Hp Hin). }
    pose proof (poll_no_download Hp) as Hnd.
    inversion Hf as [e Hpo Ho Ht | r' Hpo Ho Ht | Hpo Ho Ht | s Hs Hpo Ho Ht
                    | s o' t' Hs Hd Hpo Ho Ht]; subst;
      try (cbn in Hin;
           repeat match goal with
                  | H : _ \/ _ |- _ => destruct H
                  | H : False |- _ => contradiction
                  | H : _ = EvPrint ErrJobTimedOut |- _ => discriminate H
                  end).
    + destruct (poll_exhausted_counts Hp Hs) as [H1 H2].
      rewrite attempts_length in H1, H2.
      repeat rewrite count_cons. rewrite !count_app.
      rewrite Hn1, Hn2, Hm4, H1, H2, Hnd. cbn. auto.
    + exfalso. destruct Hd; cbn in Hin;
        repeat match goal with
               | H : _ \/ _ |- _ => destruct H
               | H : False |- _ => contradiction
               | H : _ = EvPrint ErrJobTimedOut |- _ => discriminate H
               end.
  - destruct Hin as [Hin | [Hin | [Hin | [Hin | [Hin | []]]]]]; discriminate Hin.
  - destruct Hin as [Hin | [Hin | [Hin | [Hin | [Hin | []]]]]]; discriminate Hin.
Qed.

Lemma timeout_only_after_every_attempt_witness :
  fst (exec stuck_world [] (test_async_generation "001")) = Returned false
  /\ count is_status_fetch (snd (exec stuck_world [] (test_async_generation "001")))
     = 30%nat
  /\ count is_unfinished_fetch (snd (exec stuck_world [] (test_async_generation "001")))
     = 30%nat
  /\ count is_download (snd (exec stuck_world [] (test_async_generation "001")))
     = 0%nat.
Proof.
  apply (@timeout_only_after_every_attempt stuck_world [] "001").
  vm_compute. auto 200.
Defined.

(** X19. When [--health], [--sync] or [--async] is given, [--load] and its
    count are ignored. *)
Theorem mode_flags_override_load (a : args) (env : oracle) (sched : list nat)
  (h : list event) :
  health a || sync a || async_test a = true ->
  main a env sched h = main (without_load a) env sched h.
Proof.
  intro Hflag. unfold main, without_load. cbn [health sync async_test load truthy].
  destruct (health a), (sync a), (async_test a); try discriminate Hflag;
    cbn [orb negb]; reflexivity.
Qed.

Lemma mode_flags_override_load_witness :
  main {| health := true; sync := false; async_test := false;
          load := Some 50; parallel := 5; use_async := false |} working_world [] []
  = main {| health := true; sync := false; async_test := false;
            load := None; parallel := 5; use_async := false |} working_world [] [].
Proof.
  apply (@mode_flags_override_load
           {| health := true; sync := false; async_test := false;
              load := Some 50; parallel := 5; use_async := false |}
           working_world [] []).
  reflexivity.
Defined.

(** ** Sample runs of the tests *)




(** ** What a lifecycle hands to the counting loop *)





(** ** The limit of the conversion to a float *)

(** [float_limit] is where the nearest double stops being finite. *)
Lemma float_limit_is_sharp :
  is_infinity (round_to_float float_limit) = true
  /\ is_infinity (round_to_float (float_limit - 1)) = false
  /\ is_infinity (round_to_float (- float_limit)) = true
  /\ is_infinity (round_to_float (1 - float_limit)) = false.
Proof. vm_compute. repeat split. Qed.

(** ** Lines that cannot be printed *)





